(** * Conversation orchestration: booking flow, workflow engine, dispatch

    A shallow embedding of the conversational core of the repository:
    the validators of [booking-validator.ts], the conversation store of
    [booking-state-manager.ts], the booking state machine of
    [booking-service.ts], the stored procedures of the SQL migrations
    ([get_available_time_slots], [is_time_slot_available],
    [create_booking_safe]), the workflow engine of [workflow-engine.ts],
    the two channel adapters and the two dispatch routers
    ([bot-manager.ts] for the phone channel, [web-conversation-engine.ts]
    for the web widget).

    Conventions of the model.
    - A JavaScript string is a [string] whose characters are the code
      points below 256; [toLowerCase], [trim] and the regular expression
      class [\s] are written out for that range.
    - Timestamps are milliseconds since the epoch, times of day are
      seconds since midnight, dates are opaque strings, all as the code
      passes them around.
    - The relational store is a record of tables, each a list of rows in
      insertion order.  A query fails only when the data makes it fail:
      a violated uniqueness constraint, or [.single()] on zero or several
      rows.  Outages of the store are not modelled.
    - The transport under an adapter may be down; a send then throws, as
      in the adapters.
    - Outbound texts are represented by a constructor per template,
      carrying the values interpolated into it. *)

From Stdlib Require Import ZArith QArith Qround Ascii String List Lia Bool.
From stdpp Require Import base option list strings gmap sorting pretty.

Local Open Scope string_scope.
Local Open Scope Z_scope.

(** ** JavaScript strings *)

Module JS.

Definition code (c : ascii) : N := N_of_ascii c.

(** [WhiteSpace] and [LineTerminator] code points below 256: TAB, LF, VT,
    FF, CR, SP and NBSP.  Both [String.prototype.trim] and the class [\s]
    use this set. *)
Definition isWhiteSpace (c : ascii) : bool :=
  let n := code c in
  ((9 <=? n) && (n <=? 13) || (n =? 32) || (n =? 160))%N.

Definition isUpper (c : ascii) : bool :=
  let n := code c in
  ((65 <=? n) && (n <=? 90)
   || (192 <=? n) && (n <=? 214)
   || (216 <=? n) && (n <=? 222))%N.

Definition toLowerChar (c : ascii) : ascii :=
  if isUpper c then ascii_of_N (code c + 32) else c.

Fixpoint toLowerCase (s : string) : string :=
  match s with
  | EmptyString => EmptyString
  | String c r => String (toLowerChar c) (toLowerCase r)
  end.

Fixpoint trimStart (s : string) : string :=
  match s with
  | EmptyString => EmptyString
  | String c r => if isWhiteSpace c then trimStart r else s
  end.

Fixpoint trimEnd (s : string) : string :=
  match s with
  | EmptyString => EmptyString
  | String c r =>
      match trimEnd r with
      | EmptyString => if isWhiteSpace c then EmptyString else String c EmptyString
      | r' => String c r'
      end
  end.

Definition trim (s : string) : string := trimEnd (trimStart s).

Fixpoint all_chars (p : ascii -> bool) (s : string) : bool :=
  match s with
  | EmptyString => true
  | String c r => p c && all_chars p r
  end.

Definition nonEmpty (s : string) : bool :=
  match s with EmptyString => false | _ => true end.

(** [s.includes(t)] *)
Fixpoint includes (s t : string) : bool :=
  String.prefix t s ||
  match s with
  | EmptyString => false
  | String _ r => includes r t
  end.

Definition isDigit (c : ascii) : bool :=
  let n := code c in ((48 <=? n) && (n <=? 57))%N.

Definition isAsciiLetter (c : ascii) : bool :=
  let n := code c in
  ((65 <=? n) && (n <=? 90) || (97 <=? n) && (n <=? 122))%N.

(** [/^\d+$/.test(s)] *)
Definition all_digits (s : string) : bool := nonEmpty s && all_chars isDigit s.

(** [parseInt(s)] on a string that passed [/^\d+$/]. *)
Fixpoint digits_value (acc : Z) (s : string) : Z :=
  match s with
  | EmptyString => acc
  | String c r => digits_value (10 * acc + (Z.of_N (code c) - 48)) r
  end.

Definition parseInt (s : string) : Z := digits_value 0 s.

Definition strlen (s : string) : Z := Z.of_nat (String.length s).

(** A text between double quotes. *)
Definition quoted (s : string) : string :=
  String (ascii_of_N 34) s ++ String (ascii_of_N 34) EmptyString.

End JS.

(** ** booking-validator.ts *)

Module BookingValidator.
Import JS.

Inductive BookingState :=
| IDLE | COLLECTING_NAME | COLLECTING_BOOKING_FOR | COLLECTING_GENDER
| SHOWING_SERVICES | COLLECTING_SERVICE | SHOWING_DATES | COLLECTING_DATE
| SHOWING_TIME_SLOTS | COLLECTING_TIME | CONFIRMING | COMPLETED.

Inductive Gender := MALE | FEMALE | OTHER.

Inductive BookingStatus := PENDING | CONFIRMED | CANCELLED | BS_COMPLETED | NO_SHOW.

(** The result objects [{ valid, value, error }] of the validator. *)
Inductive validation (A : Type) :=
| Valid (value : A)
| Invalid (error : string).
Arguments Valid {A} value.
Arguments Invalid {A} error.

(** The character class [[a-zA-Z\s.'-]]. *)
Definition isNameChar (c : ascii) : bool :=
  isAsciiLetter c || isWhiteSpace c
  || (code c =? 46)%N || (code c =? 39)%N || (code c =? 45)%N.

(** [/^[a-zA-Z\s.'-]+$/.test(s)] *)
Definition name_regex (s : string) : bool := nonEmpty s && all_chars isNameChar s.

(** [nameSchema]: min(2), max(100) and the regex on the raw input, then
    the trimming transform. The first failing check gives the message. *)
Definition validateName (input : string) : validation string :=
  if strlen input <? 2 then Invalid "Name must be at least 2 characters"
  else if 100 <? strlen input then Invalid "Name is too long (max 100 characters)"
  else if negb (name_regex input)
       then Invalid "Name should only contain letters, spaces, dots, hyphens, and apostrophes"
  else Valid (trim input).

(** [bookingForSchema]: min(2) and max(100) on the raw input, the
    transform [val.trim().toLowerCase()], then the refinement. *)
Definition bookingFor_refine (val : string) : bool :=
  String.eqb val "self" || String.eqb val "myself" || String.eqb val "me"
  || name_regex val.

Definition validateBookingFor (input : string) : validation string :=
  if strlen input <? 2 then Invalid ("Please provide a valid name or " ++ quoted "self")
  else if 100 <? strlen input then Invalid "Name is too long (max 100 characters)"
  else
    let val := toLowerCase (trim input) in
    if bookingFor_refine val then Valid val
    else Invalid ("Please enter a valid name or " ++ quoted "self").


(** [genderSchema]: trim and lower-case, membership test, then the
    mapping to the enum. *)
Definition validateGender (input : string) : validation Gender :=
  let val := toLowerCase (trim input) in
  if String.eqb val "m" || String.eqb val "male" then Valid MALE
  else if String.eqb val "f" || String.eqb val "female" then Valid FEMALE
  else if String.eqb val "o" || String.eqb val "other" then Valid OTHER
  else Invalid "Please select: Male, Female, or Other".

(** [serviceSelectionSchema]: min(1) on the raw input, then trim. *)
Definition validateServiceSelection (input : string) : validation string :=
  if strlen input <? 1 then Invalid "Please select a service"
  else Valid (trim input).

Definition affirmative : list string := ["confirm"; "yes"; "y"; "ok"; "okay"].
Definition negative : list string := ["cancel"; "no"; "n"].

Definition string_in (s : string) (l : list string) : bool :=
  existsb (String.eqb s) l.

(** [confirmationSchema]: [true] for an affirmative answer, [false] for a
    negative one. *)
Definition validateConfirmation (input : string) : validation bool :=
  let val := toLowerCase (trim input) in
  if string_in val (affirmative ++ negative)%list then Valid (string_in val affirmative)
  else Invalid ("Please reply with " ++ quoted "CONFIRM" ++ " or " ++ quoted "CANCEL").

End BookingValidator.

(** ** The data model *)

Module Data.
Import BookingValidator.

(** A JSON number that may be [null] (a nullable numeric column read
    through the REST layer). *)
Inductive json_num := JNull | JNum (n : Z).

(** [ConversationState.collectedData]; an absent key is [None]. *)
Record CollectedData := mkCollected {
  customerName : option string;
  customerPhone : string;
  bookingFor : option string;
  gender : option Gender;
  serviceId : option string;
  serviceName : option string;
  servicePrice : option json_num;
  serviceDuration : option json_num;
  bookingDate : option string;
  bookingTime : option Z;
}.

Record ConversationState := mkState {
  currentStep : BookingState;
  collectedData : CollectedData;
}.

(** Table [booking_conversations]. *)
Record BookingConversation := mkBC {
  bc_id : nat;
  bc_bot_id : string;
  bc_business_id : string;
  bc_customer_phone : string;
  bc_conversation_state : CollectedData;
  bc_current_step : BookingState;
  bc_is_completed : bool;
  bc_expires_at : Z;
}.

(** Table [bot_settings]; a nullable column is an [option]. *)
Record BotSettings := mkSettings {
  st_bot_id : string;
  booking_enabled : option bool;
  booking_trigger_keywords : option (list string);
  booking_confirmation_message : option string;
  booking_require_gender : option bool;
  booking_require_booking_for : option bool;
  workflow_enabled : option bool;
  ai_enabled : option bool;
}.

(** Table [business_services]. *)
Record Service := mkService {
  sv_id : string;
  sv_business_id : string;
  sv_name : string;
  sv_price : json_num;
  sv_duration : json_num;
  sv_is_active : bool;
  sv_display_order : Z;
}.

(** Table [business_time_slots]; times of day in seconds. *)
Record TimeSlotConfig := mkTimeSlot {
  ts_business_id : string;
  ts_day_of_week : Z;
  ts_start_time : Z;
  ts_end_time : Z;
  ts_slot_duration : Z;
  ts_is_active : bool;
}.

(** Table [bookings]. *)
Record Booking := mkBooking {
  bk_id : nat;
  bk_business_id : string;
  bk_bot_id : string;
  bk_customer_name : string;
  bk_customer_phone : string;
  bk_booking_for : string;
  bk_gender : string;
  bk_service_id : option string;
  bk_service_name : string;
  bk_service_price : Z;
  bk_booking_date : string;
  bk_booking_time : Z;
  bk_duration : Z;
  bk_status : BookingStatus;
  bk_notes : option string;
}.

Inductive Channel := WHATSAPP | WEB.

Inductive MessageType := MT_TEXT | MT_DOCUMENT.

(** An outbound text, one constructor per template of the services. *)
Inductive Msg :=
| Text (s : string)
| MsgSomethingWrong
| MsgAskName
| MsgNameInvalid (error : string)
| MsgAskBookingFor (name : string)
| MsgAskGenderAfterName (name : string)
| MsgBookingForInvalid (error : string)
| MsgAskGender
| MsgGenderInvalid (error : string)
| MsgNoServices
| MsgNoServicesShort
| MsgServicesMenu (names : list string)
| MsgCancelled
| MsgServiceInvalid (error : string)
| MsgServiceNotFound
| MsgDatesMenu (service : option string) (dates : list string)
| MsgInvalidDate
| MsgPastDate
| MsgNoSlotsForDate
| MsgAllSlotsBooked
| MsgSlotsMenu (times : list Z)
| MsgErrorFetchingSlots
| MsgInvalidSlot
| MsgConfirmSummary (data : CollectedData)
| MsgConfirmInvalid (error : string)
| MsgBookingError
| MsgSlotTaken (error_message : string)
| MsgBookingConfirmed (booking_id : nat) (confirmation : string)
| MsgErrorPrefixed (message : string)
| MsgDocumentCaption (caption : string)
| MsgDocumentName (file_name : string)
| MsgPromptOptions (prompt : string) (labels : list (option string))
| MsgLink (title url : string)
| MsgThankYou.

(** Table [messages], the columns the adapters fill in. *)
Record MessageRecord := mkMessage {
  m_bot_id : string;
  m_business_id : string;
  m_message_type : MessageType;
  m_content : Msg;
  m_outbound : bool;
  m_channel : option Channel;
  m_session_id : option string;
  m_metadata : option string;
}.

(** What reaches the user through a transport. *)
Inductive Delivery :=
| DText (to : string) (m : Msg)
| DRich (to : string) (components : string)
| DDocument (to : string) (url : string) (file_name : string)
| DTyping (to : string) (start : bool)
| DError (to : string) (code : string) (message : string).

(** A workflow step, as the JSON of [workflows.steps] is read. *)
Inductive StepType :=
| COLLECT_FIELD | AI_RESPONSE | SHOW_OPTIONS | SHARE_MEDIA | CONDITIONAL
| START_BOOKING | UNKNOWN_TYPE.

Record WfOption := mkOption {
  opt_label : option string;
  opt_value : option string;
}.

Record WfStep := mkStep {
  step_id : option string;
  step_type : StepType;
  prompt_message : option string;
  step_next : option string;
  collect_field_key : option string;
  options : option (list WfOption);
  options_field_key : option string;
}.

Record Workflow := mkWorkflow {
  wf_id : string;
  wf_bot_id : string;
  wf_published : bool;
  wf_is_active : bool;
  wf_keywords : option (list string);
  wf_steps : list WfStep;
  wf_save_to_database : bool;
}.

(** Table [workflow_conversations]; [state] is an open JSON object. *)
Record WorkflowConversation := mkWC {
  wc_id : nat;
  wc_bot_id : string;
  wc_user_key : string;
  wc_workflow_id : string;
  wc_current_step_id : string;
  wc_state : gmap string string;
  wc_is_completed : bool;
  wc_channel : Channel;
}.

Record Inquiry := mkInquiry {
  iq_bot_id : string;
  iq_workflow_id : string;
  iq_inquiry_data : gmap string string;
  iq_source : Channel;
  iq_customer_phone : option string;
}.

Inductive MediaType := IMAGE | VIDEO | DOCUMENT | LOCATION | CONTACT.

Record BotMedia := mkMedia {
  md_bot_id : string;
  md_type : MediaType;
  md_title : option string;
  md_file_url : option string;
  md_file_name : option string;
}.

(** The state of the web socket of a session: open, absent or closed
    (a send is silently dropped), or failing (a send throws). *)
Inductive WsState := WS_OPEN | WS_ABSENT | WS_BROKEN.

(** Calls the dispatch layer makes, recorded for the ordering claims. *)
Inductive Call :=
| CallWorkflowTryHandle (bot user : string)
| CallWorkflowMatcher (bot user : string)
| CallHandleBookingMessage (bot user : string)
| CallFreeFormReply (bot user : string).

End Data.

(** ** The world: the relational store and the transports *)

Module World.
Import BookingValidator Data.

Record World := mkWorld {
  bot_settings : list BotSettings;
  business_services : list Service;
  business_time_slots : list TimeSlotConfig;
  bookings : list Booking;
  booking_conversations : list BookingConversation;
  workflows : list Workflow;
  workflow_conversations : list WorkflowConversation;
  inquiries : list Inquiry;
  bot_media : list BotMedia;
  messages : list MessageRecord;
  wa_up : bool;
  ws_state : WsState;
  outbox : list Delivery;
  calls : list Call;
}.

Definition set_bookings (f : list Booking -> list Booking) (w : World) : World :=
  mkWorld (bot_settings w) (business_services w) (business_time_slots w)
    (f (bookings w)) (booking_conversations w) (workflows w)
    (workflow_conversations w) (inquiries w) (bot_media w) (messages w)
    (wa_up w) (ws_state w) (outbox w) (calls w).

Definition set_booking_conversations
    (f : list BookingConversation -> list BookingConversation) (w : World) : World :=
  mkWorld (bot_settings w) (business_services w) (business_time_slots w)
    (bookings w) (f (booking_conversations w)) (workflows w)
    (workflow_conversations w) (inquiries w) (bot_media w) (messages w)
    (wa_up w) (ws_state w) (outbox w) (calls w).

Definition set_workflow_conversations
    (f : list WorkflowConversation -> list WorkflowConversation) (w : World) : World :=
  mkWorld (bot_settings w) (business_services w) (business_time_slots w)
    (bookings w) (booking_conversations w) (workflows w)
    (f (workflow_conversations w)) (inquiries w) (bot_media w) (messages w)
    (wa_up w) (ws_state w) (outbox w) (calls w).

Definition set_inquiries (f : list Inquiry -> list Inquiry) (w : World) : World :=
  mkWorld (bot_settings w) (business_services w) (business_time_slots w)
    (bookings w) (booking_conversations w) (workflows w)
    (workflow_conversations w) (f (inquiries w)) (bot_media w) (messages w)
    (wa_up w) (ws_state w) (outbox w) (calls w).

Definition set_messages (f : list MessageRecord -> list MessageRecord) (w : World) : World :=
  mkWorld (bot_settings w) (business_services w) (business_time_slots w)
    (bookings w) (booking_conversations w) (workflows w)
    (workflow_conversations w) (inquiries w) (bot_media w) (f (messages w))
    (wa_up w) (ws_state w) (outbox w) (calls w).

Definition set_outbox (f : list Delivery -> list Delivery) (w : World) : World :=
  mkWorld (bot_settings w) (business_services w) (business_time_slots w)
    (bookings w) (booking_conversations w) (workflows w)
    (workflow_conversations w) (inquiries w) (bot_media w) (messages w)
    (wa_up w) (ws_state w) (f (outbox w)) (calls w).

Definition set_calls (f : list Call -> list Call) (w : World) : World :=
  mkWorld (bot_settings w) (business_services w) (business_time_slots w)
    (bookings w) (booking_conversations w) (workflows w)
    (workflow_conversations w) (inquiries w) (bot_media w) (messages w)
    (wa_up w) (ws_state w) (outbox w) (f (calls w)).

Definition set_bot_settings (f : list BotSettings -> list BotSettings) (w : World) : World :=
  mkWorld (f (bot_settings w)) (business_services w) (business_time_slots w)
    (bookings w) (booking_conversations w) (workflows w)
    (workflow_conversations w) (inquiries w) (bot_media w) (messages w)
    (wa_up w) (ws_state w) (outbox w) (calls w).

(** An empty store with both transports up. *)
Definition empty_world : World :=
  mkWorld [] [] [] [] [] [] [] [] [] [] true WS_OPEN [] [].

(** What an [await] can throw. *)
Inductive Exn :=
| TransportError
| StoreError (constraint : string)
| ZodError.

Inductive Result (A : Type) :=
| Ok (a : A)
| Throw (e : Exn).
Arguments Ok {A} a.
Arguments Throw {A} e.

(** Computations of the services: they read and write the world and may
    throw. *)
Definition M (A : Type) : Type := World -> Result A * World.

Definition ret {A} (a : A) : M A := fun w => (Ok a, w).

Definition bind {A B} (m : M A) (k : A -> M B) : M B :=
  fun w => match m w with
           | (Ok a, w') => k a w'
           | (Throw e, w') => (Throw e, w')
           end.

Definition throw {A} (e : Exn) : M A := fun w => (Throw e, w).

(** [try { m } catch (e) { h e }] *)
Definition try_catch {A} (m : M A) (h : Exn -> M A) : M A :=
  fun w => match m w with
           | (Ok a, w') => (Ok a, w')
           | (Throw e, w') => h e w'
           end.

Definition get : M World := fun w => (Ok w, w).

Definition modify (f : World -> World) : M unit := fun w => (Ok tt, f w).

Definition record_call (c : Call) : M unit :=
  modify (set_calls (fun l => l ++ [c])%list).

(** The world a computation leaves, and its result. *)
Definition exec {A} (m : M A) (w : World) : World := snd (m w).
Definition result {A} (m : M A) (w : World) : Result A := fst (m w).

(** [.single()]: the row when exactly one row matches. *)
Definition single {A} (rows : list A) : option A :=
  match rows with
  | [x] => Some x
  | _ => None
  end.

(** [.maybeSingle()]: as [single] for the data it returns; several rows
    give an error and no data. *)
Definition maybeSingle {A} (rows : list A) : option A := single rows.

Definition settings_of (botId : string) (w : World) : option BotSettings :=
  single (List.filter (fun s => String.eqb (st_bot_id s) botId) (bot_settings w)).

End World.

Declare Scope m_scope.
Delimit Scope m_scope with M.
Notation "x <-- m ;; k" := (World.bind m (fun x => k))
  (at level 100, m at next level, right associativity) : m_scope.
Notation "m ;;; k" := (World.bind m (fun _ => k))
  (at level 100, right associativity) : m_scope.

(** ** messaging-adapter.ts, whatsapp-adapter.ts, web-adapter.ts *)

Module Adapter.
Import Data World.
Local Open Scope m_scope.

(** [AdapterContext] and the channel of the adapter built on it. For the
    web adapter the session id is the user key. *)
Record Adapter := mkAdapter {
  channel : Channel;
  getBotId : string;
  getBusinessId : string;
  getUserKey : string;
}.

(** [x || y] on a possibly absent string: the empty string is falsy. *)
Definition truthy (o : option string) : option string :=
  match o with
  | Some EmptyString => None
  | _ => o
  end.

Definition or_else (o : option string) (d : string) : string :=
  match truthy o with
  | Some s => s
  | None => d
  end.

Record SendDocumentOptions := mkDoc {
  doc_url : string;
  doc_fileName : option string;
  doc_mimeType : option string;
  doc_caption : option string;
  doc_title : option string;
}.

(** [sock.sendMessage]: rejects when the socket is down. *)
Definition sock_sendMessage (d : Delivery) : M unit :=
  fun w => if wa_up w then (Ok tt, set_outbox (fun l => l ++ [d])%list w)
           else (Throw TransportError, w).

(** [sendEventToSession]: nothing is sent without an open connection;
    [ws.send] may throw. *)
Definition sendEventToSession (d : Delivery) : M unit :=
  fun w => match ws_state w with
           | WS_OPEN => (Ok tt, set_outbox (fun l => l ++ [d])%list w)
           | WS_ABSENT => (Ok tt, w)
           | WS_BROKEN => (Throw TransportError, w)
           end.

(** [saveMessage] of either adapter: the insert into [messages]; its own
    failures are caught and logged. The metadata object of a document is
    represented by its url. *)
Definition saveMessage (ad : Adapter) (content : Msg) (ty : MessageType)
    (metadata : option string) : M unit :=
  modify (set_messages (fun l =>
    l ++ [mkMessage (getBotId ad) (getBusinessId ad) ty content true
            (Some (channel ad))
            (match channel ad with WEB => Some (getUserKey ad) | WHATSAPP => None end)
            metadata])%list).

Definition wa_sendText (ad : Adapter) (text : Msg) (metadata : option string) : M unit :=
  try_catch
    (sock_sendMessage (DText (getUserKey ad) text) ;;;
     saveMessage ad text MT_TEXT metadata)
    (fun e => throw e).

Definition wa_sendRich (ad : Adapter) (components : string) : M unit :=
  try_catch (sock_sendMessage (DRich (getUserKey ad) components))
    (fun e => throw e).

Definition wa_sendTyping (ad : Adapter) (start : bool) : M unit :=
  try_catch (sock_sendMessage (DTyping (getUserKey ad) start))
    (fun _ => ret tt).

Definition wa_sendError (ad : Adapter) (code message : string) : M unit :=
  try_catch (wa_sendText ad (MsgErrorPrefixed message) None)
    (fun _ => ret tt).

Definition web_sendText (ad : Adapter) (text : Msg) (metadata : option string) : M unit :=
  try_catch
    (sendEventToSession (DText (getUserKey ad) text) ;;;
     saveMessage ad text MT_TEXT metadata)
    (fun e => throw e).

Definition web_sendRich (ad : Adapter) (components : string) : M unit :=
  try_catch (sendEventToSession (DRich (getUserKey ad) components))
    (fun e => throw e).

Definition web_sendTyping (ad : Adapter) (start : bool) : M unit :=
  try_catch (sendEventToSession (DTyping (getUserKey ad) start))
    (fun _ => ret tt).

Definition web_sendError (ad : Adapter) (code message : string) : M unit :=
  try_catch (sendEventToSession (DError (getUserKey ad) code message))
    (fun _ => ret tt).

Definition web_document_content (o : SendDocumentOptions) : Msg :=
  match truthy (doc_caption o) with
  | Some c => MsgDocumentCaption c
  | None => MsgDocumentName (or_else (doc_fileName o) "document.pdf")
  end.

Definition web_sendDocument (ad : Adapter) (o : SendDocumentOptions) : M unit :=
  try_catch
    (sendEventToSession
       (DDocument (getUserKey ad) (doc_url o) (or_else (doc_fileName o) "document.pdf")) ;;;
     saveMessage ad (web_document_content o) MT_DOCUMENT (Some (doc_url o)))
    (fun e => throw e).

(** The [MessagingAdapter] interface over the two implementations; an
    optional method that a class does not define is [None]. *)
Definition sendText (ad : Adapter) (text : Msg) (metadata : option string) : M unit :=
  match channel ad with
  | WHATSAPP => wa_sendText ad text metadata
  | WEB => web_sendText ad text metadata
  end.

Definition sendRich (ad : Adapter) : option (string -> M unit) :=
  match channel ad with
  | WHATSAPP => Some (wa_sendRich ad)
  | WEB => Some (web_sendRich ad)
  end.

Definition sendDocument (ad : Adapter) : option (SendDocumentOptions -> M unit) :=
  match channel ad with
  | WHATSAPP => None
  | WEB => Some (web_sendDocument ad)
  end.

Definition sendTyping (ad : Adapter) (start : bool) : M unit :=
  match channel ad with
  | WHATSAPP => wa_sendTyping ad start
  | WEB => web_sendTyping ad start
  end.

Definition sendError (ad : Adapter) (code message : string) : M unit :=
  match channel ad with
  | WHATSAPP => wa_sendError ad code message
  | WEB => web_sendError ad code message
  end.

(** Whether the transport call of a send returns (rather than throws). *)
Definition transport_returns (ad : Adapter) (w : World) : bool :=
  match channel ad with
  | WHATSAPP => wa_up w
  | WEB => match ws_state w with WS_BROKEN => false | _ => true end
  end.

(** The record [saveMessage] writes for an outbound message. *)
Definition outbound_record (ad : Adapter) (ty : MessageType) (content : Msg)
    (metadata : option string) : MessageRecord :=
  mkMessage (getBotId ad) (getBusinessId ad) ty content true
    (Some (channel ad))
    (match channel ad with WEB => Some (getUserKey ad) | WHATSAPP => None end)
    metadata.

End Adapter.

(** ** The calendar of the host

    [Date] of the JavaScript runtime and the [DATE] input of the store
    depend on the time zone and on parsing rules outside the repository;
    the services use them through these five operations. *)

Class Calendar := {
  (** [d = new Date(now); d.setDate(d.getDate() + i);
      d.toISOString().split('T')[0]] *)
  isoDatePlus : Z -> Z -> string;
  (** [new Date(s).getTime()], [None] for an Invalid Date *)
  dateValue : string -> option Z;
  (** [new Date(now).setHours(0, 0, 0, 0)] *)
  startOfDay : Z -> Z;
  (** [new Date(s).getDay()], [None] for [NaN] *)
  getDay : string -> option Z;
  (** whether the store accepts [s] as a [DATE] *)
  sqlDate : string -> bool;
}.

(** ** The stored procedures of the migrations *)

Module Sql.
Import BookingValidator Data World.

(** [status IN ('pending', 'confirmed')] *)
Definition active_status (s : BookingStatus) : bool :=
  match s with
  | PENDING | CONFIRMED => true
  | _ => false
  end.

Definition same_slot (business date : string) (time : Z) (b : Booking) : bool :=
  String.eqb (bk_business_id b) business
  && String.eqb (bk_booking_date b) date
  && (bk_booking_time b =? time).

(** The rows the partial unique index [idx_bookings_unique_slot] of
    [003_prevent_double_booking.sql] covers for one slot. *)
Definition active_in_slot (business date : string) (time : Z)
    (tbl : list Booking) : list Booking :=
  List.filter (fun b => same_slot business date time b && active_status (bk_status b)) tbl.

(** [is_time_slot_available]: [v_count = 0]. *)
Definition is_time_slot_available (tbl : list Booking)
    (p_business_id p_booking_date : string) (p_booking_time : Z) : bool :=
  Z.of_nat (length (active_in_slot p_business_id p_booking_date p_booking_time tbl)) =? 0.

(** [idx_bookings_unique_slot] holds of a table. *)
Definition unique_slot (tbl : list Booking) : Prop :=
  forall business date time,
    (length (active_in_slot business date time tbl) <= 1)%nat.

Record BookingArgs := mkArgs {
  p_business_id : string;
  p_bot_id : string;
  p_customer_name : string;
  p_customer_phone : string;
  p_booking_for : string;
  p_gender : string;
  p_service_id : string;
  p_service_name : string;
  p_service_price : Z;
  p_booking_date : string;
  p_booking_time : Z;
  p_duration : Z;
  p_notes : option string;
}.

(** The row of the [INSERT] of [create_booking_safe]; ids are handed out
    in sequence. *)
Definition new_booking (id : nat) (a : BookingArgs) : Booking :=
  mkBooking id (p_business_id a) (p_bot_id a) (p_customer_name a)
    (p_customer_phone a) (p_booking_for a) (p_gender a) (Some (p_service_id a))
    (p_service_name a) (p_service_price a) (p_booking_date a) (p_booking_time a)
    (p_duration a) PENDING (p_notes a).

Definition fresh_id (tbl : list Booking) : nat :=
  S (foldr (fun b m => Nat.max (bk_id b) m) 0%nat tbl).

(** The foreign key [service_id REFERENCES business_services(id)]. *)
Definition service_exists (w : World) (id : string) : bool :=
  existsb (fun s => String.eqb (sv_id s) id) (business_services w).

Inductive InsertOutcome :=
| Inserted (id : nat)
| UniqueViolation
| OtherError (sqlerrm : string).

(** [INSERT INTO bookings ... RETURNING id]: the unique index rejects a
    second pending or confirmed row of a slot; the foreign key on the
    service is checked at the end of the statement. *)
Definition insert_booking (a : BookingArgs) (w : World) : InsertOutcome * World :=
  if negb (is_time_slot_available (bookings w) (p_business_id a) (p_booking_date a)
             (p_booking_time a))
  then (UniqueViolation, w)
  else if negb (service_exists w (p_service_id a))
  then (OtherError "violates foreign key constraint", w)
  else
    let id := fresh_id (bookings w) in
    (Inserted id, set_bookings (fun l => l ++ [new_booking id a])%list w).

(** The row [create_booking_safe] returns. *)
Record SafeResult := mkSafe {
  success : bool;
  booking_id : option nat;
  error_message : option string;
}.

Definition msg_no_longer_available : string :=
  "This time slot is no longer available. Please select another time.".
Definition msg_just_booked : string :=
  "This time slot was just booked by someone else. Please select another time.".

(** The first statement of [create_booking_safe]: the availability
    check. [None]: the check passed and the insert follows. *)
Definition create_booking_check (a : BookingArgs) (w : World) : option SafeResult :=
  if negb (is_time_slot_available (bookings w) (p_business_id a) (p_booking_date a)
             (p_booking_time a))
  then Some (mkSafe false None (Some msg_no_longer_available))
  else None.

(** The inner block of [create_booking_safe]: the insert and its
    exception handlers. *)
Definition create_booking_insert (a : BookingArgs) (w : World) : SafeResult * World :=
  match insert_booking a w with
  | (Inserted id, w') => (mkSafe true (Some id) None, w')
  | (UniqueViolation, w') => (mkSafe false None (Some msg_just_booked), w')
  | (OtherError e, w') => (mkSafe false None (Some ("Error creating booking: " ++ e)), w')
  end.

(** [create_booking_safe], run without interleaving. *)
Definition create_booking_safe (a : BookingArgs) (w : World) : SafeResult * World :=
  match create_booking_check a w with
  | Some r => (r, w)
  | None => create_booking_insert a w
  end.

(** [generate_series(start, stop, step)] on integers; a zero step is an
    error. *)
Definition generate_series (start stop step : Z) : option (list Z) :=
  if step =? 0 then None
  else
    let count :=
      if 0 <? step
      then (if stop <? start then 0 else (stop - start) / step + 1)
      else (if start <? stop then 0 else (start - stop) / (- step) + 1) in
    Some (List.map (fun k => start + step * Z.of_nat k) (seq 0 (Z.to_nat count))).

(** The CTE [time_config]: the first active row for the business and the
    day ([LIMIT 1]). *)
Definition time_config (w : World) (business : string) (dow : Z) : option TimeSlotConfig :=
  head (List.filter
          (fun t => String.eqb (ts_business_id t) business
                    && (ts_day_of_week t =? dow) && ts_is_active t)
          (business_time_slots w)).

(** The CTE [time_slots]: [(p_date + start_time + n minutes)::TIME]. *)
Definition time_slots (tc : TimeSlotConfig) : option (list Z) :=
  match generate_series 0
          (Z.quot (ts_end_time tc - ts_start_time tc) 60 - ts_slot_duration tc)
          (ts_slot_duration tc) with
  | None => None
  | Some ns => Some (List.map (fun n => (ts_start_time tc + 60 * n) mod 86400) ns)
  end.

(** The CTE [booked_slots]. *)
Definition booked_slots (w : World) (business date : string) : list Z :=
  List.map bk_booking_time
    (List.filter (fun b => String.eqb (bk_business_id b) business
                           && String.eqb (bk_booking_date b) date
                           && active_status (bk_status b))
       (bookings w)).

(** [time_slots LEFT JOIN booked_slots]: one row per matching booking,
    or one row with [is_available] when there is none. *)
Definition left_join (slots booked : list Z) : list (Z * bool) :=
  List.flat_map
    (fun t => match List.filter (Z.eqb t) booked with
              | [] => [(t, true)]
              | ms => List.map (fun _ => (t, false)) ms
              end)
    slots.

Definition slot_le (x y : Z * bool) : Prop := x.1 <= y.1.

#[export] Instance slot_le_dec (x y : Z * bool) : Decision (slot_le x y).
Proof. unfold slot_le. apply _. Defined.

(** [get_available_time_slots] of [002_fix_time_slots_function.sql];
    [None] is an error of the call (a date the store does not read, or a
    zero [slot_duration]). *)
Definition get_available_time_slots `{Calendar} (w : World)
    (p_business_id p_date : string) (p_day_of_week : option Z) : option (list (Z * bool)) :=
  if negb (sqlDate p_date) then None
  else
    match p_day_of_week with
    | None => Some []
    | Some dow =>
        match time_config w p_business_id dow with
        | None => Some []
        | Some tc =>
            match time_slots tc with
            | None => None
            | Some slots =>
                Some (merge_sort slot_le
                        (left_join slots (booked_slots w p_business_id p_date)))
            end
        end
    end.

End Sql.

(** ** booking-state-manager.ts *)

Module BookingStateManager.
Import BookingValidator Data World.
Local Open Scope m_scope.

(** [.eq('bot_id', botId).eq('customer_phone', customerPhone)
     .eq('is_completed', false)] *)
Definition is_active_for (botId customerPhone : string) (r : BookingConversation) : bool :=
  String.eqb (bc_bot_id r) botId
  && String.eqb (bc_customer_phone r) customerPhone
  && negb (bc_is_completed r).

Definition active_rows (botId customerPhone : string) (w : World) : list BookingConversation :=
  List.filter (is_active_for botId customerPhone) (booking_conversations w).

(** The table constraint [UNIQUE(bot_id, customer_phone, is_completed)] of
    [001_booking_system.sql], commented there as "only one active
    conversation per customer per bot": two rows of one customer collide
    when both are active, and also when both are completed. *)
Definition same_key (a b : BookingConversation) : bool :=
  String.eqb (bc_bot_id a) (bc_bot_id b)
  && String.eqb (bc_customer_phone a) (bc_customer_phone b)
  && Bool.eqb (bc_is_completed a) (bc_is_completed b).

Fixpoint unique_conversations (tbl : list BookingConversation) : bool :=
  match tbl with
  | [] => true
  | r :: rest => negb (existsb (same_key r) rest) && unique_conversations rest
  end.

Definition update_where (p : BookingConversation -> bool)
    (f : BookingConversation -> BookingConversation)
    (tbl : list BookingConversation) : list BookingConversation :=
  List.map (fun r => if p r then f r else r) tbl.

(** An [UPDATE] that leaves the key columns alone. *)
Definition update_rows (p : BookingConversation -> bool)
    (f : BookingConversation -> BookingConversation) : M unit :=
  modify (set_booking_conversations (update_where p f)).

(** An [UPDATE] of [is_completed]: the statement is rejected as a whole
    when a row it writes collides with the unique constraint. The result
    is the [error] of the response. *)
Definition update_completed (p : BookingConversation -> bool)
    (f : BookingConversation -> BookingConversation) : M bool :=
  fun w =>
    let tbl := update_where p f (booking_conversations w) in
    if unique_conversations tbl
    then (Ok false, set_booking_conversations (fun _ => tbl) w)
    else (Ok true, w).

Definition set_state (d : CollectedData) (s : BookingState) (r : BookingConversation)
  : BookingConversation :=
  mkBC (bc_id r) (bc_bot_id r) (bc_business_id r) (bc_customer_phone r) d s
    (bc_is_completed r) (bc_expires_at r).

Definition set_completed (s : option BookingState) (r : BookingConversation)
  : BookingConversation :=
  mkBC (bc_id r) (bc_bot_id r) (bc_business_id r) (bc_customer_phone r)
    (bc_conversation_state r)
    (match s with Some s => s | None => bc_current_step r end)
    true (bc_expires_at r).

Definition set_expires (t : Z) (r : BookingConversation) : BookingConversation :=
  mkBC (bc_id r) (bc_bot_id r) (bc_business_id r) (bc_customer_phone r)
    (bc_conversation_state r) (bc_current_step r) (bc_is_completed r) t.

(** [conversationStateSchema.parse] on a stored row: [z.number().optional()]
    rejects a [null]. *)
Definition parses (d : CollectedData) : bool :=
  match servicePrice d, serviceDuration d with
  | Some JNull, _ | _, Some JNull => false
  | _, _ => true
  end.

Definition initial_data (customerPhone : string) : CollectedData :=
  mkCollected None customerPhone None None None None None None None None.

Definition thirty_minutes : Z := 30 * 60 * 1000.

Definition getOrCreateState (botId businessId customerPhone : string) (now : Z)
  : M ConversationState :=
  w <-- get ;;
  match single (active_rows botId customerPhone w) with
  | Some existing =>
      if parses (bc_conversation_state existing)
      then ret (mkState (bc_current_step existing) (bc_conversation_state existing))
      else throw ZodError
  | None =>
      let row := mkBC (length (booking_conversations w)) botId businessId customerPhone
                   (initial_data customerPhone) IDLE false (now + thirty_minutes) in
      if existsb (same_key row) (booking_conversations w)
      then throw (StoreError "booking_conversations_bot_id_customer_phone_is_completed_key")
      else
        modify (set_booking_conversations (fun l => l ++ [row])%list) ;;;
        ret (mkState IDLE (initial_data customerPhone))
  end.

Definition updateState (botId customerPhone : string) (state : ConversationState) : M unit :=
  update_rows (is_active_for botId customerPhone)
    (set_state (collectedData state) (currentStep state)).

Definition completeConversation (botId customerPhone : string) : M unit :=
  error <-- update_completed (is_active_for botId customerPhone) (set_completed (Some COMPLETED)) ;;
  if error : bool
  then throw (StoreError "booking_conversations_bot_id_customer_phone_is_completed_key")
  else ret tt.

Definition cancelConversation (botId customerPhone : string) : M unit :=
  error <-- update_completed (is_active_for botId customerPhone) (set_completed (Some IDLE)) ;;
  if error : bool
  then throw (StoreError "booking_conversations_bot_id_customer_phone_is_completed_key")
  else ret tt.

Definition hasActiveConversation (botId customerPhone : string) : M bool :=
  w <-- get ;;
  ret (match single (active_rows botId customerPhone w) with
       | Some _ => true
       | None => false
       end).

(** [.lt('expires_at', now).eq('is_completed', false)] *)
Definition expired (now : Z) (r : BookingConversation) : bool :=
  (bc_expires_at r <? now) && negb (bc_is_completed r).

(** [cleanupExpiredConversations]: the number of rows it completed; an
    error of the update is logged and gives 0. *)
Definition cleanupExpiredConversations (now : Z) : M nat :=
  w <-- get ;;
  error <-- update_completed (expired now) (set_completed None) ;;
  if error : bool then ret 0%nat
  else ret (length (List.filter (expired now) (booking_conversations w))).

Definition extendExpiry (botId customerPhone : string) (now : Z) (minutes : Z) : M unit :=
  update_rows (is_active_for botId customerPhone) (set_expires (now + minutes * 60 * 1000)).

End BookingStateManager.

(** ** booking-service.ts *)

Module BookingService.
Import JS BookingValidator Data World Adapter BookingStateManager.
Local Open Scope m_scope.

Section WithCalendar.
Context `{Calendar}.

(** [isBookingTrigger] *)
Definition isBookingTrigger (message : string) (keywords : list string) : bool :=
  let lowerMessage := toLowerCase message in
  existsb (fun keyword => includes lowerMessage (toLowerCase keyword)) keywords.

(** [isBookingEnabled] *)
Definition isBookingEnabled (botId : string) : M bool :=
  w <-- get ;;
  ret (match settings_of botId w with
       | Some s => match booking_enabled s with Some true => true | _ => false end
       | None => false
       end).

Definition default_keywords : list string :=
  ["book"; "booking"; "appointment"; "schedule"; "reserve"].

(** [getBookingKeywords] *)
Definition getBookingKeywords (botId : string) : M (list string) :=
  w <-- get ;;
  ret (match settings_of botId w with
       | Some s => match booking_trigger_keywords s with
                   | Some ks => ks
                   | None => default_keywords
                   end
       | None => default_keywords
       end).

Definition sendMessage (adapter : Adapter) (message : Msg) : M unit :=
  sendText adapter message None.

Definition with_step (s : BookingState) (state : ConversationState) : ConversationState :=
  mkState s (collectedData state).

Definition with_data (d : CollectedData) (state : ConversationState) : ConversationState :=
  mkState (currentStep state) d.

Definition set_customerName (v : string) (d : CollectedData) : CollectedData :=
  mkCollected (Some v) (customerPhone d) (bookingFor d) (gender d) (serviceId d)
    (serviceName d) (servicePrice d) (serviceDuration d) (bookingDate d) (bookingTime d).

Definition set_bookingFor (v : string) (d : CollectedData) : CollectedData :=
  mkCollected (customerName d) (customerPhone d) (Some v) (gender d) (serviceId d)
    (serviceName d) (servicePrice d) (serviceDuration d) (bookingDate d) (bookingTime d).

Definition set_gender (v : Gender) (d : CollectedData) : CollectedData :=
  mkCollected (customerName d) (customerPhone d) (bookingFor d) (Some v) (serviceId d)
    (serviceName d) (servicePrice d) (serviceDuration d) (bookingDate d) (bookingTime d).

Definition set_service (s : Service) (d : CollectedData) : CollectedData :=
  mkCollected (customerName d) (customerPhone d) (bookingFor d) (gender d)
    (Some (sv_id s)) (Some (sv_name s)) (Some (sv_price s)) (Some (sv_duration s))
    (bookingDate d) (bookingTime d).

Definition set_bookingDate (v : string) (d : CollectedData) : CollectedData :=
  mkCollected (customerName d) (customerPhone d) (bookingFor d) (gender d) (serviceId d)
    (serviceName d) (servicePrice d) (serviceDuration d) (Some v) (bookingTime d).

Definition set_bookingTime (v : Z) (d : CollectedData) : CollectedData :=
  mkCollected (customerName d) (customerPhone d) (bookingFor d) (gender d) (serviceId d)
    (serviceName d) (servicePrice d) (serviceDuration d) (bookingDate d) (Some v).

(** [(settings as any)?.column !== false] *)
Definition not_false (o : option bool) : bool :=
  match o with
  | Some false => false
  | _ => true
  end.

Definition requireBookingFor (botId : string) (w : World) : bool :=
  match settings_of botId w with
  | Some s => not_false (booking_require_booking_for s)
  | None => true
  end.

Definition requireGender (botId : string) (w : World) : bool :=
  match settings_of botId w with
  | Some s => not_false (booking_require_gender s)
  | None => true
  end.

Definition startBooking (adapter : Adapter) (state : ConversationState) : M unit :=
  let state := with_step COLLECTING_NAME state in
  updateState (getBotId adapter) (getUserKey adapter) state ;;;
  sendMessage adapter MsgAskName.

Definition handleCancel (adapter : Adapter) : M unit :=
  cancelConversation (getBotId adapter) (getUserKey adapter) ;;;
  sendMessage adapter MsgCancelled.

Definition service_le (a b : Service) : Prop := sv_display_order a <= sv_display_order b.

#[export] Instance service_le_dec (a b : Service) : Decision (service_le a b).
Proof. unfold service_le. apply _. Defined.

(** The active services of a business, [.order('display_order')]. *)
Definition active_services (businessId : string) (w : World) : list Service :=
  merge_sort service_le
    (List.filter (fun s => String.eqb (sv_business_id s) businessId && sv_is_active s)
       (business_services w)).

Definition showServices (adapter : Adapter) (state : ConversationState) : M unit :=
  w <-- get ;;
  match active_services (getBusinessId adapter) w with
  | [] =>
      sendMessage adapter MsgNoServices ;;;
      cancelConversation (getBotId adapter) (getUserKey adapter)
  | services =>
      let state := with_step COLLECTING_SERVICE state in
      updateState (getBotId adapter) (getUserKey adapter) state ;;;
      sendMessage adapter (MsgServicesMenu (List.map sv_name services))
  end.

Definition handleNameInput (adapter : Adapter) (message : string)
    (state : ConversationState) : M unit :=
  match validateName message with
  | Invalid error => sendMessage adapter (MsgNameInvalid error)
  | Valid value =>
      let state := with_data (set_customerName value (collectedData state)) state in
      w <-- get ;;
      if requireBookingFor (getBotId adapter) w
      then
        let state := with_step COLLECTING_BOOKING_FOR state in
        updateState (getBotId adapter) (getUserKey adapter) state ;;;
        sendMessage adapter (MsgAskBookingFor value)
      else
        let state := with_data (set_bookingFor "self" (collectedData state)) state in
        let state := with_step COLLECTING_GENDER state in
        updateState (getBotId adapter) (getUserKey adapter) state ;;;
        sendMessage adapter (MsgAskGenderAfterName value)
  end.

Definition handleBookingForInput (adapter : Adapter) (message : string)
    (state : ConversationState) : M unit :=
  match validateBookingFor message with
  | Invalid error => sendMessage adapter (MsgBookingForInvalid error)
  | Valid value =>
      let state := with_data (set_bookingFor value (collectedData state)) state in
      w <-- get ;;
      if requireGender (getBotId adapter) w
      then
        let state := with_step COLLECTING_GENDER state in
        updateState (getBotId adapter) (getUserKey adapter) state ;;;
        sendMessage adapter MsgAskGender
      else
        let state := with_step SHOWING_SERVICES state in
        updateState (getBotId adapter) (getUserKey adapter) state ;;;
        showServices adapter state
  end.

Definition handleGenderInput (adapter : Adapter) (message : string)
    (state : ConversationState) : M unit :=
  let input := trim message in
  let input :=
    if String.eqb input "1" then "male"
    else if String.eqb input "2" then "female"
    else if String.eqb input "3" then "other"
    else input in
  match validateGender input with
  | Invalid error => sendMessage adapter (MsgGenderInvalid error)
  | Valid value =>
      let state := with_data (set_gender value (collectedData state)) state in
      let state := with_step SHOWING_SERVICES state in
      updateState (getBotId adapter) (getUserKey adapter) state ;;;
      showServices adapter state
  end.

(** The seven dates offered, from today. *)
Definition offered_dates (now : Z) : list string :=
  List.map (fun i => isoDatePlus now (Z.of_nat i)) (seq 0 7).

Definition showAvailableDates (adapter : Adapter) (state : ConversationState) (now : Z)
  : M unit :=
  let state := with_step COLLECTING_DATE state in
  updateState (getBotId adapter) (getUserKey adapter) state ;;;
  sendMessage adapter (MsgDatesMenu (serviceName (collectedData state)) (offered_dates now)).

(** The selection of [handleServiceInput]: by number, else by name. *)
Definition select_service (input : string) (services : list Service) : option Service :=
  if all_digits input
  then
    let index := parseInt input - 1 in
    if (0 <=? index) && (index <? Z.of_nat (length services))
    then services !! Z.to_nat index
    else None
  else
    List.find (fun s => String.eqb (toLowerCase (sv_name s)) input
                        || includes (toLowerCase (sv_name s)) input)
      services.

Definition handleServiceInput (adapter : Adapter) (message : string)
    (state : ConversationState) (now : Z) : M unit :=
  match validateServiceSelection message with
  | Invalid error => sendMessage adapter (MsgServiceInvalid error)
  | Valid value =>
      w <-- get ;;
      match active_services (getBusinessId adapter) w with
      | [] => sendMessage adapter MsgNoServicesShort
      | services =>
          match select_service (toLowerCase value) services with
          | None => sendMessage adapter MsgServiceNotFound
          | Some selectedService =>
              let state := with_data (set_service selectedService (collectedData state)) state in
              let state := with_step SHOWING_DATES state in
              updateState (getBotId adapter) (getUserKey adapter) state ;;;
              showAvailableDates adapter state now
          end
      end
  end.

(** [/^\d{4}-\d{2}-\d{2}$/.test(s)] *)
Definition iso_date_regex (s : string) : bool :=
  match s with
  | String y1 (String y2 (String y3 (String y4 (String d1
      (String m1 (String m2 (String d2 (String a1 (String a2 EmptyString))))))))) =>
      isDigit y1 && isDigit y2 && isDigit y3 && isDigit y4
      && (code d1 =? 45)%N && isDigit m1 && isDigit m2
      && (code d2 =? 45)%N && isDigit a1 && isDigit a2
  | _ => false
  end.

(** The date [handleDateInput] reads from the input. *)
Definition select_date (input : string) (now : Z) : option string :=
  if all_digits input
  then
    let index := parseInt input - 1 in
    if (0 <=? index) && (index <? 7) then Some (isoDatePlus now index) else None
  else if String.eqb input "today" then Some (isoDatePlus now 0)
  else if String.eqb input "tomorrow" then Some (isoDatePlus now 1)
  else if iso_date_regex input then Some input
  else None.

(** [bookingDate < today]; a comparison with an Invalid Date is false. *)
Definition in_the_past (selectedDate : string) (now : Z) : bool :=
  match dateValue selectedDate with
  | Some v => v <? startOfDay now
  | None => false
  end.

(** The call of [get_available_time_slots] the service makes for the
    date of the state; an absent date is an error of the call. *)
Definition fetch_slots (adapter : Adapter) (state : ConversationState) (w : World)
  : option (list (Z * bool)) :=
  match bookingDate (collectedData state) with
  | None => None
  | Some date =>
      Sql.get_available_time_slots w (getBusinessId adapter) date (getDay date)
  end.

Definition available_slots (slots : list (Z * bool)) : list Z :=
  List.map fst (List.filter snd slots).

Definition showAvailableTimeSlots (adapter : Adapter) (state : ConversationState) (now : Z)
  : M unit :=
  w <-- get ;;
  match fetch_slots adapter state w with
  | None | Some [] =>
      sendMessage adapter MsgNoSlotsForDate ;;;
      let state := with_step SHOWING_DATES state in
      updateState (getBotId adapter) (getUserKey adapter) state ;;;
      showAvailableDates adapter state now
  | Some slots =>
      match available_slots slots with
      | [] =>
          sendMessage adapter MsgAllSlotsBooked ;;;
          let state := with_step SHOWING_DATES state in
          updateState (getBotId adapter) (getUserKey adapter) state ;;;
          showAvailableDates adapter state now
      | availableSlots =>
          let state := with_step COLLECTING_TIME state in
          updateState (getBotId adapter) (getUserKey adapter) state ;;;
          sendMessage adapter (MsgSlotsMenu availableSlots)
      end
  end.

Definition handleDateInput (adapter : Adapter) (message : string)
    (state : ConversationState) (now : Z) : M unit :=
  let input := toLowerCase (trim message) in
  match select_date input now with
  | None => sendMessage adapter MsgInvalidDate
  | Some selectedDate =>
      if in_the_past selectedDate now then sendMessage adapter MsgPastDate
      else
        let state := with_data (set_bookingDate selectedDate (collectedData state)) state in
        let state := with_step SHOWING_TIME_SLOTS state in
        updateState (getBotId adapter) (getUserKey adapter) state ;;;
        showAvailableTimeSlots adapter state now
  end.

(** [slot_time.substring(0, 5)]: the time to the minute. *)
Definition hh_mm (slot_time : Z) : Z := 60 * (slot_time / 60).

Definition select_time (input : string) (availableSlots : list Z) : option Z :=
  if all_digits input
  then
    let index := parseInt input - 1 in
    if (0 <=? index) && (index <? Z.of_nat (length availableSlots))
    then hh_mm <$> availableSlots !! Z.to_nat index
    else None
  else None.

Definition showConfirmation (adapter : Adapter) (state : ConversationState) : M unit :=
  sendMessage adapter (MsgConfirmSummary (collectedData state)).

Definition handleTimeInput (adapter : Adapter) (message : string)
    (state : ConversationState) : M unit :=
  let input := trim message in
  w <-- get ;;
  match fetch_slots adapter state w with
  | None => sendMessage adapter MsgErrorFetchingSlots
  | Some slots =>
      match select_time input (available_slots slots) with
      | None => sendMessage adapter MsgInvalidSlot
      | Some selectedTime =>
          let state := with_data (set_bookingTime selectedTime (collectedData state)) state in
          let state := with_step CONFIRMING state in
          updateState (getBotId adapter) (getUserKey adapter) state ;;;
          showConfirmation adapter state
      end
  end.

Definition gender_text (g : option Gender) : string :=
  match g with
  | Some MALE => "male"
  | Some FEMALE => "female"
  | Some OTHER => "other"
  | None => "not specified"
  end.

(** [data.servicePrice || 0], [data.serviceDuration || 30] *)
Definition num_or (o : option json_num) (d : Z) : Z :=
  match o with
  | Some (JNum n) => if n =? 0 then d else n
  | _ => d
  end.

(** The arguments of the call of [create_booking_safe]; [None] when a
    parameter without default is undefined, which is an error of the
    call. *)
Definition booking_args (adapter : Adapter) (data : CollectedData) : option Sql.BookingArgs :=
  match customerName data, serviceId data, serviceName data,
        bookingDate data, bookingTime data with
  | Some name, Some sid, Some sname, Some date, Some time =>
      Some (Sql.mkArgs (getBusinessId adapter) (getBotId adapter) name
              (getUserKey adapter) (or_else (bookingFor data) "self")
              (gender_text (gender data)) sid sname (num_or (servicePrice data) 0)
              date time (num_or (serviceDuration data) 30) None)
  | _, _, _, _, _ => None
  end.

(** [supabaseAdmin.rpc('create_booking_safe', ...)]: [None] is the
    [error] of the call. *)
Definition rpc_create_booking_safe (adapter : Adapter) (data : CollectedData)
  : M (option Sql.SafeResult) :=
  fun w =>
    match booking_args adapter data with
    | None => (Ok None, w)
    | Some a =>
        if negb (sqlDate (Sql.p_booking_date a)) then (Ok None, w)
        else let '(r, w') := Sql.create_booking_safe a w in (Ok (Some r), w')
    end.

Definition default_confirmation : string :=
  "Your booking has been confirmed! We look forward to seeing you.".

Definition confirmation_message (botId : string) (w : World) : string :=
  match settings_of botId w with
  | Some s => or_else (booking_confirmation_message s) default_confirmation
  | None => default_confirmation
  end.

Definition handleConfirmation (adapter : Adapter) (message : string)
    (state : ConversationState) (now : Z) : M unit :=
  match validateConfirmation message with
  | Invalid error => sendMessage adapter (MsgConfirmInvalid error)
  | Valid false => handleCancel adapter
  | Valid true =>
      result <-- rpc_create_booking_safe adapter (collectedData state) ;;
      match result with
      | None => sendMessage adapter MsgBookingError
      | Some bookingResult =>
          if negb (Sql.success bookingResult)
          then
            sendMessage adapter
              (MsgSlotTaken (default EmptyString (Sql.error_message bookingResult))) ;;;
            let state := with_step SHOWING_TIME_SLOTS state in
            updateState (getBotId adapter) (getUserKey adapter) state ;;;
            showAvailableTimeSlots adapter state now
          else
            completeConversation (getBotId adapter) (getUserKey adapter) ;;;
            w <-- get ;;
            sendMessage adapter
              (MsgBookingConfirmed (default 0%nat (Sql.booking_id bookingResult))
                 (confirmation_message (getBotId adapter) w))
      end
  end.

Definition is_confirming (s : BookingState) : bool :=
  match s with
  | CONFIRMING => true
  | _ => false
  end.

(** The routing of a turn on the current step, with the global cancel
    before it. *)
Definition route (adapter : Adapter) (message : string) (state : ConversationState)
    (now : Z) : M unit :=
  if String.eqb (trim (toLowerCase message)) "cancel"
     && negb (is_confirming (currentStep state))
  then handleCancel adapter
  else
    match currentStep state with
    | IDLE => startBooking adapter state
    | COLLECTING_NAME => handleNameInput adapter message state
    | COLLECTING_BOOKING_FOR => handleBookingForInput adapter message state
    | COLLECTING_GENDER => handleGenderInput adapter message state
    | COLLECTING_SERVICE => handleServiceInput adapter message state now
    | COLLECTING_DATE => handleDateInput adapter message state now
    | COLLECTING_TIME => handleTimeInput adapter message state
    | CONFIRMING => handleConfirmation adapter message state now
    | _ => startBooking adapter state
    end.

(** The body of [handleBookingMessage]: one turn of the booking
    conversation at time [now]. *)
Definition bookingTurn (adapter : Adapter) (message : string) (now : Z) : M unit :=
  let botId := getBotId adapter in
  let businessId := getBusinessId adapter in
  let customerPhone := getUserKey adapter in
  try_catch
    (state <-- getOrCreateState botId businessId customerPhone now ;;
     extendExpiry botId customerPhone now 30 ;;;
     route adapter message state now)
    (fun _ =>
       sendMessage adapter MsgSomethingWrong).

(** [handleBookingMessage], with the call recorded. *)
Definition handleBookingMessage (adapter : Adapter) (message : string) (now : Z) : M unit :=
  record_call (CallHandleBookingMessage (getBotId adapter) (getUserKey adapter)) ;;;
  bookingTurn adapter message now.

End WithCalendar.
End BookingService.

(** ** Builtins and collaborators of the workflow engine *)

(** [Number(s)] of the runtime and the text of a number. [None] stands
    for [NaN] and for the infinities, of which no pair of comparisons in
    [parseOption] holds. *)
Class JsNumber := {
  Number : string -> option Q;
  numberToString : Q -> string;
}.

(** [AIService.generateResponse(message, 'UNKNOWN', botId, [])] *)
Class Assistant := {
  generateResponse : string -> string -> string;
  (** [detectIntent] reports [BOOKING_REQUEST] with confidence at least 0.7 *)
  bookingIntent : string -> string -> bool;
}.

(** ** workflow-engine.ts *)

Module WorkflowEngine.
Import JS Data World Adapter.
Local Open Scope m_scope.

Section WithBuiltins.
Context `{Calendar} `{JsNumber} `{Assistant}.

(** [s.id || 'step1'] *)
Definition step_key (s : WfStep) : string := or_else (step_id s) "step1".

(** [steps.findIndex(s => (s.id || 'step1') === id)] *)
Fixpoint findIndex {A} (p : A -> bool) (l : list A) : option nat :=
  match l with
  | [] => None
  | x :: r => if p x then Some 0%nat else S <$> findIndex p r
  end.

(** The index of the choice when it is a whole number. *)
Definition as_index (q : Q) : option nat :=
  if Qeq_bool q (inject_Z (Qfloor q)) && (0 <=? Qfloor q)
  then Some (Z.to_nat (Qfloor q))
  else None.

(** [parseOption]: [num - 1] for a number between 1 and the number of
    options, else the index of the option whose label is the input. *)
Definition parseOption (message : string) (options : list WfOption) : option Q :=
  let trimmed := toLowerCase (trim message) in
  match Number trimmed with
  | Some num =>
      if Qle_bool 1 num && Qle_bool num (inject_Z (Z.of_nat (length options)))
      then Some (num - 1)%Q
      else inject_Z <$> (Z.of_nat <$>
             findIndex (fun o => String.eqb (toLowerCase (default EmptyString (truthy (opt_label o))))
                                   trimmed) options)
  | None =>
      inject_Z <$> (Z.of_nat <$>
        findIndex (fun o => String.eqb (toLowerCase (default EmptyString (truthy (opt_label o))))
                              trimmed) options)
  end.

(** [options[choice]?.value ?? options[choice]?.label ?? String(choice)] *)
Definition choice_value (options : list WfOption) (choice : Q) : string :=
  match as_index choice ≫= (fun i => options !! i) with
  | Some o =>
      match opt_value o, opt_label o with
      | Some v, _ => v
      | None, Some l => l
      | None, None => numberToString choice
      end
  | None => numberToString choice
  end.

Definition is_active_convo (botId userKey : string) (c : WorkflowConversation) : bool :=
  String.eqb (wc_bot_id c) botId && String.eqb (wc_user_key c) userKey
  && negb (wc_is_completed c).

Definition update_convos (p : WorkflowConversation -> bool)
    (f : WorkflowConversation -> WorkflowConversation) : M unit :=
  modify (set_workflow_conversations (List.map (fun c => if p c then f c else c))).

Definition wc_complete (state : option (gmap string string)) (c : WorkflowConversation)
  : WorkflowConversation :=
  mkWC (wc_id c) (wc_bot_id c) (wc_user_key c) (wc_workflow_id c) (wc_current_step_id c)
    (match state with Some s => s | None => wc_state c end) true (wc_channel c).

Definition wc_move (nextId : string) (state : option (gmap string string))
    (c : WorkflowConversation) : WorkflowConversation :=
  mkWC (wc_id c) (wc_bot_id c) (wc_user_key c) (wc_workflow_id c) nextId
    (match state with Some s => s | None => wc_state c end) (wc_is_completed c)
    (wc_channel c).

Definition has_id (id : nat) (c : WorkflowConversation) : bool := Nat.eqb (wc_id c) id.

Definition is_file_media (m : BotMedia) : bool :=
  match md_type m with
  | IMAGE | VIDEO | DOCUMENT => true
  | _ => false
  end.

(** The media of a bot the engine shares. *)
Definition media_items (botId : string) (w : World) : list BotMedia :=
  List.filter is_file_media
    (List.filter (fun m => String.eqb (md_bot_id m) botId) (bot_media w)).

(** One media item: a document through [sendDocument] or as a link, an
    image or a video through [sendRich]; a failure is logged. *)
Definition send_item (adapter : Adapter) (item : BotMedia) : M unit :=
  match truthy (md_file_url item), truthy (md_file_name item) with
  | Some url, Some name =>
      try_catch
        (match md_type item with
         | DOCUMENT =>
             match sendDocument adapter with
             | Some send =>
                 send (mkDoc url (Some name) None (truthy (md_title item))
                         (truthy (md_title item)))
             | None => sendText adapter (MsgLink (or_else (md_title item) name) url) None
             end
         | IMAGE | VIDEO =>
             match sendRich adapter with
             | Some send => send url
             | None => ret tt
             end
         | _ => ret tt
         end)
        (fun _ => ret tt)
  | _, _ => ret tt
  end.

Fixpoint send_items (adapter : Adapter) (items : list BotMedia) : M unit :=
  match items with
  | [] => ret tt
  | item :: rest => send_item adapter item ;;; send_items adapter rest
  end.

Definition share_media (adapter : Adapter) (prompt : string) : M unit :=
  w <-- get ;;
  match media_items (getBotId adapter) w with
  | [] => sendText adapter (Text prompt) None
  | items => sendText adapter (Text prompt) None ;;; send_items adapter items
  end.

Definition has_options (s : WfStep) : bool :=
  match options s with
  | Some (_ :: _) => true
  | _ => false
  end.

(** The prompt of a step the conversation moves to. *)
Definition send_prompt (adapter : Adapter) (next : WfStep) (fallback : string) : M unit :=
  let prompt := or_else (prompt_message next) fallback in
  match step_type next, has_options next with
  | SHOW_OPTIONS, true =>
      sendText adapter
        (MsgPromptOptions prompt (List.map opt_label (default [] (options next)))) None
  | _, _ => sendText adapter (Text prompt) None
  end.

(** [step.next || steps[idx + 1]?.id], with [idx = -1] when the current
    step id is not found. *)
Definition next_id (step : WfStep) (steps : list WfStep) (succ_idx : nat) : option string :=
  match truthy (step_next step) with
  | Some n => Some n
  | None => (steps !! succ_idx) ≫= (fun s => truthy (step_id s))
  end.

(** The state after the step has read the message. *)
Definition collect (step : WfStep) (succ_idx : nat) (message : string)
    (state : gmap string string) : gmap string string :=
  match step_type step with
  | COLLECT_FIELD =>
      let key :=
        match truthy (collect_field_key step), truthy (step_id step) with
        | Some k, _ => k
        | None, Some k => k
        | None, None => "field_" ++ pretty succ_idx
        end in
      <[key := message]> state
  | SHOW_OPTIONS =>
      let opts := default [] (options step) in
      match parseOption message opts with
      | Some choice =>
          let key :=
            match truthy (options_field_key step), truthy (step_id step) with
            | Some k, _ => k
            | None, Some k => k
            | None, None => "choice_" ++ pretty succ_idx
            end in
          <[key := choice_value opts choice]> state
      | None => state
      end
  | _ => state
  end.

(** [steps.find(s => (s.id || 'step1') === nextId) || steps[idx + 1]] *)
Definition next_step (steps : list WfStep) (succ_idx : nat) (nextId : string)
  : option WfStep :=
  match List.find (fun s => String.eqb (step_key s) nextId) steps with
  | Some n => Some n
  | None => steps !! succ_idx
  end.

(** The end of [continueConversation], from [// Decide next step]: the
    move to the next step, or the completion of the workflow with its
    actions. *)
Definition advance (adapter : Adapter) (message : string) (convo : WorkflowConversation)
    (workflow : Workflow) (step : WfStep) (succ_idx : nat) (state : gmap string string)
    (now : Z) : M bool :=
  let botId := getBotId adapter in
  let steps := wf_steps workflow in
  match next_id step steps succ_idx with
  | None =>
      update_convos (has_id (wc_id convo)) (wc_complete (Some state)) ;;;
      (if wf_save_to_database workflow
       then modify (set_inquiries (fun l =>
              l ++ [mkInquiry botId (wf_id workflow) state (channel adapter)
                      (match channel adapter with
                       | WHATSAPP => Some (getUserKey adapter)
                       | WEB => None
                       end)])%list)
       else ret tt) ;;;
      sendText adapter MsgThankYou None ;;;
      ret true
  | Some nextId =>
      update_convos (has_id (wc_id convo)) (wc_move nextId (Some state)) ;;;
      match next_step steps succ_idx nextId with
      | None => ret true
      | Some next =>
          match step_type next with
          | START_BOOKING =>
              update_convos (has_id (wc_id convo)) (wc_complete (Some state)) ;;;
              BookingService.handleBookingMessage adapter message now ;;;
              ret true
          | _ =>
              send_prompt adapter next "Please continue..." ;;;
              ret true
          end
      end
  end.

(** The step of the conversation: the one whose id is the current step
    id, else the first; with the index of its positional successor. *)
Definition current_step (steps : list WfStep) (current_step_id : string)
  : option (WfStep * nat) :=
  match findIndex (fun s => String.eqb (step_key s) current_step_id) steps with
  | Some i => (fun s => (s, S i)) <$> steps !! i
  | None => (fun s => (s, 0%nat)) <$> head steps
  end.

Definition continueConversation (adapter : Adapter) (message : string)
    (convo : WorkflowConversation) (now : Z) : M bool :=
  let botId := getBotId adapter in
  try_catch
    (w <-- get ;;
     match single (List.filter (fun wf => String.eqb (wf_id wf) (wc_workflow_id convo))
                     (workflows w)) with
     | None => ret false
     | Some workflow =>
         match current_step (wf_steps workflow) (wc_current_step_id convo) with
         | None => ret false
         | Some (step, succ_idx) =>
             match step_type step with
             | START_BOOKING =>
                 update_convos (has_id (wc_id convo)) (wc_complete None) ;;;
                 BookingService.handleBookingMessage adapter message now ;;;
                 ret true
             | _ =>
                 let state := collect step succ_idx message (wc_state convo) in
                 (match step_type step with
                  | AI_RESPONSE =>
                      sendText adapter (Text (generateResponse message botId)) None
                  | SHARE_MEDIA =>
                      share_media adapter (or_else (prompt_message step) "Here are our items:")
                  | _ => ret tt
                  end) ;;;
                 advance adapter message convo workflow step succ_idx state now
             end
         end
     end)
    (fun _ => ret false).

Definition workflowEnabled (botId : string) (w : World) : bool :=
  match settings_of botId w with
  | Some s => BookingService.not_false (workflow_enabled s)
  | None => true
  end.

(** The trigger test of one workflow against the lower-cased message. *)
Definition trigger_matches (lower : string) (wf : Workflow) : bool :=
  match wf_keywords wf with
  | Some keywords => existsb (fun k => includes lower (toLowerCase k)) keywords
  | None => false
  end.

(** The published active workflows of a bot. *)
Definition published_workflows (botId : string) (w : World) : list Workflow :=
  List.filter (fun wf => String.eqb (wf_bot_id wf) botId && wf_is_active wf && wf_published wf)
    (workflows w).

Definition matched_workflow (botId message : string) (w : World) : option Workflow :=
  List.find (trigger_matches (toLowerCase message)) (published_workflows botId w).

(** The start of a conversation on the first step of a matched
    workflow. *)
Definition start_conversation (adapter : Adapter) (message : string) (matched : Workflow)
    (firstStep : WfStep) (now : Z) : M bool :=
  let botId := getBotId adapter in
  let userKey := getUserKey adapter in
  modify (set_workflow_conversations (fun l =>
    l ++ [mkWC (length l) botId userKey (wf_id matched) (step_key firstStep) ∅ false
            (channel adapter)])%list) ;;;
  match step_type firstStep with
  | START_BOOKING =>
      update_convos
        (fun c => String.eqb (wc_bot_id c) botId && String.eqb (wc_user_key c) userKey
                  && String.eqb (wc_workflow_id c) (wf_id matched))
        (wc_complete None) ;;;
      BookingService.handleBookingMessage adapter message now ;;;
      ret true
  | SHARE_MEDIA =>
      share_media adapter (or_else (prompt_message firstStep) "How can I help you?") ;;;
      match truthy (step_next firstStep) with
      | Some nextId =>
          update_convos (is_active_convo botId userKey) (wc_move nextId None) ;;;
          match List.find (fun s => String.eqb (step_key s) nextId) (wf_steps matched) with
          | Some next => send_prompt adapter next "Please continue..." ;;; ret true
          | None => ret true
          end
      | None => ret true
      end
  | _ =>
      send_prompt adapter firstStep "How can I help you?" ;;;
      ret true
  end.

(** [tryHandle]: whether the workflow engine handled the message. *)
Definition tryHandle (adapter : Adapter) (message : string) (now : Z) : M bool :=
  let botId := getBotId adapter in
  let userKey := getUserKey adapter in
  record_call (CallWorkflowTryHandle botId userKey) ;;;
  try_catch
    (w <-- get ;;
     if negb (workflowEnabled botId w) then ret false
     else
       match maybeSingle (List.filter (is_active_convo botId userKey)
                            (workflow_conversations w)) with
       | Some convo => continueConversation adapter message convo now
       | None =>
           record_call (CallWorkflowMatcher botId userKey) ;;;
           match matched_workflow botId message w with
           | None => ret false
           | Some matched =>
               match head (wf_steps matched) with
               | None => ret false
               | Some firstStep => start_conversation adapter message matched firstStep now
               end
           end
       end)
    (fun _ => ret false).

End WithBuiltins.
End WorkflowEngine.

(** ** The dispatch routers: bot-manager.ts and web-conversation-engine.ts *)

Module Dispatch.
Import JS Data World Adapter.
Local Open Scope m_scope.

Section WithBuiltins.
Context `{Calendar} `{JsNumber} `{Assistant}.

Definition aiEnabled (botId : string) (w : World) : bool :=
  match settings_of botId w with
  | Some s => BookingService.not_false (ai_enabled s)
  | None => true
  end.

(** The constraint [CHECK (status IN ('sent', 'delivered', 'read',
    'failed'))] of table [messages]. *)
Definition valid_message_status (status : string) : bool :=
  existsb (String.eqb status) ["sent"; "delivered"; "read"; "failed"].

(** The insert of an inbound message by a router. A status that the
    constraint of the table turns down gives an error in the response,
    which neither router reads: no row is written. *)
Definition save_inbound (botId businessId content : string) (chan : option Channel)
    (session : option string) (status : string) : M unit :=
  if valid_message_status status
  then
    modify (set_messages (fun l =>
      l ++ [mkMessage botId businessId MT_TEXT (Text content) false chan session None])%list)
  else ret tt.

(** [BotManager.handleIncomingMessage], from the point where the text of
    the message is known. *)
Definition handleIncomingMessage (botId businessId fromNumber messageContent : string)
    (now : Z) : M unit :=
  let adapter := mkAdapter WHATSAPP botId businessId fromNumber in
  try_catch
    (if negb (nonEmpty messageContent) then ret tt
     else
       bookingEnabled <-- BookingService.isBookingEnabled botId ;;
       hasActiveBooking <--
         (if bookingEnabled : bool
          then BookingStateManager.hasActiveConversation botId fromNumber
          else ret false) ;;
       if hasActiveBooking : bool
       then BookingService.handleBookingMessage adapter messageContent now
       else
         keywords <-- BookingService.getBookingKeywords botId ;;
         if bookingEnabled && BookingService.isBookingTrigger messageContent keywords
         then BookingService.handleBookingMessage adapter messageContent now
         else
           handled <-- try_catch (WorkflowEngine.tryHandle adapter messageContent now)
                         (fun _ => ret false) ;;
           if handled : bool then ret tt
           else
             save_inbound botId businessId messageContent None None "delivered" ;;;
             w <-- get ;;
             if aiEnabled botId w && bookingEnabled && bookingIntent messageContent botId
             then BookingService.handleBookingMessage adapter messageContent now
             else record_call (CallFreeFormReply botId fromNumber))
    (fun _ => ret tt).

(** [handleWebMessage]. *)
Definition handleWebMessage (sessionId botId businessId messageContent : string)
    (now : Z) : M unit :=
  let adapter := mkAdapter WEB botId businessId sessionId in
  try_catch
    (if negb (nonEmpty (trim messageContent)) then ret tt
     else
       save_inbound botId businessId messageContent (Some WEB) (Some sessionId)
         "received" ;;;
       handled <-- try_catch (WorkflowEngine.tryHandle adapter messageContent now)
                     (fun _ => ret false) ;;
       if handled : bool then ret tt
       else
         bookingEnabled <-- BookingService.isBookingEnabled botId ;;
         hasActiveBooking <--
           (if bookingEnabled : bool
            then BookingStateManager.hasActiveConversation botId sessionId
            else ret false) ;;
         if hasActiveBooking : bool
         then
           sendTyping adapter true ;;;
           BookingService.handleBookingMessage adapter messageContent now ;;;
           sendTyping adapter false
         else
           keywords <-- BookingService.getBookingKeywords botId ;;
           if bookingEnabled && BookingService.isBookingTrigger messageContent keywords
           then
             sendTyping adapter true ;;;
             BookingService.handleBookingMessage adapter messageContent now ;;;
             sendTyping adapter false
           else record_call (CallFreeFormReply botId sessionId))
    (fun _ =>
       try_catch
         (sendEventToSession (DError sessionId "internal_error"
            "An unexpected error occurred. Please try again."))
         (fun _ => ret tt)).

End WithBuiltins.
End Dispatch.

(** ** booking-state-manager.ts: reading a conversation without creating one *)

Module StateQueries.
Import BookingValidator Data World BookingStateManager.
Local Open Scope m_scope.

(** [getState]: [null] without exactly one active row, and also when the
    stored state does not parse, the error being caught and logged. *)
Definition getState (botId customerPhone : string) : M (option ConversationState) :=
  try_catch
    (w <-- get ;;
     match single (active_rows botId customerPhone w) with
     | None => ret None
     | Some data =>
         if parses (bc_conversation_state data)
         then ret (Some (mkState (bc_current_step data) (bc_conversation_state data)))
         else throw ZodError
     end)
    (fun _ => ret None).

End StateQueries.

(** ** ws-server.ts: the authentication of a web socket *)

Module WsServer.
Import World Adapter.

(** The claims of a token of the web chat; a claim may be absent from a
    payload that verifies. *)
Record WebChatJWTPayload := mkPayload {
  pl_botId : option string;
  pl_sessionId : option string;
  pl_origin : option string;
  pl_tokenVersion : option Z;
}.

(** What [verifyWebChatToken] does with a token: it returns what
    [jwt.verify] decoded, possibly a falsy value, or it throws (an
    invalid signature, an expired token). *)
Inductive Verification :=
| Returns (decoded : option WebChatJWTPayload)
| Throws.

Inductive SessionStatus := ACTIVE | ENDED.

(** Table [web_sessions]. *)
Record WebSession := mkSession {
  se_id : string;
  se_bot_id : string;
  se_origin : string;
  se_status : SessionStatus;
  se_expires_at : option Z;
}.

(** Table [bot_widget_settings]. *)
Record WidgetSettings := mkWidget {
  wg_bot_id : string;
  wg_token_version : Z;
}.

(** Table [bots]. *)
Record Bot := mkBot {
  bot_id : string;
  bot_business_id : string;
}.

Record Store := mkStore {
  bot_widget_settings : list WidgetSettings;
  web_sessions : list WebSession;
  bots : list Bot;
}.

(** The query parameters of the upgrade request and its [Origin]
    header. *)
Record Request := mkRequest {
  rq_botId : option string;
  rq_sessionId : option string;
  rq_token : option string;
  rq_origin : option string;
}.

Record ConnectionMeta := mkMeta {
  botId : string;
  sessionId : string;
  businessId : string;
  origin : string;
  connectedAt : Z;
  lastPingAt : Z;
}.

Inductive AuthResult :=
| AuthSuccess (meta : ConnectionMeta)
| AuthFailure (error : string).

(** [settings?.token_version || 1] *)
Definition currentVersion (st : Store) (bot : string) : Z :=
  match single (List.filter (fun s => String.eqb (wg_bot_id s) bot)
                  (bot_widget_settings st)) with
  | Some s => if wg_token_version s =? 0 then 1 else wg_token_version s
  | None => 1
  end.

(** [validateTokenVersion]: [tokenVersion === currentVersion]. *)
Definition validateTokenVersion (tokenVersion : option Z) (current : Z) : bool :=
  match tokenVersion with
  | Some v => v =? current
  | None => false
  end.

(** [claim !== param] for a claim that may be absent. *)
Definition differs (claim : option string) (param : string) : bool :=
  match claim with
  | Some c => negb (String.eqb c param)
  | None => true
  end.

(** [authenticateConnection] at time [now]. *)
Definition authenticateConnection (verifyWebChatToken : string -> Verification)
    (st : Store) (request : Request) (now : Z) : AuthResult :=
  match truthy (rq_botId request), truthy (rq_sessionId request) with
  | Some bot, Some session_id =>
      match truthy (rq_token request) with
      | None => AuthFailure "missing_token"
      | Some token =>
          match verifyWebChatToken token with
          | Throws => AuthFailure "internal_error"
          | Returns None => AuthFailure "invalid_token"
          | Returns (Some decoded) =>
              if differs (pl_botId decoded) bot || differs (pl_sessionId decoded) session_id
              then AuthFailure "token_mismatch"
              else if negb (validateTokenVersion (pl_tokenVersion decoded)
                              (currentVersion st bot))
              then AuthFailure "token_version_mismatch"
              else
                match single (List.filter
                                (fun s => String.eqb (se_id s) session_id
                                          && String.eqb (se_bot_id s) bot)
                                (web_sessions st)) with
                | None => AuthFailure "session_not_found"
                | Some session =>
                    match se_status session with
                    | ENDED => AuthFailure "session_inactive"
                    | ACTIVE =>
                        if default 0 (se_expires_at session) <? now
                        then AuthFailure "session_expired"
                        else
                          let origin := or_else (rq_origin request) EmptyString in
                          if negb (String.eqb (se_origin session) origin)
                          then AuthFailure "origin_mismatch"
                          else
                            match single (List.filter
                                            (fun b => String.eqb (bot_id b) bot)
                                            (bots st)) with
                            | None => AuthFailure "bot_not_found"
                            | Some b =>
                                AuthSuccess
                                  (mkMeta bot session_id (bot_business_id b) origin now now)
                            end
                    end
                end
          end
      end
  | _, _ => AuthFailure "missing_params"
  end.

End WsServer.

(** * Properties *)

Local Open Scope list_scope.

(** ** Channel adapters *)

Section AdapterProperties.
Import Data World Adapter.

Lemma sendText_unfold (ad : Adapter) (text : Msg) (metadata : option string) (w : World) :
  sendText ad text metadata w =
  if transport_returns ad w
  then (Ok tt,
        set_messages (fun l => l ++ [outbound_record ad MT_TEXT text metadata])%list
          (match channel ad, ws_state w with
           | WEB, WS_ABSENT => w
           | _, _ => set_outbox (fun l => l ++ [DText (getUserKey ad) text])%list w
           end))
  else (Throw TransportError, w).
Proof.
  unfold sendText, transport_returns, wa_sendText, web_sendText, try_catch, bind,
    sock_sendMessage, sendEventToSession, saveMessage, modify, outbound_record, throw.
  destruct (channel ad); [destruct (wa_up w) | destruct (ws_state w)]; reflexivity.
Qed.

(** C7, as the adapters have it: a record is written after the transport
    call has returned; when that call throws nothing is recorded and the
    error is passed on; [sendRich] records nothing; the phone adapter has
    no [sendDocument]. *)
Theorem send_records_after_transport (ad : Adapter) (w : World) (text : Msg)
    (metadata : option string) (o : SendDocumentOptions) (components : string) :
  messages (exec (sendText ad text metadata) w)
  = (if transport_returns ad w
     then messages w ++ [outbound_record ad MT_TEXT text metadata]
     else messages w)
  /\ result (sendText ad text metadata) w
     = (if transport_returns ad w then Ok tt else Throw TransportError)
  /\ match sendDocument ad with
     | Some send =>
         messages (exec (send o) w)
         = (if transport_returns ad w
            then messages w ++ [outbound_record ad MT_DOCUMENT (web_document_content o)
                                  (Some (doc_url o))]
            else messages w)
     | None => channel ad = WHATSAPP
     end
  /\ match sendRich ad with
     | Some send => messages (exec (send components) w) = messages w
     | None => False
     end.
Proof.
  repeat split.
  - unfold exec. rewrite sendText_unfold.
    destruct (transport_returns ad w); [|reflexivity].
    destruct (channel ad), (ws_state w); reflexivity.
  - unfold result. rewrite sendText_unfold.
    destruct (transport_returns ad w); reflexivity.
  - unfold sendDocument, transport_returns, exec, web_sendDocument, try_catch, bind,
      sendEventToSession, saveMessage, modify, outbound_record, throw.
    destruct (channel ad) eqn:Hc; [reflexivity|].
    destruct (ws_state w); reflexivity.
  - unfold sendRich, exec, wa_sendRich, web_sendRich, try_catch, bind,
      sock_sendMessage, sendEventToSession, throw.
    destruct (channel ad); [destruct (wa_up w) | destruct (ws_state w)]; reflexivity.
Qed.

Definition phone_adapter : Adapter := mkAdapter WHATSAPP "bot-1" "biz-1" "15550001".
Definition web_adapter : Adapter := mkAdapter WEB "bot-1" "biz-1" "session-1".

Definition socket_down : World :=
  mkWorld [] [] [] [] [] [] [] [] [] [] false WS_OPEN [] [].

(** C7 fails as stated: with the socket down, [sendText] of the phone
    adapter throws and leaves no record; with the socket up, [sendRich]
    delivers and leaves no record either. *)
Lemma send_without_record :
  result (sendText phone_adapter (Text "hello") None) socket_down = Throw TransportError
  /\ messages (exec (sendText phone_adapter (Text "hello") None) socket_down) = []
  /\ outbox (exec (wa_sendRich phone_adapter "image") empty_world)
     = [DRich "15550001" "image"]
  /\ messages (exec (wa_sendRich phone_adapter "image") empty_world) = [].
Proof. repeat split. Qed.

End AdapterProperties.

(** ** The outcome of one send *)

Section Sends.
Import Data World Adapter.

(** The world after a text has gone out through the adapter: delivered,
    unless the session has no connection, and logged. *)
Definition sent (ad : Adapter) (text : Msg) (w : World) : World :=
  set_messages (fun l => l ++ [outbound_record ad MT_TEXT text None])
    (match channel ad, ws_state w with
     | WEB, WS_ABSENT => w
     | _, _ => set_outbox (fun l => l ++ [DText (getUserKey ad) text]) w
     end).

Lemma sendMessage_sent (ad : Adapter) (text : Msg) (w : World) :
  transport_returns ad w = true ->
  BookingService.sendMessage ad text w = (Ok tt, sent ad text w).
Proof.
  intros Hup. unfold BookingService.sendMessage. rewrite sendText_unfold, Hup. reflexivity.
Qed.

Lemma sendMessage_thrown (ad : Adapter) (text : Msg) (w : World) :
  transport_returns ad w = false ->
  BookingService.sendMessage ad text w = (Throw TransportError, w).
Proof.
  intros Hup. unfold BookingService.sendMessage. rewrite sendText_unfold, Hup. reflexivity.
Qed.


Lemma sent_messages (ad : Adapter) (text : Msg) (w : World) :
  messages (sent ad text w) = messages w ++ [outbound_record ad MT_TEXT text None].
Proof. unfold sent. destruct (channel ad), (ws_state w); reflexivity. Qed.


(** A send reads and writes the transports and the log only. *)
Lemma sent_store {B} (f : World -> B) (ad : Adapter) (text : Msg) (w : World) :
  (forall g v, f (set_messages g v) = f v) ->
  (forall g v, f (set_outbox g v) = f v) ->
  f (sent ad text w) = f w.
Proof.
  intros Hm Ho. unfold sent. rewrite Hm.
  destruct (channel ad), (ws_state w); rewrite ?Ho; reflexivity.
Qed.

Lemma try_catch_bind {A B} (m : M A) (k : A -> M B) (h : Exn -> M B) (w : World) :
  try_catch (bind m k) h w
  = match m w with
    | (Ok a, w') => try_catch (k a) h w'
    | (Throw e, w') => h e w'
    end.
Proof. unfold try_catch, bind. destruct (m w) as [[a|e] w']; reflexivity. Qed.

(** What reaches the user of a run of texts: all of them, or none when
    the session has no connection. *)
Definition delivered (ad : Adapter) (w : World) (texts : list Msg) : list Delivery :=
  match channel ad, ws_state w with
  | WEB, WS_ABSENT => []
  | _, _ => List.map (DText (getUserKey ad)) texts
  end.

(** The records of a run of outbound texts. *)
Definition logged (ad : Adapter) (texts : list Msg) : list MessageRecord :=
  List.map (fun m => outbound_record ad MT_TEXT m None) texts.

Lemma delivered_app (ad : Adapter) (w : World) (l1 l2 : list Msg) :
  delivered ad w (l1 ++ l2) = delivered ad w l1 ++ delivered ad w l2.
Proof.
  unfold delivered. destruct (channel ad), (ws_state w); try reflexivity; apply List.map_app.
Qed.

(** Between two worlds the texts have gone out, in this order, and
    nothing else has changed but the tables of conversations. *)
Definition said (ad : Adapter) (texts : list Msg) (w w' : World) : Prop :=
  messages w' = messages w ++ logged ad texts
  /\ outbox w' = outbox w ++ delivered ad w texts
  /\ ws_state w' = ws_state w
  /\ wa_up w' = wa_up w
  /\ bookings w' = bookings w
  /\ business_time_slots w' = business_time_slots w.

Lemma delivered_nil (ad : Adapter) (w : World) : delivered ad w [] = [].
Proof. unfold delivered. destruct (channel ad), (ws_state w); reflexivity. Qed.

Lemma said_nothing (ad : Adapter) (w w' : World) :
  messages w' = messages w -> outbox w' = outbox w -> ws_state w' = ws_state w ->
  wa_up w' = wa_up w -> bookings w' = bookings w ->
  business_time_slots w' = business_time_slots w ->
  said ad [] w w'.
Proof.
  intros Hm Ho Hs Hu Hb Ht. unfold said. rewrite delivered_nil, Hm, Ho, !app_nil_r.
  repeat split; assumption.
Qed.


Lemma said_sent (ad : Adapter) (text : Msg) (w : World) :
  said ad [text] w (sent ad text w).
Proof.
  unfold said, sent, delivered, logged.
  destruct (channel ad), (ws_state w) eqn:E; cbn; rewrite ?app_nil_r; repeat split;
    assumption.
Qed.

Lemma said_trans (ad : Adapter) (l1 l2 : list Msg) (w1 w2 w3 : World) :
  said ad l1 w1 w2 -> said ad l2 w2 w3 -> said ad (l1 ++ l2) w1 w3.
Proof.
  unfold said. intros (Hm & Ho & Hs & Hu & Hb & Ht) (Hm' & Ho' & Hs' & Hu' & Hb' & Ht').
  rewrite Hm', Hm, Ho', Ho, Hs', Hs, Hu', Hu, Hb', Hb, Ht', Ht.
  unfold logged. rewrite List.map_app, delivered_app, <- !app_assoc.
  assert (Hd : delivered ad w2 l2 = delivered ad w1 l2)
    by (unfold delivered; rewrite Hs; reflexivity).
  rewrite Hd. repeat split.
Qed.

Lemma said_transport (ad : Adapter) (texts : list Msg) (w w' : World) :
  said ad texts w w' -> transport_returns ad w' = transport_returns ad w.
Proof.
  unfold said, transport_returns. intros (_ & _ & Hs & Hu & _). rewrite Hs, Hu. reflexivity.
Qed.

End Sends.

(** ** How the services change the table of booking conversations *)

Section TableSteps.
Import BookingValidator Data World Adapter BookingStateManager.
Context `{Calendar}.

(** A relation between the rows of the table before and after a
    computation, position by position. *)
Definition table_step (R : BookingConversation -> BookingConversation -> Prop)
    (w w' : World) : Prop :=
  Forall2 R (booking_conversations w) (booking_conversations w').

(** A computation all of whose runs relate the table by [R]. *)
Definition respects {A} (R : BookingConversation -> BookingConversation -> Prop)
    (m : M A) : Prop :=
  forall w, table_step R w (snd (m w)).

Variable R : BookingConversation -> BookingConversation -> Prop.
Hypothesis R_refl : forall r, R r r.
Hypothesis R_trans : forall a b c, R a b -> R b c -> R a c.

Lemma table_step_refl (w : World) : table_step R w w.
Proof. unfold table_step. induction (booking_conversations w); constructor; auto. Qed.

Lemma table_step_same (w w' : World) :
  booking_conversations w' = booking_conversations w -> table_step R w w'.
Proof. unfold table_step. intros ->. apply table_step_refl. Qed.

Lemma table_step_trans (w1 w2 w3 : World) :
  table_step R w1 w2 -> table_step R w2 w3 -> table_step R w1 w3.
Proof.
  unfold table_step. generalize (booking_conversations w1), (booking_conversations w2),
    (booking_conversations w3).
  intros l1 l2 l3 H12. revert l3.
  induction H12; intros l3 H23; inversion H23; subst; constructor; eauto.
Qed.

Lemma respects_ret {A} (a : A) : respects R (ret a).
Proof. intros w. apply table_step_refl. Qed.

Lemma respects_throw {A} (e : Exn) : respects R (@throw A e).
Proof. intros w. apply table_step_refl. Qed.

Lemma respects_get : respects R get.
Proof. intros w. apply table_step_refl. Qed.

Lemma respects_bind {A B} (m : M A) (k : A -> M B) :
  respects R m -> (forall a, respects R (k a)) -> respects R (bind m k).
Proof.
  intros Hm Hk w. unfold bind. specialize (Hm w).
  destruct (m w) as [[a|e] w']; simpl in *; [|exact Hm].
  eapply table_step_trans; [exact Hm | apply Hk].
Qed.

Lemma respects_try_catch {A} (m : M A) (h : Exn -> M A) :
  respects R m -> (forall e, respects R (h e)) -> respects R (try_catch m h).
Proof.
  intros Hm Hh w. unfold try_catch. specialize (Hm w).
  destruct (m w) as [[a|e] w']; simpl in *; [exact Hm|].
  eapply table_step_trans; [exact Hm | apply Hh].
Qed.

Lemma respects_record_call (c : Call) : respects R (record_call c).
Proof. intros w. apply table_step_same. reflexivity. Qed.

Lemma respects_sendText (ad : Adapter) (m : Msg) (md : option string) :
  respects R (sendText ad m md).
Proof.
  intros w. apply table_step_same. rewrite sendText_unfold.
  destruct (transport_returns ad w); [|reflexivity].
  destruct (channel ad), (ws_state w); reflexivity.
Qed.

Lemma respects_sendMessage (ad : Adapter) (m : Msg) :
  respects R (BookingService.sendMessage ad m).
Proof. apply respects_sendText. Qed.

Lemma update_where_step (p : BookingConversation -> bool)
    (f : BookingConversation -> BookingConversation) (tbl : list BookingConversation) :
  (forall r, p r = true -> R r (f r)) ->
  Forall2 R tbl (update_where p f tbl).
Proof.
  intros Hf. induction tbl as [|r tbl IH]; simpl; constructor; auto.
  destruct (p r) eqn:Hp; auto.
Qed.

Lemma respects_update_rows (p : BookingConversation -> bool)
    (f : BookingConversation -> BookingConversation) :
  (forall r, p r = true -> R r (f r)) -> respects R (update_rows p f).
Proof. intros Hf w. apply update_where_step, Hf. Qed.

Lemma respects_update_completed (p : BookingConversation -> bool)
    (f : BookingConversation -> BookingConversation) :
  (forall r, p r = true -> R r (f r)) -> respects R (update_completed p f).
Proof.
  intros Hf w. unfold update_completed.
  destruct (unique_conversations _); simpl.
  - apply update_where_step, Hf.
  - apply table_step_refl.
Qed.

End TableSteps.

(** Decomposition of a computation of the booking service into its store
    updates; what is left are the facts about single rows. *)
Ltac respects_step :=
  match goal with
  | |- respects _ (World.bind _ _) =>
      apply respects_bind; try assumption; [| intros ?]
  | |- respects _ (World.try_catch _ _) =>
      apply respects_try_catch; try assumption; [| intros ?]
  | |- respects _ (World.ret _) => apply respects_ret; assumption
  | |- respects _ (World.throw _) => apply respects_throw; assumption
  | |- respects _ World.get => apply respects_get; assumption
  | |- respects _ (World.record_call _) => apply respects_record_call; assumption
  | |- respects _ (BookingService.sendMessage _ _) =>
      apply respects_sendMessage; assumption
  | |- respects _ (Adapter.sendText _ _ _) => apply respects_sendText; assumption
  | |- respects _ (BookingStateManager.update_rows _ _) =>
      apply respects_update_rows; try assumption; intros ? ?
  | |- respects _ (BookingStateManager.update_completed _ _) =>
      apply respects_update_completed; try assumption; intros ? ?
  | |- respects _ (BookingStateManager.updateState _ _ _) =>
      unfold BookingStateManager.updateState
  | |- respects _ (BookingStateManager.cancelConversation _ _) =>
      unfold BookingStateManager.cancelConversation
  | |- respects _ (BookingStateManager.completeConversation _ _) =>
      unfold BookingStateManager.completeConversation
  | |- respects _ (BookingStateManager.extendExpiry _ _ _ _) =>
      unfold BookingStateManager.extendExpiry
  | |- respects _ (match ?x with _ => _ end) => destruct x eqn:?
  | |- respects _ (let _ := _ in _) => cbv zeta
  end.

Ltac respects_all := repeat respects_step.

(** ** Booking-for validation *)

Section BookingForProperties.
Import JS BookingValidator Data World Adapter BookingStateManager BookingService.
Context `{Calendar}.

Lemma bookingFor_refine_is_name_regex (val : string) :
  bookingFor_refine val = name_regex val.
Proof.
  unfold bookingFor_refine.
  destruct (String.eqb_spec val "self") as [->|_]; [reflexivity|].
  destruct (String.eqb_spec val "myself") as [->|_]; [reflexivity|].
  destruct (String.eqb_spec val "me") as [->|_]; [reflexivity|].
  reflexivity.
Qed.

(** The row carries the data [d], or the data it had. *)
Definition data_kept_or (d : CollectedData) (r r' : BookingConversation) : Prop :=
  bc_conversation_state r' = bc_conversation_state r \/ bc_conversation_state r' = d.

Lemma data_kept_or_refl d r : data_kept_or d r r.
Proof. left; reflexivity. Qed.

Lemma data_kept_or_trans d a b c :
  data_kept_or d a b -> data_kept_or d b c -> data_kept_or d a c.
Proof. unfold data_kept_or. intros [H1|H1] [H2|H2]; rewrite H2; auto. Qed.

Lemma showServices_data (ad : Adapter) (st : ConversationState) :
  respects (data_kept_or (collectedData st)) (showServices ad st).
Proof.
  pose proof (data_kept_or_refl (collectedData st)) as Hr.
  pose proof (data_kept_or_trans (collectedData st)) as Ht.
  unfold showServices, handleCancel.
  respects_all; try (left; reflexivity); try (right; reflexivity).
Qed.


(** C9, as the validator has it: an input is accepted exactly when its
    raw length is between 2 and 100 and its trimmed lower-case form is a
    non-empty run of name characters (which [self], [myself] and [me]
    are); the handler stores that trimmed lower-case form itself in every
    active row of the user, and leaves the table alone on a rejected
    input. *)
Theorem bookingFor_accepts_and_stores (ad : Adapter) (input : string)
    (st : ConversationState) (w : World) :
  match validateBookingFor input with
  | Valid value =>
      (2 <=? strlen input) && (strlen input <=? 100)
        && name_regex (toLowerCase (trim input)) = true
      /\ value = toLowerCase (trim input)
      /\ Forall2
           (fun r r' => is_active_for (getBotId ad) (getUserKey ad) r = true ->
                        bookingFor (bc_conversation_state r') = Some value)
           (booking_conversations w)
           (booking_conversations (exec (handleBookingForInput ad input st) w))
  | Invalid _ =>
      (2 <=? strlen input) && (strlen input <=? 100)
        && name_regex (toLowerCase (trim input)) = false
      /\ booking_conversations (exec (handleBookingForInput ad input st) w)
         = booking_conversations w
  end.
Proof.
  unfold handleBookingForInput.
  unfold validateBookingFor. rewrite bookingFor_refine_is_name_regex.
  destruct (strlen input <? 2) eqn:Hmin.
  { split.
    - apply Z.ltb_lt in Hmin.
      destruct (2 <=? strlen input) eqn:E; [apply Z.leb_le in E; lia | reflexivity].
    - unfold exec. unfold sendMessage. rewrite sendText_unfold.
      destruct (transport_returns ad w); [|reflexivity].
      destruct (channel ad), (ws_state w); reflexivity. }
  destruct (100 <? strlen input) eqn:Hmax.
  { split.
    - apply Z.ltb_lt in Hmax.
      destruct (strlen input <=? 100) eqn:E; [apply Z.leb_le in E; lia |].
      rewrite andb_false_r. reflexivity.
    - unfold exec. unfold sendMessage. rewrite sendText_unfold.
      destruct (transport_returns ad w); [|reflexivity].
      destruct (channel ad), (ws_state w); reflexivity. }
  apply Z.ltb_ge in Hmin. apply Z.ltb_ge in Hmax.
  assert (Hlen : (2 <=? strlen input) && (strlen input <=? 100) = true).
  { apply andb_true_iff; split; apply Z.leb_le; lia. }
  rewrite Hlen. simpl andb.
  destruct (name_regex (toLowerCase (trim input))) eqn:Hre.
  2: { split; [reflexivity|].
       unfold exec. unfold sendMessage. rewrite sendText_unfold.
       destruct (transport_returns ad w); [|reflexivity].
       destruct (channel ad), (ws_state w); reflexivity. }
  split; [reflexivity|]. split; [reflexivity|].
  set (value := toLowerCase (trim input)).
  set (d := set_bookingFor value (collectedData st)).
  pose proof (data_kept_or_refl d) as Hr.
  pose proof (data_kept_or_trans d) as Ht.
  (* the first update writes [d] into the active rows; what follows keeps
     it or writes it again *)
  assert (Htail : forall s, respects (data_kept_or d) (showServices ad (mkState s d))).
  { intros s. apply (showServices_data ad (mkState s d)). }
  assert (Hfirst : forall s (k : M unit),
             respects (data_kept_or d) k ->
             Forall2
               (fun r r' => is_active_for (getBotId ad) (getUserKey ad) r = true ->
                            bookingFor (bc_conversation_state r') = Some value)
               (booking_conversations w)
               (booking_conversations
                  (exec (bind (updateState (getBotId ad) (getUserKey ad) (mkState s d))
                           (fun _ => k)) w))).
  { intros s k Hk. unfold exec, bind, updateState, update_rows, modify. simpl.
    specialize (Hk (set_booking_conversations
                      (update_where (is_active_for (getBotId ad) (getUserKey ad))
                         (set_state d s)) w)).
    unfold table_step in Hk. simpl in Hk.
    revert Hk. generalize (booking_conversations (snd (k
      (set_booking_conversations
         (update_where (is_active_for (getBotId ad) (getUserKey ad)) (set_state d s)) w)))).
    induction (booking_conversations w) as [|r tbl IH]; intros l Hk;
      inversion Hk; subst; constructor; auto.
    intros Hact. rewrite Hact in *.
    match goal with Hd : data_kept_or d _ _ |- _ => destruct Hd as [Hd|Hd]; rewrite Hd end;
      reflexivity. }
  unfold exec in *. unfold bind at 1, get at 1.
  destruct (requireGender (getBotId ad) w).
  - apply (Hfirst COLLECTING_GENDER). apply respects_sendMessage; assumption.
  - apply (Hfirst SHOWING_SERVICES). apply Htail.
Qed.

(** A calendar of one week, for evaluating the services on examples. *)
Definition week : list string :=
  ["2025-10-12"; "2025-10-13"; "2025-10-14"; "2025-10-15"; "2025-10-16";
   "2025-10-17"; "2025-10-18"].

Definition week_index (s : string) : option nat :=
  WorkflowEngine.findIndex (String.eqb s) week.

Definition week_calendar : Calendar := {|
  isoDatePlus := fun now i => nth (Z.to_nat (now / 86400000 + i)) week "2025-10-19";
  dateValue := fun s => (fun i => 86400000 * Z.of_nat i) <$> week_index s;
  startOfDay := fun now => 86400000 * (now / 86400000);
  getDay := fun s => Z.of_nat <$> week_index s;
  sqlDate := fun s => bool_decide (is_Some (week_index s));
|}.

End BookingForProperties.

Section BookingForExamples.
Import JS BookingValidator Data World Adapter BookingStateManager BookingService.
#[local] Existing Instance week_calendar.

Definition asked_booking_for : World :=
  set_booking_conversations
    (fun _ => [mkBC 0 "bot-1" "biz-1" "15550001"
                 (mkCollected (Some "Jane Doe") "15550001" None None None None None None
                    None None)
                 COLLECTING_BOOKING_FOR false 1800000])
    empty_world.

Definition me_padded : string := "me" ++ string_of_list_ascii (repeat " "%char 99).

(** C9 fails as stated: [me] and [myself] are stored as typed, not as
    [self]; an input whose trimmed lower-case form is [me] is rejected
    when it is longer than 100 characters; and a single letter after a
    space is accepted as a name. *)
Lemma bookingFor_not_normalized :
  validateBookingFor "me" = Valid "me"
  /\ validateBookingFor "Myself" = Valid "myself"
  /\ List.map (fun r => bookingFor (bc_conversation_state r))
       (booking_conversations
          (exec (handleBookingMessage phone_adapter "me" 60000) asked_booking_for))
     = [Some "me"]
  /\ toLowerCase (trim me_padded) = "me"
  /\ validateBookingFor me_padded = Invalid "Name is too long (max 100 characters)"
  /\ validateBookingFor " a" = Valid "a".
Proof.
  split; [vm_compute; reflexivity|].
  split; [vm_compute; reflexivity|].
  split; [vm_compute; reflexivity|].
  split; [vm_compute; reflexivity|].
  split; vm_compute; reflexivity.
Qed.

End BookingForExamples.

(** ** Availability *)

Section AvailabilityProperties.
Import BookingValidator Data World Sql.
Context `{Calendar}.

Lemma left_join_elem (slots booked : list Z) (t : Z) (a : bool) :
  In (t, a) (left_join slots booked) <->
  In t slots /\ a = match List.filter (Z.eqb t) booked with [] => true | _ => false end.
Proof.
  unfold left_join. rewrite in_flat_map. split.
  - intros [t' [Hin Hrow]].
    destruct (List.filter (Z.eqb t') booked) as [|b bs] eqn:Hf.
    + destruct Hrow as [Heq|[]]. inversion Heq; subst. rewrite Hf. auto.
    + apply in_map_iff in Hrow. destruct Hrow as [x [Heq _]].
      inversion Heq; subst. rewrite Hf. auto.
  - intros [Hin ->]. exists t. split; [exact Hin|].
    destruct (List.filter (Z.eqb t) booked) as [|b bs]; [left; reflexivity|].
    apply in_map_iff. exists b. split; [reflexivity | left; reflexivity].
Qed.

Lemma booked_filter_length (w : World) (business date : string) (t : Z) :
  length (List.filter (Z.eqb t) (booked_slots w business date))
  = length (active_in_slot business date t (bookings w)).
Proof.
  unfold booked_slots, active_in_slot, same_slot.
  induction (bookings w) as [|b tbl IH]; [reflexivity|]. simpl.
  destruct (String.eqb (bk_business_id b) business); simpl; [|exact IH].
  destruct (String.eqb (bk_booking_date b) date); simpl; [|exact IH].
  destruct (active_status (bk_status b)); simpl.
  - rewrite andb_true_r. rewrite (Z.eqb_sym (bk_booking_time b) t).
    destruct (t =? bk_booking_time b); simpl; rewrite IH; reflexivity.
  - rewrite andb_false_r. exact IH.
Qed.

(** C4, as the stored procedure has it: a row of the result marks its
    slot available exactly when no pending or confirmed reservation
    exists for the business, the date and that time, which is what
    [is_time_slot_available] answers; the slot times of the result are
    those generated from the first active template of the day. *)
Theorem slot_available_iff_no_active_booking (w : World) (business date : string)
    (dow : Z) (rows : list (Z * bool)) :
  get_available_time_slots w business date (Some dow) = Some rows ->
  (forall t a, In (t, a) rows ->
     a = is_time_slot_available (bookings w) business date t
     /\ (a = true <-> active_in_slot business date t (bookings w) = []))
  /\ (forall t, (exists a, In (t, a) rows) <->
        exists tc slots, time_config w business dow = Some tc
                         /\ time_slots tc = Some slots /\ In t slots).
Proof.
  unfold get_available_time_slots.
  destruct (sqlDate date); simpl; [|discriminate].
  destruct (time_config w business dow) as [tc|] eqn:Htc.
  2: { intros [= <-]. split; [intros t a []|].
       intros t. split; [intros [a []] | intros [tc [slots [Hx _]]]; discriminate]. }
  destruct (time_slots tc) as [slots|] eqn:Hts; [|discriminate].
  intros [= <-].
  assert (Hmem : forall x, In x (merge_sort slot_le
                                   (left_join slots (booked_slots w business date)))
                           <-> In x (left_join slots (booked_slots w business date))).
  { intros x. rewrite <- !list_elem_of_In.
    rewrite (merge_sort_Permutation slot_le). reflexivity. }
  split.
  - intros t a Hin. apply Hmem in Hin. apply left_join_elem in Hin.
    destruct Hin as [_ ->].
    pose proof (booked_filter_length w business date t) as Hlen.
    unfold is_time_slot_available.
    destruct (List.filter (Z.eqb t) (booked_slots w business date)) as [|b bs];
      destruct (active_in_slot business date t (bookings w)) as [|c cs];
      simpl in Hlen; try discriminate; split; try reflexivity; split; congruence.
  - intros t. split.
    + intros [a Hin]. apply Hmem in Hin. apply left_join_elem in Hin.
      exists tc, slots. tauto.
    + intros [tc' [slots' [Htc' [Hts' Hin]]]].
      assert (tc' = tc) by congruence. subst tc'.
      assert (slots' = slots) by congruence. subst slots'.
      eexists. apply Hmem. apply left_join_elem. split; [exact Hin | reflexivity].
Qed.

End AvailabilityProperties.

Section AvailabilityExamples.
Import BookingValidator Data World Sql.
#[local] Existing Instance week_calendar.

(** Monday 10:00 to 11:00 in slots of 30 minutes. *)
Definition monday_morning : TimeSlotConfig :=
  mkTimeSlot "biz-1" 1 36000 39600 30 true.

Definition booking_at (id : nat) (time : Z) (status : BookingStatus) : Booking :=
  mkBooking id "biz-1" "bot-1" "Jane Doe" "15550001" "self" "female" None "Haircut"
    50000 "2025-10-13" time 30 status None.

Definition salon (tbl : list Booking) : World :=
  mkWorld [] [mkService "svc-1" "biz-1" "Haircut" (JNum 50000) (JNum 30) true 0]
    [monday_morning] tbl [] [] [] [] [] [] true WS_OPEN [] [].

(** The statement for the example, with its premise discharged. *)
Lemma slot_available_iff_no_active_booking_witness :
  get_available_time_slots (salon [booking_at 0 36000 PENDING]) "biz-1" "2025-10-13" (Some 1)
  = Some [(36000, false); (37800, true)]
  /\ forall t a, In (t, a) [(36000, false); (37800, true)] ->
       a = is_time_slot_available (bookings (salon [booking_at 0 36000 PENDING]))
             "biz-1" "2025-10-13" t
       /\ (a = true <->
           active_in_slot "biz-1" "2025-10-13" t
             (bookings (salon [booking_at 0 36000 PENDING])) = []).
Proof.
  split; [vm_compute; reflexivity|].
  apply (slot_available_iff_no_active_booking
           (salon [booking_at 0 36000 PENDING]) "biz-1" "2025-10-13" 1).
  vm_compute; reflexivity.
Defined.

(** C4 fails as stated: a reservation with status [completed] (or
    [no_show]) is not cancelled, and its slot is reported available. *)
Lemma completed_booking_frees_slot :
  bk_status (booking_at 0 36000 BS_COMPLETED) <> CANCELLED
  /\ get_available_time_slots (salon [booking_at 0 36000 BS_COMPLETED])
       "biz-1" "2025-10-13" (Some 1)
     = Some [(36000, true); (37800, true)]
  /\ is_time_slot_available [booking_at 0 36000 NO_SHOW] "biz-1" "2025-10-13" 36000 = true.
Proof. repeat split; try discriminate; vm_compute; reflexivity. Qed.

End AvailabilityExamples.

(** ** Concurrent reservation attempts

    [create_booking_safe] is two statements: the availability check and
    the insert with its exception handlers. Calls from different
    conversations interleave between the two; each statement is atomic,
    and the unique index is enforced by the insert. *)

Module Race.
Import BookingValidator Data World Sql.

Inductive Phase :=
| NotStarted
| Checked
| Finished (r : SafeResult).

Record Sys := mkSys {
  store : World;
  phases : list Phase;
}.

(** One statement of attempt [i]. *)
Definition step (attempts : list BookingArgs) (s : Sys) (i : nat) : Sys :=
  match attempts !! i, phases s !! i with
  | Some a, Some NotStarted =>
      match create_booking_check a (store s) with
      | Some r => mkSys (store s) (<[i := Finished r]> (phases s))
      | None => mkSys (store s) (<[i := Checked]> (phases s))
      end
  | Some a, Some Checked =>
      let '(r, w') := create_booking_insert a (store s) in
      mkSys w' (<[i := Finished r]> (phases s))
  | _, _ => s
  end.

Definition run (attempts : list BookingArgs) (schedule : list nat) (s : Sys) : Sys :=
  foldl (step attempts) s schedule.

Definition init (attempts : list BookingArgs) (w : World) : Sys :=
  mkSys w (replicate (length attempts) NotStarted).

Definition is_finished (p : Phase) : bool :=
  match p with Finished _ => true | _ => false end.

Definition is_success (p : Phase) : bool :=
  match p with Finished r => success r | _ => false end.

Definition is_failure (p : Phase) : bool :=
  match p with Finished r => negb (success r) | _ => false end.

(** The outcome of an attempt that lost the slot. *)
Definition slot_taken (r : SafeResult) : Prop :=
  success r = false /\ booking_id r = None
  /\ (error_message r = Some msg_no_longer_available
      \/ error_message r = Some msg_just_booked).

Definition successes (s : Sys) : nat := length (List.filter is_success (phases s)).

End Race.

Section RaceProperties.
Import BookingValidator Data World Sql Race.

Variables (business date : string) (time : Z).

Definition for_slot (w : World) (a : BookingArgs) : Prop :=
  p_business_id a = business /\ p_booking_date a = date /\ p_booking_time a = time
  /\ service_exists w (p_service_id a) = true.

Definition taken (w : World) : nat :=
  length (active_in_slot business date time (bookings w)).

Lemma available_taken (w : World) :
  is_time_slot_available (bookings w) business date time = true <-> taken w = 0%nat.
Proof.
  unfold is_time_slot_available, taken. rewrite Z.eqb_eq. lia.
Qed.

Lemma count_insert (l : list Phase) (i : nat) (p q : Phase) :
  l !! i = Some q -> is_success q = false ->
  length (List.filter is_success (<[i := p]> l))
  = (length (List.filter is_success l) + (if is_success p then 1 else 0))%nat.
Proof.
  revert i. induction l as [|x l IH]; intros [|i] Hq Hns; simpl in *; try discriminate.
  - inversion Hq; subst. rewrite Hns. destruct (is_success p); simpl; lia.
  - destruct (is_success x); simpl; rewrite (IH i Hq Hns); lia.
Qed.

Lemma failure_insert (l : list Phase) (i : nat) (p : Phase) :
  (i < length l)%nat ->
  existsb is_failure (<[i := p]> l) = true ->
  is_failure p = true \/ existsb is_failure l = true.
Proof.
  revert i. induction l as [|x l IH]; intros [|i] Hi; simpl in *; try lia.
  - intros H. apply orb_true_iff in H. destruct H; [left|right]; auto.
    rewrite H. apply orb_true_r.
  - intros H. apply orb_true_iff in H. destruct H as [H|H].
    + right. rewrite H. reflexivity.
    + destruct (IH i ltac:(lia) H) as [|H']; [left; auto|right].
      rewrite H'. apply orb_true_r.
Qed.

Lemma insert_taken (a : BookingArgs) (w : World) (id : nat) :
  p_business_id a = business -> p_booking_date a = date -> p_booking_time a = time ->
  taken (set_bookings (fun l => l ++ [new_booking id a]) w) = S (taken w).
Proof.
  intros Hb Hd Ht. unfold taken, active_in_slot. simpl.
  rewrite List.filter_app, length_app. simpl.
  unfold same_slot. simpl. rewrite Hb, Hd, Ht.
  rewrite !String.eqb_refl, Z.eqb_refl. simpl. lia.
Qed.

(** What holds of the system at every point of every schedule. *)
Record invariant (attempts : list BookingArgs) (w0 : World) (s : Sys) : Prop := {
  inv_length : length (phases s) = length attempts;
  inv_services : business_services (store s) = business_services w0;
  inv_count : taken (store s) = (taken w0 + successes s)%nat;
  inv_once : (successes s <= 1 - taken w0)%nat;
  inv_failed : existsb is_failure (phases s) = true -> (1 <= taken (store s))%nat;
  inv_shape : Forall (fun p => match p with
                               | Finished r =>
                                   if success r
                                   then exists id, booking_id r = Some id
                                                   /\ error_message r = None
                                   else slot_taken r
                               | _ => True
                               end) (phases s);
  inv_pending : exists added,
      bookings (store s) = bookings w0 ++ added
      /\ Forall (fun b => bk_status b = PENDING) added;
}.

Lemma invariant_init (attempts : list BookingArgs) (w : World) :
  (taken w <= 1)%nat -> invariant attempts w (init attempts w).
Proof.
  intros Hw. unfold init. constructor; simpl.
  - apply length_replicate.
  - reflexivity.
  - unfold successes. simpl.
    induction (length attempts); simpl; [lia | assumption].
  - unfold successes. simpl.
    assert (length (List.filter is_success (replicate (length attempts) NotStarted)) = 0%nat)
      as ->; [|lia].
    induction (length attempts); simpl; auto.
  - intros Hex. exfalso. induction (length attempts); simpl in Hex; [discriminate|auto].
  - induction (length attempts); simpl; constructor; auto.
  - exists []. rewrite app_nil_r. auto.
Qed.

Lemma invariant_step (attempts : list BookingArgs) (w0 : World) (s : Sys) (i : nat) :
  Forall (for_slot w0) attempts ->
  invariant attempts w0 s -> invariant attempts w0 (step attempts s i).
Proof.
  intros Hall [Hlen Hsv Hcnt Honce Hfail Hshape Hpend]. unfold step.
  destruct (attempts !! i) as [a|] eqn:Ha; [|constructor; assumption].
  destruct (phases s !! i) as [p|] eqn:Hp; [|constructor; assumption].
  assert (Hi : (i < length (phases s))%nat) by (eapply lookup_lt_Some; eauto).
  assert (Hslot : for_slot w0 a).
  { rewrite Forall_forall in Hall. apply Hall.
    eapply list_elem_of_lookup_2; eauto. }
  destruct Hslot as (Hb & Hd & Ht & Hsvc).
  destruct p as [| |r]; [| |constructor; assumption].
  - (* the availability check *)
    unfold create_booking_check. rewrite Hb, Hd, Ht.
    destruct (is_time_slot_available (bookings (store s)) business date time) eqn:Hav; simpl.
    + constructor; simpl; auto.
      * rewrite length_insert; assumption.
      * unfold successes in *. simpl. rewrite (count_insert _ _ _ _ Hp eq_refl). simpl. lia.
      * unfold successes in *. simpl. rewrite (count_insert _ _ _ _ Hp eq_refl). simpl. lia.
      * intros Hex. apply failure_insert in Hex; [|assumption].
        destruct Hex as [Hex|Hex]; [discriminate|auto].
      * apply Forall_insert; auto.
    + assert (Htk : (1 <= taken (store s))%nat).
      { destruct (taken (store s)) eqn:E; [|lia].
        apply available_taken in E. congruence. }
      constructor; simpl; auto.
      * rewrite length_insert; assumption.
      * unfold successes in *. simpl. rewrite (count_insert _ _ _ _ Hp eq_refl). simpl. lia.
      * unfold successes in *. simpl. rewrite (count_insert _ _ _ _ Hp eq_refl). simpl. lia.
      * apply Forall_insert; auto. simpl. unfold slot_taken. simpl. auto.
  - (* the insert *)
    unfold create_booking_insert, insert_booking. rewrite Hb, Hd, Ht.
    destruct (is_time_slot_available (bookings (store s)) business date time) eqn:Hav; simpl.
    + unfold service_exists in *. rewrite <- Hsv in Hsvc. rewrite Hsvc. simpl.
      apply available_taken in Hav.
      constructor; simpl; auto.
      * rewrite length_insert; assumption.
      * rewrite insert_taken by assumption.
        unfold successes in *. simpl. rewrite (count_insert _ _ _ _ Hp eq_refl). simpl. lia.
      * unfold successes in *. simpl. rewrite (count_insert _ _ _ _ Hp eq_refl). simpl. lia.
      * intros _. rewrite insert_taken by assumption. lia.
      * apply Forall_insert; auto. simpl. eauto.
      * destruct Hpend as [added [Heq Hall']].
        exists (added ++ [new_booking (fresh_id (bookings (store s))) a]).
        split; [rewrite app_assoc, <- Heq; reflexivity|].
        apply Forall_app; split; [assumption|]. constructor; [reflexivity|constructor].
    + assert (Htk : (1 <= taken (store s))%nat).
      { destruct (taken (store s)) eqn:E; [|lia].
        apply available_taken in E. congruence. }
      constructor; simpl; auto.
      * rewrite length_insert; assumption.
      * unfold successes in *. simpl. rewrite (count_insert _ _ _ _ Hp eq_refl). simpl. lia.
      * unfold successes in *. simpl. rewrite (count_insert _ _ _ _ Hp eq_refl). simpl. lia.
      * apply Forall_insert; auto. simpl. unfold slot_taken. simpl. auto.
Qed.

Lemma invariant_run (attempts : list BookingArgs) (w0 : World) (schedule : list nat)
    (s : Sys) :
  Forall (for_slot w0) attempts ->
  invariant attempts w0 s -> invariant attempts w0 (run attempts schedule s).
Proof.
  intros Hall. revert s. unfold run.
  induction schedule as [|i sch IH]; intros s Hs; simpl; [assumption|].
  apply IH. apply invariant_step; assumption.
Qed.

Lemma taken_slot_fails (a : BookingArgs) (w : World) :
  p_business_id a = business -> p_booking_date a = date -> p_booking_time a = time ->
  is_time_slot_available (bookings w) business date time = false ->
  create_booking_check a w = Some (mkSafe false None (Some msg_no_longer_available))
  /\ create_booking_insert a w = (mkSafe false None (Some msg_just_booked), w)
  /\ create_booking_safe a w = (mkSafe false None (Some msg_no_longer_available), w).
Proof.
  intros Hb Hd Ht Hav.
  unfold create_booking_safe, create_booking_insert, insert_booking, create_booking_check.
  rewrite Hb, Hd, Ht, Hav. simpl. auto.
Qed.

(** C1: attempts for one slot, interleaved in any order between their
    check and their insert, on a store where the slot is free and the
    rows are otherwise acceptable: once all have returned, exactly one
    has created a reservation, which is the only pending or confirmed
    row of the slot and is pending; every other attempt has returned
    [success = false] with a slot-taken message. In any store where the
    slot is taken, the check, the insert (whose unique violation is
    caught) and the whole procedure return that failure and leave the
    store as it is. *)
Theorem reserve_exactly_once (attempts : list BookingArgs) (w : World)
    (schedule : list nat) :
  attempts <> [] ->
  Forall (for_slot w) attempts ->
  is_time_slot_available (bookings w) business date time = true ->
  forallb is_finished (phases (run attempts schedule (init attempts w))) = true ->
  successes (run attempts schedule (init attempts w)) = 1%nat
  /\ (exists b, active_in_slot business date time
                  (bookings (store (run attempts schedule (init attempts w)))) = [b]
                /\ bk_status b = PENDING)
  /\ Forall (fun p => exists r, p = Finished r
                                /\ (if success r
                                    then exists id, booking_id r = Some id
                                    else slot_taken r))
       (phases (run attempts schedule (init attempts w)))
  /\ forall a w', for_slot w a ->
       is_time_slot_available (bookings w') business date time = false ->
       create_booking_check a w' = Some (mkSafe false None (Some msg_no_longer_available))
       /\ create_booking_insert a w' = (mkSafe false None (Some msg_just_booked), w')
       /\ create_booking_safe a w' = (mkSafe false None (Some msg_no_longer_available), w').
Proof.
  intros Hne Hall Hfree Hfin.
  apply available_taken in Hfree.
  assert (Hinv : invariant attempts w (run attempts schedule (init attempts w))).
  { apply invariant_run; [assumption|]. apply invariant_init. lia. }
  set (s := run attempts schedule (init attempts w)) in *.
  destruct Hinv as [Hlen Hsv Hcnt Honce Hfail Hshape Hpend].
  assert (Hone : successes s = 1%nat).
  { destruct (phases s) as [|p ps] eqn:Hph.
    { destruct attempts; [congruence | simpl in Hlen; discriminate]. }
    destruct (successes s) as [|n] eqn:Hs; [|lia].
    exfalso.
    assert (Hf : existsb is_failure (phases s) = true).
    { rewrite Hph. simpl in *. apply andb_true_iff in Hfin. destruct Hfin as [Hp _].
      unfold successes in Hs. rewrite Hph in Hs. simpl in Hs.
      destruct p as [| |r]; simpl in *; try discriminate.
      destruct (success r); simpl in *; [discriminate | reflexivity]. }
    rewrite <- Hph in Hfail. apply Hfail in Hf. lia. }
  split; [exact Hone|]. split.
  - destruct Hpend as [added [Heq Hpen]].
    assert (Htk : taken (store s) = 1%nat) by lia.
    unfold taken in Htk.
    destruct (active_in_slot business date time (bookings (store s))) as [|b [|c l]] eqn:Hact;
      simpl in Htk; try discriminate.
    exists b. split; [reflexivity|].
    assert (Hin : In b (active_in_slot business date time (bookings (store s)))).
    { rewrite Hact. left; reflexivity. }
    unfold active_in_slot in Hin. apply filter_In in Hin. destruct Hin as [Hin Hb].
    rewrite Heq in Hin. apply in_app_or in Hin. destruct Hin as [Hin|Hin].
    + exfalso. unfold taken in Hfree.
      assert (In b (active_in_slot business date time (bookings w))).
      { unfold active_in_slot. apply filter_In. auto. }
      destruct (active_in_slot business date time (bookings w)); [contradiction|discriminate].
    + rewrite Forall_forall in Hpen. apply Hpen. apply list_elem_of_In. exact Hin.
  - split.
    + assert (Hfin' : Forall (fun p => is_finished p = true) (phases s)).
      { apply Forall_forall. intros p Hp. apply list_elem_of_In in Hp.
        rewrite forallb_forall in Hfin. auto. }
      clear - Hshape Hfin'.
      induction Hshape; inversion Hfin'; subst; constructor; auto.
      destruct x as [| |r]; simpl in *; try discriminate.
      exists r. split; [reflexivity|].
      destruct (success r); [|assumption].
      destruct H as [id [Hid _]]. eauto.
    + intros a w' (Hb & Hd & Ht & _) Hav. apply taken_slot_fails; assumption.
Qed.

End RaceProperties.

Section RaceExamples.
Import BookingValidator Data World Sql Race.

Definition attempt_of (name phone : string) : BookingArgs :=
  mkArgs "biz-1" "bot-1" name phone "self" "female" "svc-1" "Haircut" 50000
    "2025-10-13" 36000 30 None.

Definition three_attempts : list BookingArgs :=
  [attempt_of "Jane Doe" "15550001"; attempt_of "Ann Lee" "15550002";
   attempt_of "Sam Roe" "15550003"].

(** Two attempts pass the check before either inserts; the third checks
    after the first has inserted. *)
Definition race_schedule : list nat := [0; 1; 0; 1; 2]%nat.

Example race_outcomes :
  phases (run three_attempts race_schedule (init three_attempts (salon [])))
  = [Finished (mkSafe true (Some 1%nat) None);
     Finished (mkSafe false None (Some msg_just_booked));
     Finished (mkSafe false None (Some msg_no_longer_available))].
Proof. vm_compute. reflexivity. Qed.

(** The statement on the example schedule, with its premises
    discharged. *)
Lemma reserve_exactly_once_witness :
  successes (run three_attempts race_schedule (init three_attempts (salon []))) = 1%nat
  /\ exists b, active_in_slot "biz-1" "2025-10-13" 36000
                 (bookings (store (run three_attempts race_schedule
                                     (init three_attempts (salon []))))) = [b]
               /\ bk_status b = PENDING.
Proof.
  assert (H1 : three_attempts <> []) by discriminate.
  assert (H2 : Forall (for_slot "biz-1" "2025-10-13" 36000 (salon [])) three_attempts).
  { repeat constructor. }
  assert (H3 : is_time_slot_available (bookings (salon [])) "biz-1" "2025-10-13" 36000
               = true) by reflexivity.
  assert (H4 : forallb is_finished
                 (phases (run three_attempts race_schedule
                            (init three_attempts (salon [])))) = true)
    by (vm_compute; reflexivity).
  destruct (reserve_exactly_once "biz-1" "2025-10-13" 36000 three_attempts (salon [])
              race_schedule H1 H2 H3 H4) as (A & B & _).
  split; [exact A | exact B].
Defined.

End RaceExamples.

(** ** The handlers of the booking service, row by row *)

Section HandlerSteps.
Import JS BookingValidator Data World Adapter BookingStateManager BookingService.
Context `{Calendar}.

Lemma respects_rpc_create_booking_safe (R : BookingConversation -> BookingConversation -> Prop)
    (R_refl : forall r, R r r) (ad : Adapter) (d : CollectedData) :
  respects R (rpc_create_booking_safe ad d).
Proof.
  intros w. apply table_step_same; [assumption|].
  unfold rpc_create_booking_safe.
  destruct (booking_args ad d) as [a|]; [|reflexivity].
  destruct (negb (sqlDate (Sql.p_booking_date a))); [reflexivity|].
  unfold Sql.create_booking_safe, Sql.create_booking_check, Sql.create_booking_insert,
    Sql.insert_booking.
  destruct (negb (Sql.is_time_slot_available _ _ _ _)); [reflexivity|].
  destruct (negb (Sql.service_exists _ _)); reflexivity.
Qed.

(** A relation that every write of the state and every completion of a
    row satisfies is respected by every handler. *)
Variable R : BookingConversation -> BookingConversation -> Prop.
Hypothesis R_refl : forall r, R r r.
Hypothesis R_trans : forall a b c, R a b -> R b c -> R a c.
Hypothesis R_state : forall r d s, R r (set_state d s r).
Hypothesis R_completed : forall r s, R r (set_completed s r).

Ltac handler :=
  repeat first
    [ respects_step
    | match goal with
      | |- respects _ (rpc_create_booking_safe _ _) =>
          apply respects_rpc_create_booking_safe; assumption
      | |- R _ (set_state _ _ _) => apply R_state
      | |- R _ (set_completed _ _) => apply R_completed
      end ].

Lemma handleCancel_respects ad : respects R (handleCancel ad).
Proof. unfold handleCancel. handler. Qed.

Lemma startBooking_respects ad st : respects R (startBooking ad st).
Proof. unfold startBooking. handler. Qed.

Lemma showServices_respects ad st : respects R (showServices ad st).
Proof. unfold showServices. handler. Qed.

Lemma handleNameInput_respects ad msg st : respects R (handleNameInput ad msg st).
Proof. unfold handleNameInput. handler. Qed.

Lemma handleBookingForInput_respects ad msg st :
  respects R (handleBookingForInput ad msg st).
Proof. unfold handleBookingForInput. handler; apply showServices_respects. Qed.

Lemma handleGenderInput_respects ad msg st : respects R (handleGenderInput ad msg st).
Proof. unfold handleGenderInput. handler; apply showServices_respects. Qed.

Lemma showAvailableDates_respects ad st now : respects R (showAvailableDates ad st now).
Proof. unfold showAvailableDates. handler. Qed.

Lemma handleServiceInput_respects ad msg st now :
  respects R (handleServiceInput ad msg st now).
Proof. unfold handleServiceInput. handler; apply showAvailableDates_respects. Qed.

Lemma showAvailableTimeSlots_respects ad st now :
  respects R (showAvailableTimeSlots ad st now).
Proof. unfold showAvailableTimeSlots. handler; apply showAvailableDates_respects. Qed.

Lemma handleDateInput_respects ad msg st now :
  respects R (handleDateInput ad msg st now).
Proof. unfold handleDateInput. handler; apply showAvailableTimeSlots_respects. Qed.

Lemma handleTimeInput_respects ad msg st : respects R (handleTimeInput ad msg st).
Proof. unfold handleTimeInput, showConfirmation. handler. Qed.

Lemma handleConfirmation_respects ad msg st now :
  respects R (handleConfirmation ad msg st now).
Proof.
  unfold handleConfirmation. handler;
    first [apply handleCancel_respects | apply showAvailableTimeSlots_respects].
Qed.

Lemma route_respects ad msg st now : respects R (route ad msg st now).
Proof.
  unfold route. destruct (_ && _); [apply handleCancel_respects|].
  destruct (currentStep st);
    first [ apply startBooking_respects | apply handleNameInput_respects
          | apply handleBookingForInput_respects | apply handleGenderInput_respects
          | apply handleServiceInput_respects | apply handleDateInput_respects
          | apply handleTimeInput_respects | apply handleConfirmation_respects ].
Qed.

(** A turn whose state loads: the expiry is extended, the turn is
    routed, and a failure of the routed handler is answered with the
    generic message. *)
Lemma bookingTurn_loaded (ad : Adapter) (msg : string) (now : Z) (w w1 : World)
    (st : ConversationState) :
  getOrCreateState (getBotId ad) (getBusinessId ad) (getUserKey ad) now w = (Ok st, w1) ->
  bookingTurn ad msg now w
  = try_catch (route ad msg st now) (fun _ => sendMessage ad MsgSomethingWrong)
      (set_booking_conversations
         (update_where (is_active_for (getBotId ad) (getUserKey ad))
            (set_expires (now + 30 * 60 * 1000))) w1).
Proof.
  intros Hst. unfold bookingTurn, try_catch. unfold bind at 1. rewrite Hst.
  unfold bind at 1. reflexivity.
Qed.

Lemma getOrCreateState_existing (botId businessId phone : string) (now : Z) (w : World)
    (r : BookingConversation) :
  active_rows botId phone w = [r] ->
  parses (bc_conversation_state r) = true ->
  getOrCreateState botId businessId phone now w
  = (Ok (mkState (bc_current_step r) (bc_conversation_state r)), w).
Proof.
  intros Hrow Hparse. unfold getOrCreateState, bind, get. rewrite Hrow. simpl.
  rewrite Hparse. reflexivity.
Qed.

End HandlerSteps.

(** ** Expiry of booking conversations *)

Section ExpiryProperties.
Import JS BookingValidator Data World Adapter BookingStateManager BookingService.
Context `{Calendar}.

(** The same conversation later in the turn, with the expiry it had. *)
Definition same_row_later (r r' : BookingConversation) : Prop :=
  bc_id r' = bc_id r /\ bc_bot_id r' = bc_bot_id r
  /\ bc_customer_phone r' = bc_customer_phone r
  /\ bc_expires_at r' = bc_expires_at r.

Lemma same_row_later_refl r : same_row_later r r.
Proof. repeat split. Qed.

Lemma same_row_later_trans a b c :
  same_row_later a b -> same_row_later b c -> same_row_later a c.
Proof. unfold same_row_later. intros (?&?&?&?) (?&?&?&?). repeat split; congruence. Qed.

Lemma getOrCreateState_active (botId businessId phone : string) (now : Z)
    (w w1 : World) (st : ConversationState) :
  getOrCreateState botId businessId phone now w = (Ok st, w1) ->
  exists r, In r (booking_conversations w1) /\ is_active_for botId phone r = true
            /\ (In r (booking_conversations w) \/ bc_expires_at r = now + 30 * 60 * 1000).
Proof.
  unfold getOrCreateState, bind, get.
  destruct (single (active_rows botId phone w)) as [existing|] eqn:Hs.
  - destruct (parses _); [|discriminate]. intros [= <- <-].
    unfold single in Hs. destruct (active_rows botId phone w) as [|x [|y l]] eqn:Ha;
      try discriminate. inversion Hs; subst.
    assert (Hin : In existing (active_rows botId phone w)) by (rewrite Ha; left; reflexivity).
    unfold active_rows in Hin. apply filter_In in Hin. destruct Hin as [Hin Hact].
    exists existing. auto.
  - destruct (existsb _ _); [discriminate|].
    unfold modify, ret. intros [= <- <-]. simpl.
    eexists. split; [apply in_or_app; right; left; reflexivity|].
    split; [|right; reflexivity].
    unfold is_active_for. simpl. rewrite !String.eqb_refl. reflexivity.
Qed.

(** A turn whose state loads leaves every conversation with the expiry
    that [extendExpiry] gave it: thirty minutes after the turn for the
    active conversation of the user, of which there is one. *)
Lemma turn_extends_expiry (ad : Adapter) (msg : string) (now : Z) (w w1 : World)
    (st : ConversationState) :
  getOrCreateState (getBotId ad) (getBusinessId ad) (getUserKey ad) now w = (Ok st, w1) ->
  Forall2 same_row_later
    (update_where (is_active_for (getBotId ad) (getUserKey ad))
       (set_expires (now + 30 * 60 * 1000)) (booking_conversations w1))
    (booking_conversations (exec (bookingTurn ad msg now) w))
  /\ exists r, In r (booking_conversations w1)
               /\ is_active_for (getBotId ad) (getUserKey ad) r = true.
Proof.
  intros Hst. split.
  2: { destruct (getOrCreateState_active _ _ _ _ _ _ _ Hst) as [r [? [? _]]]. eauto. }
  unfold exec. rewrite (bookingTurn_loaded ad msg now w w1 st Hst).
  set (w2 := set_booking_conversations _ w1).
  pose proof (route_respects same_row_later same_row_later_refl same_row_later_trans
                ltac:(intros; repeat split) ltac:(intros; repeat split) ad msg st now)
    as Hd.
  assert (Hall : respects same_row_later
                   (try_catch (route ad msg st now)
                      (fun _ => sendMessage ad MsgSomethingWrong))).
  { apply respects_try_catch; [apply same_row_later_trans | exact Hd |].
    intros e. apply respects_sendMessage. apply same_row_later_refl. }
  exact (Hall w2).
Qed.

(** The sweep, when the store accepts its update: exactly the expired
    active rows are completed. It sends nothing in any case. *)
Lemma sweep_when_accepted (now : Z) (w : World) :
  (unique_conversations
     (update_where (expired now) (set_completed None) (booking_conversations w)) = true ->
   booking_conversations (exec (cleanupExpiredConversations now) w)
   = List.map (fun r => if expired now r then set_completed None r else r)
       (booking_conversations w))
  /\ outbox (exec (cleanupExpiredConversations now) w) = outbox w
  /\ messages (exec (cleanupExpiredConversations now) w) = messages w.
Proof.
  unfold exec, cleanupExpiredConversations, bind, get, update_completed.
  destruct (unique_conversations _); simpl; repeat split; try reflexivity.
  discriminate.
Qed.

End ExpiryProperties.

Section ExpiryExamples.
Import JS BookingValidator Data World Adapter BookingStateManager BookingService.
#[local] Existing Instance week_calendar.

(** A user books, cancels, and starts a second booking conversation. *)
Definition second_conversation : World :=
  exec (handleBookingMessage phone_adapter "book" 120000)
    (exec (handleBookingMessage phone_adapter "cancel" 60000)
       (exec (handleBookingMessage phone_adapter "book" 0) empty_world)).

(** C6 at a failing input: the second conversation of a user is past its
    expiry, and the sweep leaves it active. Its update would give the
    user two rows with [is_completed = true], which
    [UNIQUE(bot_id, customer_phone, is_completed)] rejects; the error is
    logged and the sweep returns 0. *)
Theorem sweep_blocked_by_completed_row :
  List.map (fun r => (bc_customer_phone r, bc_is_completed r, bc_expires_at r))
    (booking_conversations second_conversation)
  = [("15550001", true, 1860000); ("15550001", false, 1920000)]
  /\ List.filter (expired 2000000) (booking_conversations second_conversation)
     = List.filter (fun r => negb (bc_is_completed r))
         (booking_conversations second_conversation)
  /\ result (cleanupExpiredConversations 2000000) second_conversation = Ok 0%nat
  /\ booking_conversations (exec (cleanupExpiredConversations 2000000) second_conversation)
     = booking_conversations second_conversation.
Proof.
  split; [vm_compute; reflexivity|].
  split; [vm_compute; reflexivity|].
  split; vm_compute; reflexivity.
Qed.

(** A service without a price, as the settings route stores it. *)
Definition free_consultation : World :=
  mkWorld [] [mkService "svc-2" "biz-1" "Consultation" JNull (JNum 30) true 0]
    [monday_morning] []
    [mkBC 0 "bot-1" "biz-1" "15550001"
       (mkCollected (Some "Jane Doe") "15550001" (Some "self") (Some FEMALE) None None
          None None None None)
       COLLECTING_SERVICE false 1800000]
    [] [] [] [] [] true WS_OPEN [] [].

(** After such a service is chosen the stored state holds a [null]
    price, the next turn fails to load it, and the expiry stays where
    the previous turn put it. *)
Example turn_with_null_price_keeps_expiry :
  let chosen := exec (handleBookingMessage phone_adapter "1" 60000) free_consultation in
  List.map (fun r => (servicePrice (bc_conversation_state r), bc_expires_at r))
    (booking_conversations chosen) = [(Some JNull, 1860000)]
  /\ List.map bc_expires_at
       (booking_conversations (exec (handleBookingMessage phone_adapter "1" 900000) chosen))
     = [1860000]
  /\ outbox (exec (handleBookingMessage phone_adapter "1" 900000) chosen)
     = outbox chosen ++ [DText "15550001" MsgSomethingWrong].
Proof.
  cbv zeta.
  split; [vm_compute; reflexivity|].
  split; vm_compute; reflexivity.
Qed.

End ExpiryExamples.

(** ** The bracketed states *)

Section BracketedStates.
Import JS BookingValidator Data World Adapter BookingStateManager BookingService.
Context `{Calendar}.

(** From a fact about the rows an update has written and what came
    after, to a fact about the rows before the update. *)
Lemma after_update (p : BookingConversation -> bool)
    (f : BookingConversation -> BookingConversation)
    (R Q : BookingConversation -> BookingConversation -> Prop)
    (tbl tbl' : list BookingConversation) :
  (forall r r', p r = true -> R (f r) r' -> Q r r') ->
  (forall r r', p r = false -> R r r' -> Q r r') ->
  Forall2 R (update_where p f tbl) tbl' ->
  Forall2 Q tbl tbl'.
Proof.
  intros Hp Hn. revert tbl'.
  induction tbl as [|r tbl IH]; intros tbl' HR; simpl in HR;
    inversion HR; subst; constructor; auto.
  destruct (p r) eqn:E; auto.
Qed.

Lemma after_update_in (p : BookingConversation -> bool)
    (f : BookingConversation -> BookingConversation)
    (R Q : BookingConversation -> BookingConversation -> Prop)
    (tbl tbl' : list BookingConversation) :
  (forall r r', In r tbl -> p r = true -> R (f r) r' -> Q r r') ->
  (forall r r', In r tbl -> p r = false -> R r r' -> Q r r') ->
  Forall2 R (update_where p f tbl) tbl' ->
  Forall2 Q tbl tbl'.
Proof.
  revert tbl'.
  induction tbl as [|r tbl IH]; intros tbl' Hp Hn HR; simpl in HR;
    inversion HR; subst; constructor.
  - destruct (p r) eqn:E; [apply Hp | apply Hn]; auto; left; reflexivity.
  - apply IH; auto; intros; [apply Hp | apply Hn]; auto; right; assumption.
Qed.

Lemma sendMessage_table (ad : Adapter) (m : Msg) (w : World) :
  booking_conversations (snd (sendMessage ad m w)) = booking_conversations w.
Proof.
  unfold sendMessage. rewrite sendText_unfold.
  destruct (transport_returns ad w); [|reflexivity].
  destruct (channel ad), (ws_state w); reflexivity.
Qed.

(** The step of the row is the one it had, or one of [S]. *)
Definition step_kept_or (S : BookingState -> Prop) (r r' : BookingConversation) : Prop :=
  bc_current_step r' = bc_current_step r \/ S (bc_current_step r').

Lemma step_kept_or_refl S r : step_kept_or S r r.
Proof. left; reflexivity. Qed.

Lemma step_kept_or_trans S a b c :
  step_kept_or S a b -> step_kept_or S b c -> step_kept_or S a c.
Proof.
  unfold step_kept_or. intros [H1|H1] [H2|H2]; try (right; assumption).
  - left; congruence.
  - right; rewrite H2; assumption.
Qed.

Definition after_services (s : BookingState) : Prop := s = COLLECTING_SERVICE \/ s = IDLE.

Lemma showServices_steps (ad : Adapter) (st : ConversationState) :
  respects (step_kept_or after_services) (showServices ad st).
Proof.
  pose proof (step_kept_or_refl after_services) as Hr.
  pose proof (step_kept_or_trans after_services) as Ht.
  unfold showServices. respects_all; right; unfold after_services; simpl; auto.
Qed.

(** C8, as the handlers have it. On the turn that accepts the name,
    [COLLECTING_BOOKING_FOR] is entered exactly when the configuration
    read on that turn requires it; on the turn that accepts the
    booking-for answer, [COLLECTING_GENDER] is entered exactly when the
    configuration read on that turn requires it. A rejected input enters
    no state. *)
Theorem bracketed_states_follow_configuration (ad : Adapter) (msg : string)
    (st : ConversationState) (w : World) :
  match validateName msg with
  | Valid _ =>
      Forall2
        (fun r r' => is_active_for (getBotId ad) (getUserKey ad) r = true ->
                     (bc_current_step r' = COLLECTING_BOOKING_FOR
                      <-> requireBookingFor (getBotId ad) w = true))
        (booking_conversations w)
        (booking_conversations (exec (handleNameInput ad msg st) w))
  | Invalid _ =>
      booking_conversations (exec (handleNameInput ad msg st) w) = booking_conversations w
  end
  /\ match validateBookingFor msg with
     | Valid _ =>
         Forall2
           (fun r r' => is_active_for (getBotId ad) (getUserKey ad) r = true ->
                        (bc_current_step r' = COLLECTING_GENDER
                         <-> requireGender (getBotId ad) w = true))
           (booking_conversations w)
           (booking_conversations (exec (handleBookingForInput ad msg st) w))
     | Invalid _ =>
         booking_conversations (exec (handleBookingForInput ad msg st) w)
         = booking_conversations w
     end.
Proof.
  split.
  - unfold handleNameInput. destruct (validateName msg) as [value|err].
    2: { apply sendMessage_table. }
    unfold exec. unfold bind at 1, get at 1.
    destruct (requireBookingFor (getBotId ad) w) eqn:Hreq;
      unfold bind, updateState, update_rows, modify; rewrite sendMessage_table; simpl;
      (eapply (after_update _ _ eq); [| |apply Forall2_same_length_lookup_2;
         [reflexivity | intros; congruence]]);
      intros r r' Hp <-; simpl; intros; try congruence;
      split; intros; try reflexivity; discriminate.
  - unfold handleBookingForInput. destruct (validateBookingFor msg) as [value|err].
    2: { apply sendMessage_table. }
    unfold exec. unfold bind at 1, get at 1.
    destruct (requireGender (getBotId ad) w) eqn:Hreq.
    + unfold bind, updateState, update_rows, modify; rewrite sendMessage_table; simpl.
      eapply (after_update _ _ eq); [| |apply Forall2_same_length_lookup_2;
         [reflexivity | intros; congruence]];
      intros r r' Hp <-; simpl; intros; try congruence.
      split; intros; reflexivity.
    + unfold bind at 1. unfold updateState at 1, update_rows at 1, modify at 1.
      match goal with
      | |- context [showServices ad ?s ?w1] =>
          pose proof (showServices_steps ad s w1) as Hs
      end.
      unfold table_step in Hs. simpl in Hs.
      eapply after_update; [| |exact Hs].
      * intros r r' Hp [Hk|[Hk|Hk]] _; simpl in Hk; rewrite Hk;
          split; intros; discriminate.
      * intros r r' Hp _ Hact. congruence.
Qed.

End BracketedStates.

Section BracketedExamples.
Import JS BookingValidator Data World Adapter BookingStateManager BookingService.
#[local] Existing Instance week_calendar.

Definition settings_with (require_booking_for require_gender : bool) : BotSettings :=
  mkSettings "bot-1" (Some true) None None (Some require_gender)
    (Some require_booking_for) None None.

Definition salon_with (s : BotSettings) : World :=
  set_bot_settings (fun _ => [s]) (salon []).

Definition steps_of (w : World) : list BookingState :=
  List.map bc_current_step (booking_conversations w).

(** Both requirements are disabled when the name arrives. *)
Definition named_without_requirements : World :=
  exec (handleBookingMessage phone_adapter "Jane Doe" 60000)
    (exec (handleBookingMessage phone_adapter "book" 0)
       (salon_with (settings_with false false))).

(** Both requirements are enabled when the conversation starts; the
    gender requirement is disabled before the booking-for answer. *)
Definition named_with_requirements : World :=
  exec (handleBookingMessage phone_adapter "Jane Doe" 60000)
    (exec (handleBookingMessage phone_adapter "book" 0)
       (salon_with (settings_with true true))).

Definition answered_after_change : World :=
  exec (handleBookingMessage phone_adapter "self" 120000)
    (set_bot_settings (fun _ => [settings_with true false]) named_with_requirements).

(** C8 fails as stated: with both requirements disabled the gender state
    is entered all the same; and a change of the configuration in the
    middle of a conversation takes effect on the next turn. *)
Lemma bracketed_states_counterexample :
  requireGender "bot-1" (salon_with (settings_with false false)) = false
  /\ steps_of named_without_requirements = [COLLECTING_GENDER]
  /\ requireGender "bot-1" (salon_with (settings_with true true)) = true
  /\ steps_of named_with_requirements = [COLLECTING_BOOKING_FOR]
  /\ steps_of answered_after_change = [COLLECTING_SERVICE].
Proof.
  split; [vm_compute; reflexivity|].
  split; [vm_compute; reflexivity|].
  split; [vm_compute; reflexivity|].
  split; vm_compute; reflexivity.
Qed.

End BracketedExamples.

(** ** Confirmation on a slot that has been taken *)

Section Rewind.
Import JS BookingValidator Data World Adapter BookingStateManager BookingService.
Context `{Calendar}.


Lemma sendMessage_up (ad : Adapter) (m : Msg) (w : World) :
  transport_returns ad w = true ->
  exists w', sendMessage ad m w = (Ok tt, w')
             /\ booking_conversations w' = booking_conversations w
             /\ bookings w' = bookings w.
Proof.
  intros Hup. unfold sendMessage. rewrite sendText_unfold, Hup.
  eexists. split; [reflexivity|].
  destruct (channel ad), (ws_state w); split; reflexivity.
Qed.

Lemma update_where_twice (p : BookingConversation -> bool)
    (f g : BookingConversation -> BookingConversation) (tbl : list BookingConversation) :
  (forall r, p (f r) = p r) ->
  update_where p g (update_where p f tbl) = update_where p (fun x => g (f x)) tbl.
Proof.
  intros Hf. unfold update_where. rewrite List.map_map. apply List.map_ext.
  intros r. destruct (p r) eqn:Hp; [rewrite Hf, Hp | rewrite Hp]; reflexivity.
Qed.










End Rewind.

Section RewindExamples.
Import JS BookingValidator Data World Adapter BookingStateManager BookingService.
#[local] Existing Instance week_calendar.

Definition confirming_row : BookingConversation :=
  mkBC 0 "bot-1" "biz-1" "15550001"
    (mkCollected (Some "Jane Doe") "15550001" (Some "self") (Some FEMALE) (Some "svc-1")
       (Some "Haircut") (Some (JNum 50000)) (Some (JNum 30)) (Some "2025-10-13")
       (Some 36000))
    CONFIRMING false 1800000.

(** The slot of the conversation has gone to another customer. *)
Definition slot_lost : World :=
  set_booking_conversations (fun _ => [confirming_row])
    (salon [mkBooking 0 "biz-1" "bot-1" "Ann Lee" "15550002" "self" "female"
              (Some "svc-1") "Haircut" 50000 "2025-10-13" 36000 30 PENDING None]).

(** On the example the display moves the rewound conversation on to
    [COLLECTING_TIME], with the one slot that is left. *)
Example rewind_outcome :
  List.map (fun r => (bc_current_step r, bc_is_completed r, bc_conversation_state r))
    (booking_conversations (exec (bookingTurn phone_adapter "yes" 60000) slot_lost))
  = [(COLLECTING_TIME, false, bc_conversation_state confirming_row)]
  /\ outbox (exec (bookingTurn phone_adapter "yes" 60000) slot_lost)
     = [DText "15550001" (MsgSlotTaken Sql.msg_no_longer_available);
        DText "15550001" (MsgSlotsMenu [37800])].
Proof. split; vm_compute; reflexivity. Qed.




End RewindExamples.

(** ** What the booking service leaves alone *)

Section Keeps.
Import JS BookingValidator Data World Adapter BookingStateManager BookingService.
Context `{Calendar}.

(** A computation that leaves a part of the world as it was. *)
Definition keeps {A B} (f : World -> B) (m : M A) : Prop :=
  forall w, f (snd (m w)) = f w.

Lemma keeps_ret {A B} (f : World -> B) (a : A) : keeps f (ret a).
Proof. intros w. reflexivity. Qed.

Lemma keeps_throw {A B} (f : World -> B) (e : Exn) : keeps f (@throw A e).
Proof. intros w. reflexivity. Qed.

Lemma keeps_get {B} (f : World -> B) : keeps f get.
Proof. intros w. reflexivity. Qed.

Lemma keeps_bind {A C B} (f : World -> B) (m : M A) (k : A -> M C) :
  keeps f m -> (forall a, keeps f (k a)) -> keeps f (bind m k).
Proof.
  intros Hm Hk w. unfold bind. specialize (Hm w).
  destruct (m w) as [[a|e] w']; simpl in *; [|exact Hm].
  rewrite Hk. exact Hm.
Qed.

Lemma keeps_try_catch {A B} (f : World -> B) (m : M A) (h : Exn -> M A) :
  keeps f m -> (forall e, keeps f (h e)) -> keeps f (try_catch m h).
Proof.
  intros Hm Hh w. unfold try_catch. specialize (Hm w).
  destruct (m w) as [[a|e] w']; simpl in *; [exact Hm|].
  rewrite Hh. exact Hm.
Qed.

(** A part of the world that the bookings, the booking conversations,
    the message log and the transports are not part of. *)
Variable B : Type.
Variable f : World -> B.
Hypothesis f_bookings : forall g w, f (set_bookings g w) = f w.
Hypothesis f_conversations : forall g w, f (set_booking_conversations g w) = f w.
Hypothesis f_messages : forall g w, f (set_messages g w) = f w.
Hypothesis f_outbox : forall g w, f (set_outbox g w) = f w.

Lemma keeps_sendText (ad : Adapter) (m : Msg) (md : option string) :
  keeps f (sendText ad m md).
Proof.
  intros w. rewrite sendText_unfold.
  destruct (transport_returns ad w); [|reflexivity]. simpl.
  rewrite f_messages. destruct (channel ad), (ws_state w); try apply f_outbox; reflexivity.
Qed.

Lemma keeps_sendRich (ad : Adapter) (send : string -> M unit) (c : string) :
  sendRich ad = Some send -> keeps f (send c).
Proof.
  unfold sendRich. intros Hs w.
  destruct (channel ad); inversion Hs; subst;
    unfold wa_sendRich, web_sendRich, try_catch, sock_sendMessage, sendEventToSession, throw;
    [destruct (wa_up w) | destruct (ws_state w)]; simpl; try apply f_outbox; reflexivity.
Qed.

Lemma keeps_sendDocument (ad : Adapter) (send : SendDocumentOptions -> M unit)
    (o : SendDocumentOptions) :
  sendDocument ad = Some send -> keeps f (send o).
Proof.
  unfold sendDocument. intros Hs w.
  destruct (channel ad); inversion Hs; subst.
  unfold web_sendDocument, try_catch, bind, sendEventToSession, saveMessage, modify, throw.
  destruct (ws_state w); simpl; try rewrite f_messages; try apply f_outbox; reflexivity.
Qed.

Lemma keeps_sendTyping (ad : Adapter) (start : bool) : keeps f (sendTyping ad start).
Proof.
  intros w. unfold sendTyping, wa_sendTyping, web_sendTyping, try_catch,
    sock_sendMessage, sendEventToSession, ret.
  destruct (channel ad); [destruct (wa_up w) | destruct (ws_state w)];
    simpl; try apply f_outbox; reflexivity.
Qed.

Lemma keeps_update_rows p g : keeps f (update_rows p g).
Proof. intros w. apply f_conversations. Qed.

Lemma keeps_update_completed p g : keeps f (update_completed p g).
Proof.
  intros w. unfold update_completed.
  destruct (unique_conversations _); simpl; [apply f_conversations | reflexivity].
Qed.

Lemma keeps_rpc_create_booking_safe (ad : Adapter) (d : CollectedData) :
  keeps f (rpc_create_booking_safe ad d).
Proof.
  intros w. unfold rpc_create_booking_safe.
  destruct (booking_args ad d) as [a|]; [|reflexivity].
  destruct (negb (sqlDate (Sql.p_booking_date a))); [reflexivity|].
  unfold Sql.create_booking_safe, Sql.create_booking_check, Sql.create_booking_insert,
    Sql.insert_booking.
  destruct (negb (Sql.is_time_slot_available _ _ _ _)); [reflexivity|].
  destruct (negb (Sql.service_exists _ _)); simpl; [reflexivity | apply f_bookings].
Qed.

Lemma keeps_getOrCreateState (botId businessId phone : string) (now : Z) :
  keeps f (getOrCreateState botId businessId phone now).
Proof.
  intros w. unfold getOrCreateState, bind, get, modify, ret, throw.
  destruct (single _); [destruct (parses _); reflexivity|].
  destruct (existsb _ _); simpl; [reflexivity | apply f_conversations].
Qed.

Ltac keeps_step :=
  match goal with
  | |- keeps _ (World.bind _ _) => apply keeps_bind; [| intros ?]
  | |- keeps _ (World.try_catch _ _) => apply keeps_try_catch; [| intros ?]
  | |- keeps _ (World.ret _) => apply keeps_ret
  | |- keeps _ (World.throw _) => apply keeps_throw
  | |- keeps _ World.get => apply keeps_get
  | |- keeps _ (Adapter.sendText _ _ _) => apply keeps_sendText
  | |- keeps _ (update_rows _ _) => apply keeps_update_rows
  | |- keeps _ (update_completed _ _) => apply keeps_update_completed
  | |- keeps _ (rpc_create_booking_safe _ _) => apply keeps_rpc_create_booking_safe
  | |- keeps _ (getOrCreateState _ _ _ _) => apply keeps_getOrCreateState
  | |- keeps _ (match ?x with _ => _ end) => destruct x eqn:?
  | |- keeps _ (let _ := _ in _) => cbv zeta
  | |- keeps _ (sendMessage _ _) => unfold sendMessage
  | |- keeps _ (updateState _ _ _) => unfold updateState
  | |- keeps _ (cancelConversation _ _) => unfold cancelConversation
  | |- keeps _ (completeConversation _ _) => unfold completeConversation
  | |- keeps _ (extendExpiry _ _ _ _) => unfold extendExpiry
  | |- keeps _ (handleCancel _) => unfold handleCancel
  | |- keeps _ (startBooking _ _) => unfold startBooking
  | |- keeps _ (showServices _ _) => unfold showServices
  | |- keeps _ (showAvailableDates _ _ _) => unfold showAvailableDates
  | |- keeps _ (showAvailableTimeSlots _ _ _) => unfold showAvailableTimeSlots
  | |- keeps _ (showConfirmation _ _) => unfold showConfirmation
  | |- keeps _ (handleNameInput _ _ _) => unfold handleNameInput
  | |- keeps _ (handleBookingForInput _ _ _) => unfold handleBookingForInput
  | |- keeps _ (handleGenderInput _ _ _) => unfold handleGenderInput
  | |- keeps _ (handleServiceInput _ _ _ _) => unfold handleServiceInput
  | |- keeps _ (handleDateInput _ _ _ _) => unfold handleDateInput
  | |- keeps _ (handleTimeInput _ _ _) => unfold handleTimeInput
  | |- keeps _ (handleConfirmation _ _ _ _) => unfold handleConfirmation
  | |- keeps _ (route _ _ _ _) => unfold route
  | |- keeps _ (bookingTurn _ _ _) => unfold bookingTurn
  end.

Lemma bookingTurn_keeps (ad : Adapter) (msg : string) (now : Z) :
  keeps f (bookingTurn ad msg now).
Proof. repeat keeps_step. Qed.

End Keeps.

(** ** An unmatched answer to a list of options *)

Section UnmatchedOption.
Import JS Data World Adapter WorkflowEngine.
Context `{Calendar} `{JsNumber} `{Assistant}.

Lemma handleBookingMessage_keeps_workflows (ad : Adapter) (msg : string) (now : Z) :
  keeps workflow_conversations (BookingService.handleBookingMessage ad msg now).
Proof.
  unfold BookingService.handleBookingMessage.
  apply keeps_bind; [intros w; reflexivity|]. intros _.
  apply bookingTurn_keeps; intros; reflexivity.
Qed.


Lemma sendText_keeps_workflows (ad : Adapter) (m : Msg) (md : option string) :
  keeps workflow_conversations (sendText ad m md).
Proof. apply keeps_sendText; intros; reflexivity. Qed.

(** The row of the conversation after [advance]: completed when there is
    no next step, else moved to it (and completed at once when that step
    hands over to the booking flow). *)
Definition advanced (workflow : Workflow) (step : WfStep) (succ_idx : nat)
    (state : gmap string string) (c : WorkflowConversation) : WorkflowConversation :=
  match next_id step (wf_steps workflow) succ_idx with
  | None => wc_complete (Some state) c
  | Some nextId =>
      match next_step (wf_steps workflow) succ_idx nextId with
      | Some next =>
          match step_type next with
          | START_BOOKING => wc_complete (Some state) (wc_move nextId (Some state) c)
          | _ => wc_move nextId (Some state) c
          end
      | None => wc_move nextId (Some state) c
      end
  end.

(** The advanced row holds the state it was advanced with; it is at the
    next step when there is one and completed when there is none. *)
Lemma advanced_row (workflow : Workflow) (step : WfStep) (succ_idx : nat)
    (state : gmap string string) (c : WorkflowConversation) :
  wc_state (advanced workflow step succ_idx state c) = state
  /\ match next_id step (wf_steps workflow) succ_idx with
     | Some nextId => wc_current_step_id (advanced workflow step succ_idx state c) = nextId
     | None => wc_is_completed (advanced workflow step succ_idx state c) = true
     end.
Proof.
  unfold advanced.
  destruct (next_id step (wf_steps workflow) succ_idx) as [nextId|]; [|split; reflexivity].
  destruct (next_step (wf_steps workflow) succ_idx nextId) as [next|]; [|split; reflexivity].
  destruct (step_type next); split; reflexivity.
Qed.

Lemma advance_table (ad : Adapter) (msg : string) (convo : WorkflowConversation)
    (workflow : Workflow) (step : WfStep) (succ_idx : nat) (state : gmap string string)
    (now : Z) (w : World) :
  workflow_conversations (snd (advance ad msg convo workflow step succ_idx state now w))
  = List.map (fun c => if has_id (wc_id convo) c
                       then advanced workflow step succ_idx state c else c)
      (workflow_conversations w).
Proof.
  unfold advance, advanced.
  destruct (next_id step (wf_steps workflow) succ_idx) as [nextId|].
  - unfold bind at 1. unfold update_convos at 1, modify at 1.
    destruct (next_step (wf_steps workflow) succ_idx nextId) as [next|]; [|reflexivity].
    assert (Hprompt : forall w1,
               workflow_conversations
                 (snd (bind (send_prompt ad next "Please continue...") (fun _ => ret true) w1))
               = workflow_conversations w1).
    { intros w1. apply (keeps_bind workflow_conversations).
      - unfold send_prompt. destruct (step_type next), (has_options next);
          apply sendText_keeps_workflows.
      - intros _ w2. reflexivity. }
    destruct (step_type next); try (rewrite Hprompt; reflexivity).
    unfold bind at 1. unfold update_convos at 1, modify at 1.
    match goal with
    | |- workflow_conversations (snd (?m ?w1)) = _ =>
        assert (Hk : keeps workflow_conversations m)
    end.
    { apply keeps_bind; [apply handleBookingMessage_keeps_workflows|].
      intros _ w2. reflexivity. }
    rewrite Hk. simpl. rewrite List.map_map. apply List.map_ext. intros c.
    destruct (has_id (wc_id convo) c) eqn:Hc; [|rewrite Hc; reflexivity].
    assert (Hc' : has_id (wc_id convo) (wc_move nextId (Some state) c) = true) by exact Hc.
    rewrite Hc'. reflexivity.
  - unfold bind at 1. unfold update_convos at 1, modify at 1.
    match goal with
    | |- workflow_conversations (snd (?m ?w1)) = _ =>
        assert (Hk : keeps workflow_conversations m)
    end.
    { apply keeps_bind.
      - destruct (wf_save_to_database workflow); intros w2; reflexivity.
      - intros _. apply keeps_bind; [apply sendText_keeps_workflows|].
        intros _ w2. reflexivity. }
    rewrite Hk. reflexivity.
Qed.



















End UnmatchedOption.

(** ** Worked conversations *)

Section Conversations.
Import JS BookingValidator Data World Adapter BookingStateManager WorkflowEngine Dispatch.
#[local] Existing Instance week_calendar.

(** [Number] on the inputs of the examples: a run of digits is its
    value, the empty string is 0, anything else is [NaN]. *)
Definition digits_number : JsNumber := {|
  Number := fun s =>
    if all_digits s then Some (inject_Z (parseInt s))
    else if nonEmpty s then None else Some 0%Q;
  numberToString := fun q => pretty (Qfloor q);
|}.

Definition echo_assistant : Assistant := {|
  generateResponse := fun message _ => message;
  bookingIntent := fun _ _ => false;
|}.

#[local] Existing Instance digits_number.
#[local] Existing Instance echo_assistant.

Definition plan_step : WfStep :=
  mkStep (Some "plan") SHOW_OPTIONS (Some "Which plan?") None None
    (Some [mkOption (Some "Basic") (Some "basic");
           mkOption (Some "Premium") (Some "premium")])
    None.

Definition email_step : WfStep :=
  mkStep (Some "email") COLLECT_FIELD (Some "Your email?") None None None None.

(** A published workflow triggered by [pricing]; its keyword list also
    holds [book]. *)
Definition pricing_workflow : Workflow :=
  mkWorkflow "wf-1" "bot-1" true true (Some ["pricing"; "book"])
    [plan_step; email_step] true.

Definition asked_plan : WorkflowConversation :=
  mkWC 0 "bot-1" "15550001" "wf-1" "plan" ∅ false WHATSAPP.

Definition with_workflow (w : World) : World :=
  mkWorld (bot_settings w) (business_services w) (business_time_slots w) (bookings w)
    (booking_conversations w) [pricing_workflow] (workflow_conversations w)
    (inquiries w) (bot_media w) (messages w) (wa_up w) (ws_state w) (outbox w) (calls w).

Definition in_workflow : World :=
  set_workflow_conversations (fun _ => [asked_plan])
    (with_workflow (salon_with (settings_with true true))).

(** On the example the conversation is moved to the next step, whose
    prompt is sent, and nothing is collected; a matched answer moves it
    the same way and collects the value. *)
Example unmatched_option_outcome :
  List.map (fun c => (wc_current_step_id c, map_to_list (wc_state c), wc_is_completed c))
    (workflow_conversations
       (exec (continueConversation phone_adapter "maybe" asked_plan 60000) in_workflow))
  = [("email", [], false)]
  /\ outbox (exec (continueConversation phone_adapter "maybe" asked_plan 60000) in_workflow)
     = [DText "15550001" (Text "Your email?")]
  /\ List.map (fun c => (wc_current_step_id c, map_to_list (wc_state c), wc_is_completed c))
       (workflow_conversations
          (exec (continueConversation phone_adapter "2" asked_plan 60000) in_workflow))
     = [("email", [("plan", "premium")], false)].
Proof.
  split; [vm_compute; reflexivity|].
  split; vm_compute; reflexivity.
Qed.

(** The sessions of a user that are not completed, of both kinds. *)
Definition active_sessions (botId userKey : string) (w : World) : nat :=
  length (active_rows botId userKey w)
  + length (List.filter (is_active_convo botId userKey) (workflow_conversations w)).

(** A web user in the middle of a booking conversation. *)
Definition web_booking : World :=
  exec (handleWebMessage "session-1" "bot-1" "biz-1" "I want an appointment" 0)
    (with_workflow (salon_with (settings_with true true))).

(** A phone user in the middle of a workflow conversation. *)
Definition phone_workflow : World :=
  exec (handleIncomingMessage "bot-1" "biz-1" "15550001" "pricing please" 0)
    (with_workflow (salon_with (settings_with true true))).

(** C2 at two failing inputs. On the web router a message that matches
    a workflow trigger arrives during a booking conversation: the
    workflow engine is tried first and starts a workflow conversation
    beside the booking conversation. On the phone router a message with
    a booking keyword arrives during a workflow conversation: the
    booking check comes first and starts a booking conversation beside
    the workflow conversation. *)
Theorem two_active_sessions :
  active_sessions "bot-1" "session-1" web_booking = 1%nat
  /\ active_sessions "bot-1" "session-1"
       (exec (handleWebMessage "session-1" "bot-1" "biz-1" "pricing" 60000) web_booking)
     = 2%nat
  /\ active_sessions "bot-1" "15550001" phone_workflow = 1%nat
  /\ active_sessions "bot-1" "15550001"
       (exec (handleIncomingMessage "bot-1" "biz-1" "15550001" "book" 60000) phone_workflow)
     = 2%nat.
Proof.
  split; [vm_compute; reflexivity|].
  split; [vm_compute; reflexivity|].
  split; vm_compute; reflexivity.
Qed.

(** A workflow whose first step hands over to the booking flow. *)
Definition handover_workflow : Workflow :=
  mkWorkflow "wf-2" "bot-1" true true (Some ["visit"])
    [mkStep (Some "go") START_BOOKING None None None None None] false.

Definition with_handover : World :=
  mkWorld [settings_with true true] [] [] [] [] [handover_workflow] [] [] [] []
    true WS_OPEN [] [].

(** On the [start_booking] step the workflow conversation is completed
    and the booking conversation is the only active session. *)
Example start_booking_hands_over :
  let w := exec (handleIncomingMessage "bot-1" "biz-1" "15550001" "a visit" 0)
             with_handover in
  List.map wc_is_completed (workflow_conversations w) = [true]
  /\ List.map bc_is_completed (booking_conversations w) = [false]
  /\ active_sessions "bot-1" "15550001" w = 1%nat.
Proof.
  cbv zeta. split; [vm_compute; reflexivity|].
  split; vm_compute; reflexivity.
Qed.


End Conversations.

(** ** Replies that are numbers but not whole *)

Section FractionalReplies.
Import JS BookingValidator Data World Adapter BookingStateManager WorkflowEngine Dispatch.

(** [Number] and [String] on the inputs of the examples, with the one
    decimal among them: [Number("1.5")] is 1.5 and [String(0.5)] is
    ["0.5"]. *)
Definition decimal_number : JsNumber := {|
  Number := fun s =>
    if String.eqb s "1.5" then Some (3 # 2)%Q
    else if all_digits s then Some (inject_Z (parseInt s))
    else if nonEmpty s then None else Some 0%Q;
  numberToString := fun q =>
    if Qeq_bool q (1 # 2) then "0.5" else pretty (Qfloor q);
|}.

#[local] Existing Instance week_calendar.
#[local] Existing Instance decimal_number.
#[local] Existing Instance echo_assistant.



End FractionalReplies.

(** ** The order of the dispatch *)

Section DispatchOrder.
Import JS BookingValidator Data World Adapter BookingStateManager WorkflowEngine Dispatch.
Context `{Calendar} `{JsNumber} `{Assistant}.

(** Two worlds that differ at most in the message log and in what the
    transports have delivered. *)
Definition quiet (w w' : World) : Prop :=
  calls w' = calls w
  /\ workflow_conversations w' = workflow_conversations w
  /\ booking_conversations w' = booking_conversations w
  /\ bot_media w' = bot_media w
  /\ wa_up w' = wa_up w
  /\ ws_state w' = ws_state w.

Lemma quiet_refl w : quiet w w.
Proof. repeat split. Qed.




Lemma sendText_quiet_any (ad : Adapter) (m : Msg) (md : option string) (w : World) :
  quiet w (snd (sendText ad m md w)).
Proof.
  rewrite sendText_unfold. destruct (transport_returns ad w); [|apply quiet_refl].
  destruct (channel ad), (ws_state w); repeat split.
Qed.








(** The reads of the routers, as functions of the world. *)
Definition booking_on (botId : string) (w : World) : bool :=
  match settings_of botId w with
  | Some s => match booking_enabled s with Some true => true | _ => false end
  | None => false
  end.

Definition booking_active (botId user : string) (w : World) : bool :=
  match single (active_rows botId user w) with
  | Some _ => true
  | None => false
  end.

Definition booking_keywords (botId : string) (w : World) : list string :=
  match settings_of botId w with
  | Some s => match booking_trigger_keywords s with
              | Some ks => ks
              | None => BookingService.default_keywords
              end
  | None => BookingService.default_keywords
  end.

Lemma isBookingEnabled_reads (botId : string) (w : World) :
  BookingService.isBookingEnabled botId w = (Ok (booking_on botId w), w).
Proof. reflexivity. Qed.

Lemma hasActiveConversation_reads (botId user : string) (w : World) :
  hasActiveConversation botId user w = (Ok (booking_active botId user w), w).
Proof. reflexivity. Qed.

Lemma getBookingKeywords_reads (botId : string) (w : World) :
  BookingService.getBookingKeywords botId w = (Ok (booking_keywords botId w), w).
Proof. reflexivity. Qed.




End DispatchOrder.

Section DispatchExamples.
Import JS BookingValidator Data World Adapter BookingStateManager WorkflowEngine Dispatch.
#[local] Existing Instance week_calendar.
#[local] Existing Instance digits_number.
#[local] Existing Instance echo_assistant.

Definition open_for_business : World :=
  with_workflow (salon_with (settings_with true true)).

(** The same bot with the workflow engine switched off. *)
Definition workflows_off : World :=
  with_workflow
    (salon_with (mkSettings "bot-1" (Some true) None None (Some true) (Some true)
                   (Some false) None)).


(** The outcomes on the two worlds: with the engine on, the workflow
    conversation and no booking conversation; with it off, the booking
    conversation and no workflow conversation. *)
Example web_dispatch_outcomes :
  (List.map wc_workflow_id
     (workflow_conversations
        (exec (handleWebMessage "session-1" "bot-1" "biz-1" "pricing of a booking" 0)
           open_for_business)),
   List.map bc_current_step
     (booking_conversations
        (exec (handleWebMessage "session-1" "bot-1" "biz-1" "pricing of a booking" 0)
           open_for_business)))
  = (["wf-1"], [])
  /\ (List.map wc_workflow_id
        (workflow_conversations
           (exec (handleWebMessage "session-1" "bot-1" "biz-1" "pricing of a booking" 0)
              workflows_off)),
      List.map bc_current_step
        (booking_conversations
           (exec (handleWebMessage "session-1" "bot-1" "biz-1" "pricing of a booking" 0)
              workflows_off)))
     = ([], [COLLECTING_NAME]).
Proof. split; vm_compute; reflexivity. Qed.

End DispatchExamples.

(** * Further properties of the code *)

(** ** Normalisation of the input by the validators *)

Section Normalisation.
Import JS BookingValidator.

Lemma isWhiteSpace_toLowerChar (c : ascii) : isWhiteSpace (toLowerChar c) = isWhiteSpace c.
Proof. destruct c as [[] [] [] [] [] [] [] []]; vm_compute; reflexivity. Qed.

Lemma toLowerChar_idem (c : ascii) : toLowerChar (toLowerChar c) = toLowerChar c.
Proof. destruct c as [[] [] [] [] [] [] [] []]; vm_compute; reflexivity. Qed.

Lemma toLowerCase_idem (s : string) : toLowerCase (toLowerCase s) = toLowerCase s.
Proof. induction s as [|c s IH]; simpl; [reflexivity|]. rewrite toLowerChar_idem, IH. reflexivity. Qed.

Lemma trimStart_toLowerCase (s : string) : trimStart (toLowerCase s) = toLowerCase (trimStart s).
Proof.
  induction s as [|c s IH]; simpl; [reflexivity|].
  rewrite isWhiteSpace_toLowerChar. destruct (isWhiteSpace c); [exact IH | reflexivity].
Qed.

Lemma trimEnd_toLowerCase (s : string) : trimEnd (toLowerCase s) = toLowerCase (trimEnd s).
Proof.
  induction s as [|c s IH]; simpl; [reflexivity|].
  rewrite IH. destruct (trimEnd s) as [|d r]; simpl; [|reflexivity].
  rewrite isWhiteSpace_toLowerChar. destruct (isWhiteSpace c); reflexivity.
Qed.

Lemma trim_toLowerCase (s : string) : trim (toLowerCase s) = toLowerCase (trim s).
Proof. unfold trim. rewrite trimStart_toLowerCase. apply trimEnd_toLowerCase. Qed.

Lemma trimEnd_cons (c : ascii) (s : string) :
  trimEnd (String c s)
  = match trimEnd s with
    | EmptyString => if isWhiteSpace c then EmptyString else String c EmptyString
    | r' => String c r'
    end.
Proof. reflexivity. Qed.

Lemma trimEnd_idem (s : string) : trimEnd (trimEnd s) = trimEnd s.
Proof.
  induction s as [|c s IH]; [reflexivity|].
  rewrite trimEnd_cons. destruct (trimEnd s) as [|d r] eqn:E.
  - destruct (isWhiteSpace c) eqn:W; [reflexivity|].
    rewrite trimEnd_cons. simpl. rewrite W. reflexivity.
  - rewrite trimEnd_cons, IH. reflexivity.
Qed.

(** What [trimStart] leaves does not start with white space. *)
Definition starts_clean (s : string) : Prop :=
  match s with
  | EmptyString => True
  | String c _ => isWhiteSpace c = false
  end.

Lemma trimStart_clean (s : string) : starts_clean (trimStart s).
Proof.
  induction s as [|c s IH]; simpl; [exact I|].
  destruct (isWhiteSpace c) eqn:W; [exact IH | exact W].
Qed.

Lemma trimStart_of_clean (s : string) : starts_clean s -> trimStart s = s.
Proof. destruct s as [|c s]; simpl; [reflexivity|]. intros ->. reflexivity. Qed.

Lemma trimEnd_clean (s : string) : starts_clean s -> starts_clean (trimEnd s).
Proof.
  destruct s as [|c s]; [intros _; exact I|]. simpl. intros W.
  destruct (trimEnd s); [rewrite W|]; exact W.
Qed.

Lemma trim_idem (s : string) : trim (trim s) = trim s.
Proof.
  unfold trim.
  rewrite (trimStart_of_clean (trimEnd (trimStart s))).
  - apply trimEnd_idem.
  - apply trimEnd_clean, trimStart_clean.
Qed.

Lemma trim_clean (s : string) : starts_clean (trim s).
Proof. apply trimEnd_clean, trimStart_clean. Qed.

(** The transform [val.trim().toLowerCase()] of the schemas. *)
Lemma normal_form_lower (s : string) :
  toLowerCase (trim (toLowerCase s)) = toLowerCase (trim s).
Proof. rewrite trim_toLowerCase. apply toLowerCase_idem. Qed.

Lemma normal_form_trim (s : string) :
  toLowerCase (trim (trim s)) = toLowerCase (trim s).
Proof. rewrite trim_idem. reflexivity. Qed.

(** X1. The verdicts of [validateGender] and [validateConfirmation] do
    not depend on the case of the letters of the input nor on the white
    space around it. *)
Theorem verdict_ignores_case_and_padding (input : string) :
  validateGender (toLowerCase input) = validateGender input
  /\ validateGender (trim input) = validateGender input
  /\ validateConfirmation (toLowerCase input) = validateConfirmation input
  /\ validateConfirmation (trim input) = validateConfirmation input.
Proof.
  unfold validateGender, validateConfirmation.
  rewrite normal_form_lower, normal_form_trim. repeat split.
Qed.

Lemma all_chars_trimStart (p : ascii -> bool) (s : string) :
  all_chars p s = true -> all_chars p (trimStart s) = true.
Proof.
  induction s as [|c s IH]; simpl; [reflexivity|].
  intros Hp. apply andb_true_iff in Hp. destruct Hp as [Hc Hs].
  destruct (isWhiteSpace c); [auto|]. simpl. rewrite Hc, Hs. reflexivity.
Qed.

Lemma all_chars_trimEnd (p : ascii -> bool) (s : string) :
  all_chars p s = true -> all_chars p (trimEnd s) = true.
Proof.
  induction s as [|c s IH]; [reflexivity|].
  simpl all_chars at 1. intros Hp. apply andb_true_iff in Hp. destruct Hp as [Hc Hs].
  rewrite trimEnd_cons. specialize (IH Hs).
  destruct (trimEnd s) as [|d r].
  - destruct (isWhiteSpace c); simpl; [reflexivity|]. rewrite Hc. reflexivity.
  - simpl in *. rewrite Hc. exact IH.
Qed.

Lemma length_trimStart (s : string) : (String.length (trimStart s) <= String.length s)%nat.
Proof.
  induction s as [|c s IH]; simpl; [lia|]. destruct (isWhiteSpace c); simpl; lia.
Qed.

Lemma length_trimEnd (s : string) : (String.length (trimEnd s) <= String.length s)%nat.
Proof.
  induction s as [|c s IH]; [simpl; lia|]. rewrite trimEnd_cons.
  destruct (trimEnd s) as [|d r].
  - destruct (isWhiteSpace c); simpl; lia.
  - simpl in *. lia.
Qed.

(** X2. A name that [validateName] accepts is the input without the
    white space around it: it holds only characters of the class of the
    schema, it is trimmed, and it is at most 100 characters long. The
    minimum of two characters is checked on the raw input only. *)
Theorem accepted_name_is_trimmed (input value : string) :
  validateName input = Valid value ->
  value = trim input
  /\ trim value = value
  /\ all_chars isNameChar value = true
  /\ strlen value <= strlen input <= 100.
Proof.
  unfold validateName.
  destruct (strlen input <? 2) eqn:Hmin; [discriminate|].
  destruct (100 <? strlen input) eqn:Hmax; [discriminate|].
  destruct (name_regex input) eqn:Hre; simpl; [|discriminate].
  intros [= <-]. split; [reflexivity|]. split; [apply trim_idem|].
  unfold name_regex in Hre. apply andb_true_iff in Hre. destruct Hre as [_ Hre].
  split.
  - unfold trim. apply all_chars_trimEnd, all_chars_trimStart, Hre.
  - apply Z.ltb_ge in Hmax. split; [|exact Hmax].
    unfold strlen, trim.
    pose proof (length_trimEnd (trimStart input)). pose proof (length_trimStart input). lia.
Qed.

Lemma accepted_name_is_trimmed_witness :
  validateName "  Jane Doe " = Valid "Jane Doe"
  /\ "Jane Doe" = trim "  Jane Doe "
  /\ trim "Jane Doe" = "Jane Doe"
  /\ all_chars isNameChar "Jane Doe" = true
  /\ strlen "Jane Doe" <= strlen "  Jane Doe " <= 100.
Proof.
  split; [reflexivity|].
  apply (accepted_name_is_trimmed "  Jane Doe " "Jane Doe"). reflexivity.
Defined.

End Normalisation.

(** ** Routing of a turn *)

Section Routing.
Import JS BookingValidator Data World Adapter BookingStateManager BookingService.
Context `{Calendar}.

(** The word [cancel], in any case and with white space around it, is
    routed to [handleCancel] on every step: before [CONFIRMING] through
    the global check of [handleBookingMessage], in [CONFIRMING] as the
    negative answer of [handleConfirmation]. *)
Lemma cancel_routes_to_handleCancel (ad : Adapter) (msg : string) (st : ConversationState)
    (now : Z) :
  trim (toLowerCase msg) = "cancel" ->
  route ad msg st now = handleCancel ad.
Proof.
  intros Hc. unfold route. rewrite Hc.
  destruct (currentStep st); try reflexivity.
  simpl. unfold handleConfirmation, validateConfirmation.
  rewrite <- trim_toLowerCase, Hc. reflexivity.
Qed.

(** The text [handleGenderInput] validates: the numbers of the menu
    stand for its entries. *)
Definition gender_choice (message : string) : string :=
  let input := trim message in
  if String.eqb input "1" then "male"
  else if String.eqb input "2" then "female"
  else if String.eqb input "3" then "other"
  else input.

(** Whether the handler of the current step turns the reply down. *)
Definition rejected (ad : Adapter) (msg : string) (st : ConversationState) (now : Z)
    (w : World) : bool :=
  match currentStep st with
  | COLLECTING_NAME =>
      match validateName msg with Invalid _ => true | Valid _ => false end
  | COLLECTING_BOOKING_FOR =>
      match validateBookingFor msg with Invalid _ => true | Valid _ => false end
  | COLLECTING_GENDER =>
      match validateGender (gender_choice msg) with Invalid _ => true | Valid _ => false end
  | COLLECTING_SERVICE =>
      match validateServiceSelection msg with
      | Invalid _ => true
      | Valid value =>
          match active_services (getBusinessId ad) w with
          | [] => true
          | services =>
              match select_service (toLowerCase value) services with
              | None => true
              | Some _ => false
              end
          end
      end
  | COLLECTING_DATE =>
      match select_date (toLowerCase (trim msg)) now with
      | None => true
      | Some selectedDate => in_the_past selectedDate now
      end
  | COLLECTING_TIME =>
      match fetch_slots ad st w with
      | None => true
      | Some slots =>
          match select_time (trim msg) (available_slots slots) with
          | None => true
          | Some _ => false
          end
      end
  | CONFIRMING =>
      match validateConfirmation msg with Invalid _ => true | Valid _ => false end
  | _ => false
  end.

Lemma rejected_route (ad : Adapter) (msg : string) (st : ConversationState) (now : Z)
    (w : World) :
  trim (toLowerCase msg) <> "cancel" ->
  rejected ad msg st now w = true ->
  booking_conversations (snd (route ad msg st now w)) = booking_conversations w.
Proof.
  intros Hc. unfold route, rejected.
  destruct (String.eqb (trim (toLowerCase msg)) "cancel") eqn:E.
  { apply String.eqb_eq in E. contradiction. }
  cbn [andb].
  destruct (currentStep st); try discriminate.
  - unfold handleNameInput. destruct (validateName msg); [discriminate|].
    intros _. apply sendMessage_table.
  - unfold handleBookingForInput. destruct (validateBookingFor msg); [discriminate|].
    intros _. apply sendMessage_table.
  - unfold handleGenderInput. fold (gender_choice msg).
    destruct (validateGender (gender_choice msg)); [discriminate|].
    intros _. apply sendMessage_table.
  - unfold handleServiceInput.
    destruct (validateServiceSelection msg) as [value|]; [|intros _; apply sendMessage_table].
    unfold bind at 1, get at 1.
    destruct (active_services (getBusinessId ad) w) as [|s l];
      [intros _; apply sendMessage_table|].
    destruct (select_service (toLowerCase value) (s :: l)); [discriminate|].
    intros _. apply sendMessage_table.
  - unfold handleDateInput.
    destruct (select_date (toLowerCase (trim msg)) now) as [d|];
      [|intros _; apply sendMessage_table].
    intros ->. apply sendMessage_table.
  - unfold handleTimeInput. unfold bind at 1, get at 1.
    destruct (fetch_slots ad st w) as [slots|]; [|intros _; apply sendMessage_table].
    destruct (select_time (trim msg) (available_slots slots)); [discriminate|].
    intros _. apply sendMessage_table.
  - unfold handleConfirmation. destruct (validateConfirmation msg); [discriminate|].
    intros _. apply sendMessage_table.
Qed.

(** The verdict reads the services, the opening hours and the
    reservations only. *)
Lemma rejected_frame (ad : Adapter) (msg : string) (st : ConversationState) (now : Z)
    (w w' : World) :
  business_services w' = business_services w ->
  business_time_slots w' = business_time_slots w ->
  bookings w' = bookings w ->
  rejected ad msg st now w' = rejected ad msg st now w.
Proof.
  intros Hs Ht Hb. unfold rejected, active_services, fetch_slots,
    Sql.get_available_time_slots, Sql.time_config, Sql.booked_slots.
  rewrite Hs, Ht, Hb. reflexivity.
Qed.

(** X4. A turn whose reply the handler of the current step turns down
    changes nothing in the table of conversations but the expiry of the
    conversation of the user: the step and the collected data stay as
    they were, whatever the transport does. *)
Theorem rejected_reply_only_extends_expiry (ad : Adapter) (msg : string) (now : Z)
    (w : World) (r : BookingConversation) :
  active_rows (getBotId ad) (getUserKey ad) w = [r] ->
  parses (bc_conversation_state r) = true ->
  trim (toLowerCase msg) <> "cancel" ->
  rejected ad msg (mkState (bc_current_step r) (bc_conversation_state r)) now w = true ->
  booking_conversations (exec (handleBookingMessage ad msg now) w)
  = update_where (is_active_for (getBotId ad) (getUserKey ad))
      (set_expires (now + 30 * 60 * 1000)) (booking_conversations w).
Proof.
  intros Hrow Hparse Hc Hrej.
  unfold handleBookingMessage, exec. unfold bind at 1, record_call at 1, modify at 1.
  set (w0 := set_calls _ w).
  rewrite (bookingTurn_loaded ad msg now w0 w0
             (mkState (bc_current_step r) (bc_conversation_state r))
             (getOrCreateState_existing _ _ _ now w0 r Hrow Hparse)).
  set (w2 := set_booking_conversations _ w0).
  assert (Hrej2 : rejected ad msg (mkState (bc_current_step r) (bc_conversation_state r))
                    now w2 = true).
  { rewrite (rejected_frame ad msg _ now w w2); auto. }
  pose proof (rejected_route ad msg _ now w2 Hc Hrej2) as Ht.
  unfold try_catch.
  destruct (route ad msg _ now w2) as [[[]|e] w3]; simpl in Ht |- *.
  - rewrite Ht. reflexivity.
  - rewrite sendMessage_table, Ht. reflexivity.
Qed.

End Routing.

Section RoutingExamples.
Import JS BookingValidator Data World Adapter BookingStateManager BookingService.
#[local] Existing Instance week_calendar.

(** A conversation of the example user that waits for the gender. *)
Definition asked_gender : World :=
  set_booking_conversations
    (fun _ => [mkBC 0 "bot-1" "biz-1" "15550001"
                 (mkCollected (Some "Jane Doe") "15550001" (Some "self") None None None
                    None None None None)
                 COLLECTING_GENDER false 1800000])
    empty_world.

Lemma rejected_reply_only_extends_expiry_witness :
  List.map (fun r => (bc_current_step r, bc_expires_at r))
    (booking_conversations
       (exec (handleBookingMessage phone_adapter "maybe" 60000) asked_gender))
  = [(COLLECTING_GENDER, 1860000)].
Proof.
  rewrite (rejected_reply_only_extends_expiry phone_adapter "maybe" 60000 asked_gender
             (mkBC 0 "bot-1" "biz-1" "15550001"
                (mkCollected (Some "Jane Doe") "15550001" (Some "self") None None None
                   None None None None)
                COLLECTING_GENDER false 1800000));
    [reflexivity | reflexivity | reflexivity | discriminate | reflexivity].
Defined.

End RoutingExamples.

(** ** Every turn of the booking conversation is answered *)

Section Replies.
Import JS BookingValidator Data World Adapter BookingStateManager BookingService.
Context `{Calendar}.
Variable ad : Adapter.

(** Between two worlds the transports are as they were and the log of
    messages has grown by texts sent through the adapter. *)
Definition replies_logged (w w' : World) : Prop :=
  wa_up w' = wa_up w /\ ws_state w' = ws_state w
  /\ exists l, messages w' = messages w ++ l
               /\ Forall (fun m => exists text, m = outbound_record ad MT_TEXT text None) l.

Lemma replies_logged_same (w w' : World) :
  wa_up w' = wa_up w -> ws_state w' = ws_state w -> messages w' = messages w ->
  replies_logged w w'.
Proof.
  intros Ha Hs Hm. split; [exact Ha|]. split; [exact Hs|].
  exists []. rewrite app_nil_r. split; [exact Hm | constructor].
Qed.

Lemma replies_logged_refl (w : World) : replies_logged w w.
Proof. apply replies_logged_same; reflexivity. Qed.

Lemma replies_logged_trans (w1 w2 w3 : World) :
  replies_logged w1 w2 -> replies_logged w2 w3 -> replies_logged w1 w3.
Proof.
  intros (Ha1 & Hs1 & l1 & Hm1 & Hl1) (Ha2 & Hs2 & l2 & Hm2 & Hl2).
  split; [congruence|]. split; [congruence|].
  exists (l1 ++ l2). split.
  - rewrite Hm2, Hm1, app_assoc. reflexivity.
  - apply Forall_app; split; assumption.
Qed.

Lemma replies_logged_transport (w w' : World) :
  replies_logged w w' -> transport_returns ad w' = transport_returns ad w.
Proof.
  intros (Ha & Hs & _). unfold transport_returns. rewrite Ha, Hs. reflexivity.
Qed.

Lemma replies_logged_length (w w' : World) :
  replies_logged w w' -> (length (messages w) <= length (messages w'))%nat.
Proof. intros (_ & _ & l & -> & _). rewrite length_app. lia. Qed.

(** A computation that at most logs replies. *)
Definition appends {A} (m : M A) : Prop :=
  forall w, replies_logged w (snd (m w)).

(** A computation that, when the transport is up and it returns, has
    logged a reply. *)
Definition answers {A} (m : M A) : Prop :=
  forall w,
    replies_logged w (snd (m w))
    /\ (transport_returns ad w = true ->
        forall a, fst (m w) = Ok a ->
                  (length (messages w) < length (messages (snd (m w))))%nat).

Lemma answers_appends {A} (m : M A) : answers m -> appends m.
Proof. intros Hm w. apply Hm. Qed.

Lemma appends_ret {A} (a : A) : appends (ret a).
Proof. intros w. apply replies_logged_refl. Qed.

Lemma appends_throw {A} (e : Exn) : appends (@throw A e).
Proof. intros w. apply replies_logged_refl. Qed.

Lemma appends_get : appends get.
Proof. intros w. apply replies_logged_refl. Qed.

Lemma appends_bind {A B} (m : M A) (k : A -> M B) :
  appends m -> (forall a, appends (k a)) -> appends (bind m k).
Proof.
  intros Hm Hk w. unfold bind. specialize (Hm w).
  destruct (m w) as [[a|e] w']; simpl in *; [|exact Hm].
  eapply replies_logged_trans; [exact Hm | apply Hk].
Qed.

Lemma appends_try_catch {A} (m : M A) (h : Exn -> M A) :
  appends m -> (forall e, appends (h e)) -> appends (try_catch m h).
Proof.
  intros Hm Hh w. unfold try_catch. specialize (Hm w).
  destruct (m w) as [[a|e] w']; simpl in *; [exact Hm|].
  eapply replies_logged_trans; [exact Hm | apply Hh].
Qed.

Lemma appends_update_rows p g : appends (update_rows p g).
Proof. intros w. apply replies_logged_same; reflexivity. Qed.

Lemma appends_update_completed p g : appends (update_completed p g).
Proof.
  intros w. unfold update_completed.
  destruct (unique_conversations _); apply replies_logged_same; reflexivity.
Qed.

Lemma appends_rpc_create_booking_safe (d : CollectedData) :
  appends (rpc_create_booking_safe ad d).
Proof.
  intros w. unfold rpc_create_booking_safe.
  destruct (booking_args ad d) as [a|]; [|apply replies_logged_refl].
  destruct (negb (sqlDate (Sql.p_booking_date a))); [apply replies_logged_refl|].
  unfold Sql.create_booking_safe, Sql.create_booking_check, Sql.create_booking_insert,
    Sql.insert_booking.
  destruct (negb (Sql.is_time_slot_available _ _ _ _)); [apply replies_logged_refl|].
  destruct (negb (Sql.service_exists _ _)); apply replies_logged_same; reflexivity.
Qed.

Lemma appends_getOrCreateState (botId businessId phone : string) (now : Z) :
  appends (getOrCreateState botId businessId phone now).
Proof.
  intros w. unfold getOrCreateState, bind, get, modify, ret, throw.
  destruct (single _); [destruct (parses _); apply replies_logged_refl|].
  destruct (existsb _ _); apply replies_logged_same; reflexivity.
Qed.

Lemma answers_sendMessage (m : Msg) : answers (sendMessage ad m).
Proof.
  intros w. unfold sendMessage. rewrite sendText_unfold.
  destruct (transport_returns ad w) eqn:Hup.
  - simpl. split.
    + split; [destruct (channel ad), (ws_state w) eqn:E; simpl; rewrite ?E; reflexivity|].
      split; [destruct (channel ad), (ws_state w) eqn:E; simpl; rewrite ?E; reflexivity|].
      exists [outbound_record ad MT_TEXT m None].
      split; [destruct (channel ad), (ws_state w); reflexivity|].
      constructor; [eexists; reflexivity | constructor].
    + intros _ a _.
      assert (messages
                (match channel ad, ws_state w with
                 | WEB, WS_ABSENT => w
                 | _, _ => set_outbox (fun l => l ++ [DText (getUserKey ad) m]) w
                 end) = messages w) as ->
        by (destruct (channel ad), (ws_state w); reflexivity).
      rewrite length_app. simpl. lia.
  - simpl. split; [apply replies_logged_refl|]. intros; discriminate.
Qed.

Lemma answers_throw {A} (e : Exn) : answers (@throw A e).
Proof. intros w. split; [apply replies_logged_refl|]. intros _ a Hok. discriminate. Qed.

(** The answer may come after a step that logs nothing, or before. *)
Lemma answers_bind_r {A B} (m : M A) (k : A -> M B) :
  appends m -> (forall a, answers (k a)) -> answers (bind m k).
Proof.
  intros Hm Hk w. unfold bind. specialize (Hm w).
  destruct (m w) as [[a|e] w'] eqn:E; simpl in *.
  - destruct (Hk a w') as [Hs Ha]. split.
    + eapply replies_logged_trans; eauto.
    + intros Hup b Hok.
      pose proof (replies_logged_length _ _ Hm).
      rewrite <- (replies_logged_transport _ _ Hm) in Hup.
      specialize (Ha Hup b Hok). lia.
  - split; [exact Hm|]. intros; discriminate.
Qed.

Lemma answers_bind_l {A B} (m : M A) (k : A -> M B) :
  answers m -> (forall a, appends (k a)) -> answers (bind m k).
Proof.
  intros Hm Hk w. unfold bind. destruct (Hm w) as [Hs Ha].
  destruct (m w) as [[a|e] w'] eqn:E; simpl in *.
  - split.
    + eapply replies_logged_trans; [exact Hs | apply Hk].
    + intros Hup b Hok. specialize (Ha Hup a eq_refl).
      pose proof (replies_logged_length _ _ (Hk a w')). lia.
  - split; [exact Hs|]. intros; discriminate.
Qed.

Ltac appends_all :=
  repeat
    match goal with
    | |- appends (World.bind _ _) => apply appends_bind; [| intros ?]
    | |- appends (World.try_catch _ _) => apply appends_try_catch; [| intros ?]
    | |- appends (World.ret _) => apply appends_ret
    | |- appends (World.throw _) => apply appends_throw
    | |- appends World.get => apply appends_get
    | |- appends (sendMessage _ _) => apply answers_appends, answers_sendMessage
    | |- appends (update_rows _ _) => apply appends_update_rows
    | |- appends (update_completed _ _) => apply appends_update_completed
    | |- appends (rpc_create_booking_safe _ _) => apply appends_rpc_create_booking_safe
    | |- appends (updateState _ _ _) => unfold updateState
    | |- appends (cancelConversation _ _) => unfold cancelConversation
    | |- appends (completeConversation _ _) => unfold completeConversation
    | |- appends (extendExpiry _ _ _ _) => unfold extendExpiry
    | |- appends (match ?x with _ => _ end) => destruct x eqn:?
    | |- appends (let _ := _ in _) => cbv zeta
    end.

Ltac answers_all :=
  lazymatch goal with
  | |- answers (World.bind _ _) =>
      first [ solve [apply answers_bind_r; [solve [appends_all] | intros ?; answers_all]]
            | solve [apply answers_bind_l; [answers_all | intros ?; solve [appends_all]]] ]
  | |- answers (sendMessage _ _) => apply answers_sendMessage
  | |- answers (match ?x with _ => _ end) => destruct x eqn:?; answers_all
  | |- answers (let _ := _ in _) => cbv zeta; answers_all
  | |- answers (handleCancel _) => unfold handleCancel; answers_all
  | |- answers (startBooking _ _) => unfold startBooking; answers_all
  | |- answers (showServices _ _) => unfold showServices; answers_all
  | |- answers (showAvailableDates _ _ _) => unfold showAvailableDates; answers_all
  | |- answers (showAvailableTimeSlots _ _ _) => unfold showAvailableTimeSlots; answers_all
  | |- answers (showConfirmation _ _) => unfold showConfirmation; answers_all
  | |- answers (handleNameInput _ _ _) => unfold handleNameInput; answers_all
  | |- answers (handleBookingForInput _ _ _) => unfold handleBookingForInput; answers_all
  | |- answers (handleGenderInput _ _ _) => unfold handleGenderInput; answers_all
  | |- answers (handleServiceInput _ _ _ _) => unfold handleServiceInput; answers_all
  | |- answers (handleDateInput _ _ _ _) => unfold handleDateInput; answers_all
  | |- answers (handleTimeInput _ _ _) => unfold handleTimeInput; answers_all
  | |- answers (handleConfirmation _ _ _ _) => unfold handleConfirmation; answers_all
  end.

Lemma route_answers (msg : string) (st : ConversationState) (now : Z) :
  answers (route ad msg st now).
Proof. unfold route. answers_all. Qed.

Lemma turn_body_answers (msg : string) (now : Z) :
  answers
    (bind (getOrCreateState (getBotId ad) (getBusinessId ad) (getUserKey ad) now)
       (fun state =>
          bind (extendExpiry (getBotId ad) (getUserKey ad) now 30)
            (fun _ => route ad msg state now))).
Proof.
  apply answers_bind_r; [apply appends_getOrCreateState | intros st].
  apply answers_bind_r; [unfold extendExpiry; apply appends_update_rows | intros _].
  apply route_answers.
Qed.

(** A turn on a world: it returns and has logged a reply when the
    transport is up, and logs nothing but replies. *)
Lemma bookingTurn_replies (msg : string) (now : Z) (w : World) :
  replies_logged w (snd (bookingTurn ad msg now w))
  /\ (transport_returns ad w = true ->
      fst (bookingTurn ad msg now w) = Ok tt
      /\ (length (messages w) < length (messages (snd (bookingTurn ad msg now w))))%nat).
Proof.
  unfold bookingTurn, try_catch.
  destruct (turn_body_answers msg now w) as [Hs Ha].
  destruct (bind _ _ w) as [[[]|e] w1] eqn:E; simpl in Hs, Ha |- *.
  - split; [exact Hs|].
    intros Hup. split; [reflexivity|].
    apply (Ha Hup tt eq_refl).
  - destruct (answers_sendMessage MsgSomethingWrong w1) as [Hs1 Ha1].
    split; [exact (replies_logged_trans _ _ _ Hs Hs1)|].
    intros Hup.
    assert (Hup1 : transport_returns ad w1 = true).
    { rewrite (replies_logged_transport _ _ Hs). exact Hup. }
    destruct (sendMessage_up ad MsgSomethingWrong w1 Hup1) as (w2 & Hsend & _).
    rewrite Hsend in Ha1 |- *. simpl in *.
    split; [reflexivity|].
    pose proof (replies_logged_length _ _ Hs). specialize (Ha1 Hup1 tt eq_refl). lia.
Qed.

Lemma handleBookingMessage_unfold (msg : string) (now : Z) (w : World) :
  handleBookingMessage ad msg now w
  = bookingTurn ad msg now
      (set_calls (fun l => l ++ [CallHandleBookingMessage (getBotId ad) (getUserKey ad)]) w).
Proof. reflexivity. Qed.

(** X5. Every turn of the booking conversation is answered: with the
    transport of the adapter up, [handleBookingMessage] returns and has
    logged at least one reply, whatever the store holds and whatever the
    user wrote; a failure inside the turn is answered with the generic
    message. In every case the turn leaves the transports as they were
    and adds nothing to the log of messages but texts it sent. *)
Theorem booking_turn_always_answers (msg : string) (now : Z) (w : World) :
  replies_logged w (exec (handleBookingMessage ad msg now) w)
  /\ (transport_returns ad w = true ->
      result (handleBookingMessage ad msg now) w = Ok tt
      /\ (length (messages w)
          < length (messages (exec (handleBookingMessage ad msg now) w)))%nat).
Proof.
  unfold exec, result. rewrite handleBookingMessage_unfold.
  set (w0 := set_calls _ w).
  destruct (bookingTurn_replies msg now w0) as [Hs Ha].
  split.
  - refine (replies_logged_trans _ _ _ _ Hs).
    apply replies_logged_same; reflexivity.
  - intros Hup. apply (Ha Hup).
Qed.

End Replies.

Section RepliesExamples.
Import JS BookingValidator Data World Adapter BookingStateManager BookingService.
#[local] Existing Instance week_calendar.

(** The statement on a reply that is turned down, on the phone channel
    with the socket up. *)
Lemma booking_turn_always_answers_witness :
  transport_returns phone_adapter asked_gender = true
  /\ result (handleBookingMessage phone_adapter "maybe" 60000) asked_gender = Ok tt
  /\ (length (messages asked_gender)
      < length (messages (exec (handleBookingMessage phone_adapter "maybe" 60000)
                            asked_gender)))%nat.
Proof.
  split; [reflexivity|].
  destruct (booking_turn_always_answers phone_adapter "maybe" 60000 asked_gender) as [_ Hup].
  apply Hup. reflexivity.
Defined.

End RepliesExamples.

(** ** One active conversation for a user *)

Section OneActive.
Import JS BookingValidator Data World Adapter BookingStateManager BookingService.
Context `{Calendar}.

(** The same customer's row, not reopened. *)
Definition never_reopens (r r' : BookingConversation) : Prop :=
  bc_bot_id r' = bc_bot_id r /\ bc_customer_phone r' = bc_customer_phone r
  /\ (bc_is_completed r = true -> bc_is_completed r' = true).

Lemma never_reopens_refl r : never_reopens r r.
Proof. repeat split; auto. Qed.

Lemma never_reopens_trans a b c :
  never_reopens a b -> never_reopens b c -> never_reopens a c.
Proof.
  unfold never_reopens. intros (?&?&?) (?&?&?). repeat split; try congruence; auto.
Qed.

Lemma active_shrinks (botId phone : string) (l l' : list BookingConversation) :
  Forall2 never_reopens l l' ->
  (length (List.filter (is_active_for botId phone) l')
   <= length (List.filter (is_active_for botId phone) l))%nat.
Proof.
  induction 1 as [|r r' l l' (Hb & Hp & Hc) _ IH]; simpl; [lia|].
  assert (Himp : is_active_for botId phone r' = true -> is_active_for botId phone r = true).
  { unfold is_active_for. rewrite Hb, Hp.
    destruct (String.eqb (bc_bot_id r) botId && String.eqb (bc_customer_phone r) phone);
      simpl; [|discriminate].
    destruct (bc_is_completed r); [rewrite (Hc eq_refl); discriminate | reflexivity]. }
  destruct (is_active_for botId phone r'), (is_active_for botId phone r); simpl;
    first [lia | specialize (Himp eq_refl); discriminate].
Qed.

(** A row that the unique constraint lets in as an active row of a
    customer finds no active row of that customer. *)
Lemma no_same_key_no_active (row : BookingConversation) (tbl : list BookingConversation) :
  bc_is_completed row = false ->
  existsb (same_key row) tbl = false ->
  List.filter (is_active_for (bc_bot_id row) (bc_customer_phone row)) tbl = [].
Proof.
  intros Hrow. induction tbl as [|r tbl IH]; simpl; [reflexivity|].
  intros Hex. apply orb_false_iff in Hex. destruct Hex as [Hr Hrest].
  rewrite (IH Hrest).
  unfold same_key in Hr. unfold is_active_for. rewrite Hrow in Hr.
  rewrite (String.eqb_sym (bc_bot_id r)), (String.eqb_sym (bc_customer_phone r)).
  destruct (String.eqb (bc_bot_id row) (bc_bot_id r)); simpl in *; [|reflexivity].
  destruct (String.eqb (bc_customer_phone row) (bc_customer_phone r)); simpl in *;
    [|reflexivity].
  destruct (bc_is_completed r); simpl in *; [reflexivity | discriminate].
Qed.

(** What [getOrCreateState] does to the table: nothing, or the insert of
    an active row for a customer who has none. *)
Lemma getOrCreateState_table (botId businessId phone : string) (now : Z) (w : World) :
  booking_conversations (snd (getOrCreateState botId businessId phone now w))
  = booking_conversations w
  \/ exists row,
       booking_conversations (snd (getOrCreateState botId businessId phone now w))
       = booking_conversations w ++ [row]
       /\ is_active_for botId phone row = true
       /\ active_rows botId phone w = [].
Proof.
  unfold getOrCreateState, bind, get.
  destruct (single (active_rows botId phone w)); [destruct (parses _); left; reflexivity|].
  destruct (existsb _ _) eqn:Hex; [left; reflexivity|].
  right. eexists. split; [reflexivity|]. split.
  - unfold is_active_for. simpl. rewrite !String.eqb_refl. reflexivity.
  - apply no_same_key_no_active in Hex; [exact Hex | reflexivity].
Qed.

Lemma is_active_for_inj (b u b' u' : string) (row : BookingConversation) :
  is_active_for b u row = true -> is_active_for b' u' row = true -> b' = b /\ u' = u.
Proof.
  unfold is_active_for. intros H1 H2.
  apply andb_true_iff in H1. destruct H1 as [H1 _].
  apply andb_true_iff in H1. destruct H1 as [Hb Hu].
  apply andb_true_iff in H2. destruct H2 as [H2 _].
  apply andb_true_iff in H2. destruct H2 as [Hb' Hu'].
  apply String.eqb_eq in Hb, Hu, Hb', Hu'. split; congruence.
Qed.

Lemma turn_rest_respects (ad : Adapter) (msg : string) (now : Z) (st : ConversationState) :
  respects never_reopens
    (try_catch
       (bind (extendExpiry (getBotId ad) (getUserKey ad) now 30)
          (fun _ => route ad msg st now))
       (fun _ => sendMessage ad MsgSomethingWrong)).
Proof.
  pose proof never_reopens_refl as Hr. pose proof never_reopens_trans as Ht.
  apply respects_try_catch; [exact Ht | | intros e; apply respects_sendMessage; exact Hr].
  apply respects_bind; [exact Ht | | intros _].
  - unfold extendExpiry. apply respects_update_rows; [exact Hr|].
    intros r _. repeat split; auto.
  - apply route_respects; auto; intros; repeat split; auto.
Qed.

(** X6. A turn of the booking conversation leaves no customer with more
    than one active conversation who had at most one: the only insert is
    that of [getOrCreateState] for a customer without an active row, and
    no handler reopens a completed row or moves a row to another
    customer. *)
Theorem turn_keeps_one_active (ad : Adapter) (msg : string) (now : Z) (w : World)
    (botId phone : string) :
  (length (active_rows botId phone w) <= 1)%nat ->
  (length (active_rows botId phone (exec (handleBookingMessage ad msg now) w)) <= 1)%nat.
Proof.
  intros Hone.
  assert (Hcall : handleBookingMessage ad msg now w
                  = bookingTurn ad msg now
                      (set_calls (fun l => l ++ [CallHandleBookingMessage (getBotId ad)
                                                   (getUserKey ad)]) w))
    by reflexivity.
  unfold exec. rewrite Hcall. clear Hcall.
  set (w0 := set_calls _ w).
  unfold bookingTurn. rewrite try_catch_bind.
  pose proof (getOrCreateState_table (getBotId ad) (getBusinessId ad) (getUserKey ad)
                now w0) as Htbl.
  destruct (getOrCreateState _ _ _ now w0) as [[st|e] w1]; simpl in Htbl.
  - pose proof (turn_rest_respects ad msg now st w1) as Hrest.
    apply (active_shrinks botId phone) in Hrest.
    unfold active_rows. etransitivity; [exact Hrest|].
    destruct Htbl as [-> | (row & -> & Hact & Hnone)]; [exact Hone|].
    rewrite List.filter_app, length_app. simpl.
    destruct (is_active_for botId phone row) eqn:Hrow; simpl; [|unfold active_rows in Hone; simpl; lia].
    destruct (is_active_for_inj _ _ _ _ _ Hact Hrow) as [-> ->].
    unfold active_rows in Hnone. simpl in Hnone. rewrite Hnone. simpl. lia.
  - unfold active_rows. rewrite sendMessage_table.
    destruct Htbl as [-> | (row & -> & Hact & Hnone)]; [exact Hone|].
    rewrite List.filter_app, length_app. simpl.
    destruct (is_active_for botId phone row) eqn:Hrow; simpl; [|unfold active_rows in Hone; simpl; lia].
    destruct (is_active_for_inj _ _ _ _ _ Hact Hrow) as [-> ->].
    unfold active_rows in Hnone. simpl in Hnone. rewrite Hnone. simpl. lia.
Qed.

End OneActive.

Section OneActiveExamples.
Import JS BookingValidator Data World Adapter BookingStateManager BookingService.
#[local] Existing Instance week_calendar.

Lemma turn_keeps_one_active_witness :
  (length (active_rows "bot-1" "15550001"
             (exec (handleBookingMessage phone_adapter "female" 60000) asked_gender))
   <= 1)%nat.
Proof.
  apply (turn_keeps_one_active phone_adapter "female" 60000 asked_gender "bot-1" "15550001").
  vm_compute. apply le_n.
Defined.

End OneActiveExamples.

(** ** The store of conversations *)

Section ConversationStore.
Import JS BookingValidator Data World Adapter BookingStateManager StateQueries.

(** X7. [getOrCreateState] creates at most once: a second call finds
    the conversation the first one returned, returns the same state and
    writes nothing. *)
Theorem getOrCreateState_again (botId businessId phone : string) (now now' : Z)
    (w w1 : World) (st : ConversationState) :
  getOrCreateState botId businessId phone now w = (Ok st, w1) ->
  getOrCreateState botId businessId phone now' w1 = (Ok st, w1).
Proof.
  unfold getOrCreateState at 1. unfold bind at 1, get at 1.
  destruct (single (active_rows botId phone w)) as [existing|] eqn:Hs.
  - destruct (parses (bc_conversation_state existing)) eqn:Hp; [|discriminate].
    intros [= <- <-].
    apply getOrCreateState_existing; [|exact Hp].
    unfold single in Hs. destruct (active_rows botId phone w) as [|x [|y l]];
      inversion Hs; reflexivity.
  - destruct (existsb _ _) eqn:Hex; [discriminate|].
    unfold bind, modify, ret. intros [= <- <-].
    apply no_same_key_no_active in Hex; [|reflexivity]. simpl in Hex.
    apply (getOrCreateState_existing botId businessId phone now' _
             (mkBC (length (booking_conversations w)) botId businessId phone
                (initial_data phone) IDLE false (now + thirty_minutes))); [|reflexivity].
    unfold active_rows. simpl. rewrite List.filter_app, Hex. simpl.
    unfold is_active_for. simpl. rewrite !String.eqb_refl. reflexivity.
Qed.

Lemma filter_update_where (p : BookingConversation -> bool)
    (f : BookingConversation -> BookingConversation) (tbl : list BookingConversation) :
  (forall r, p (f r) = p r) ->
  List.filter p (update_where p f tbl) = List.map f (List.filter p tbl).
Proof.
  intros Hf. induction tbl as [|r tbl IH]; simpl; [reflexivity|].
  destruct (p r) eqn:Hp; simpl.
  - rewrite Hf, Hp, IH. reflexivity.
  - rewrite Hp. exact IH.
Qed.

(** X8. What [updateState] stores is what the next turn loads: after
    the update of the one active conversation of a customer,
    [getOrCreateState] returns the state that was written when it passes
    the schema, and throws the schema error when it does not. *)
Theorem stored_state_is_loaded (botId businessId phone : string) (now : Z) (w : World)
    (r : BookingConversation) (st : ConversationState) :
  active_rows botId phone w = [r] ->
  getOrCreateState botId businessId phone now (exec (updateState botId phone st) w)
  = (if parses (collectedData st) then Ok st else Throw ZodError,
     exec (updateState botId phone st) w).
Proof.
  intros Hrow.
  assert (Hact : active_rows botId phone (exec (updateState botId phone st) w)
                 = [set_state (collectedData st) (currentStep st) r]).
  { unfold active_rows, exec, updateState, update_rows, modify. simpl.
    rewrite filter_update_where; [|intros x; reflexivity].
    unfold active_rows in Hrow. rewrite Hrow. reflexivity. }
  unfold getOrCreateState at 1. unfold bind at 1, get at 1. rewrite Hact. simpl.
  destruct st as [s d]. simpl. destruct (parses d); reflexivity.
Qed.

(** The key of the constraint [UNIQUE(bot_id, customer_phone,
    is_completed)]. *)
Definition key (r : BookingConversation) : string * string * bool :=
  (bc_bot_id r, bc_customer_phone r, bc_is_completed r).

Lemma same_key_iff (a b : BookingConversation) : same_key a b = true <-> key a = key b.
Proof.
  unfold same_key, key. rewrite !andb_true_iff, !String.eqb_eq, Bool.eqb_true_iff.
  split; [intros [[-> ->] ->]; reflexivity | intros [= -> -> ->]; auto].
Qed.

Lemma existsb_same_key (r : BookingConversation) (tbl : list BookingConversation) :
  existsb (same_key r) tbl = true <-> In (key r) (List.map key tbl).
Proof.
  rewrite existsb_exists, in_map_iff. split.
  - intros (x & Hin & Hk). exists x. apply same_key_iff in Hk. auto.
  - intros (x & Hk & Hin). exists x. split; [exact Hin|]. apply same_key_iff. auto.
Qed.

Lemma unique_conversations_NoDup (tbl : list BookingConversation) :
  unique_conversations tbl = true <-> List.NoDup (List.map key tbl).
Proof.
  induction tbl as [|r tbl IH]; simpl.
  - split; [constructor | reflexivity].
  - rewrite andb_true_iff, negb_true_iff, IH. split.
    + intros [Hex Hnd]. constructor; [|exact Hnd].
      intros Hin. apply existsb_same_key in Hin. congruence.
    + intros Hnd. inversion Hnd as [|? ? Hnin Hnd']; subst. split; [|exact Hnd'].
      destruct (existsb (same_key r) tbl) eqn:E; [|reflexivity].
      apply existsb_same_key in E. contradiction.
Qed.

(** Keys under a map that sends [a] to [c] and leaves the others. *)
Lemma NoDup_merge {K} `{EqDecision K} (a c : K) (h : K -> K) (ks : list K) :
  a <> c -> h a = c -> (forall k, k <> a -> h k = k) ->
  List.NoDup ks ->
  (List.NoDup (List.map h ks) <-> ~ (In a ks /\ In c ks)).
Proof.
  intros Hac Ha Hother. induction 1 as [|k ks Hnin Hnd IH]; simpl.
  - split; [intros _ [[] _] | constructor].
  - assert (Him : In (h k) (List.map h ks) <-> (k = a /\ In c ks) \/ (k = c /\ In a ks)).
    { rewrite in_map_iff. split.
      - intros (k' & Hk & Hin).
        assert (Hne : k' <> k) by (intros ->; contradiction).
        destruct (decide (k' = a)) as [->|Hk'].
        + right. split; [|exact Hin].
          rewrite Ha in Hk. destruct (decide (k = a)) as [->|Hka]; [contradiction|].
          rewrite (Hother k Hka) in Hk. congruence.
        + rewrite (Hother k' Hk') in Hk. left.
          destruct (decide (k = a)) as [->|Hka].
          * split; [reflexivity|]. rewrite Ha in Hk. subst k'. exact Hin.
          * rewrite (Hother k Hka) in Hk. contradiction.
      - intros [[-> Hin] | [-> Hin]].
        + exists c. split; [|exact Hin]. rewrite Ha. apply Hother. auto.
        + exists a. split; [|exact Hin]. rewrite Ha. symmetry. apply Hother. auto. }
    split.
    + intros Hnd'. inversion Hnd' as [|? ? Hnin' Hnd'']; subst.
      apply IH in Hnd''. rewrite Him in Hnin'.
      intros [[Hka|Hina] [Hkc|Hinc]].
      * congruence.
      * apply Hnin'. left. auto.
      * apply Hnin'. right. auto.
      * apply Hnd''. auto.
    + intros Hno. constructor.
      * rewrite Him. intros [[-> Hin] | [-> Hin]]; apply Hno; auto.
      * apply IH. intros [? ?]. apply Hno. auto.
Qed.

End ConversationStore.

(** ** Completing and cancelling a conversation *)

Section Completion.
Import JS BookingValidator Data World Adapter BookingStateManager StateQueries.

Variables (botId phone : string).

Definition active_key : string * string * bool := (botId, phone, false).
Definition completed_key : string * string * bool := (botId, phone, true).

(** What the update of [is_completed] does to the key of a row. *)
Definition completing (k : string * string * bool) : string * string * bool :=
  if decide (k = active_key) then completed_key else k.

Lemma is_active_for_key (r : BookingConversation) :
  is_active_for botId phone r = true <-> key r = active_key.
Proof.
  unfold is_active_for, key, active_key.
  rewrite !andb_true_iff, !String.eqb_eq, negb_true_iff.
  split; [intros [[-> ->] ->]; reflexivity | intros [= -> -> ->]; auto].
Qed.

Lemma key_update (s : option BookingState) (tbl : list BookingConversation) :
  List.map key (update_where (is_active_for botId phone) (set_completed s) tbl)
  = List.map completing (List.map key tbl).
Proof.
  unfold update_where. rewrite !List.map_map. apply List.map_ext. intros r.
  unfold completing. destruct (is_active_for botId phone r) eqn:Hact.
  - apply is_active_for_key in Hact. rewrite decide_True by exact Hact.
    unfold key, active_key in Hact. inversion Hact.
    unfold key, completed_key. simpl. congruence.
  - rewrite decide_False; [reflexivity|].
    intros Hk. apply is_active_for_key in Hk. congruence.
Qed.

Lemma active_rows_key (tbl : list BookingConversation) :
  List.filter (is_active_for botId phone) tbl <> [] <-> In active_key (List.map key tbl).
Proof.
  induction tbl as [|r tbl IH]; simpl.
  - split; [intros Hn; contradiction | intros []].
  - destruct (is_active_for botId phone r) eqn:Hact.
    + split; [|intros _; discriminate]. intros _. left. apply is_active_for_key, Hact.
    + rewrite IH. split; [auto|]. intros [Hk|Hin]; [|exact Hin].
      apply is_active_for_key in Hk. congruence.
Qed.

(** The customer has a conversation that is completed. *)
Definition has_completed (w : World) : Prop :=
  exists r, In r (booking_conversations w)
            /\ bc_bot_id r = botId /\ bc_customer_phone r = phone
            /\ bc_is_completed r = true.

Lemma has_completed_key (w : World) :
  has_completed w <-> In completed_key (List.map key (booking_conversations w)).
Proof.
  unfold has_completed. rewrite in_map_iff. split.
  - intros (r & Hin & Hb & Hp & Hc). exists r. split; [|exact Hin].
    unfold key, completed_key. rewrite Hb, Hp, Hc. reflexivity.
  - intros (r & Hk & Hin). exists r. unfold key, completed_key in Hk.
    inversion Hk. auto.
Qed.

Lemma completed_rows_inactive (s : option BookingState) (tbl : list BookingConversation) :
  List.filter (is_active_for botId phone)
    (update_where (is_active_for botId phone) (set_completed s) tbl) = [].
Proof.
  induction tbl as [|r tbl IH]; simpl; [reflexivity|].
  destruct (is_active_for botId phone r) eqn:Hact.
  - unfold is_active_for at 1. simpl. rewrite andb_false_r. exact IH.
  - rewrite Hact. exact IH.
Qed.

(** The update of [is_completed] on the active rows of the customer:
    accepted unless the customer has an active and a completed row. *)
Lemma update_completed_outcome (s : option BookingState) (w : World) :
  unique_conversations (booking_conversations w) = true ->
  (update_completed (is_active_for botId phone) (set_completed s) w
   = (Ok false,
      set_booking_conversations
        (fun _ => update_where (is_active_for botId phone) (set_completed s)
                    (booking_conversations w)) w)
   /\ ~ (active_rows botId phone w <> [] /\ has_completed w))
  \/ (update_completed (is_active_for botId phone) (set_completed s) w = (Ok true, w)
      /\ active_rows botId phone w <> [] /\ has_completed w).
Proof.
  intros Hu. apply unique_conversations_NoDup in Hu.
  pose proof (NoDup_merge active_key completed_key completing
                (List.map key (booking_conversations w))) as Hm.
  assert (Hmerge : List.NoDup (List.map completing (List.map key (booking_conversations w)))
                   <-> ~ (In active_key (List.map key (booking_conversations w))
                          /\ In completed_key (List.map key (booking_conversations w)))).
  { apply Hm; [discriminate | | | exact Hu].
    - unfold completing. rewrite decide_True; reflexivity.
    - intros k Hk. unfold completing. rewrite decide_False; auto. }
  clear Hm. rewrite <- (key_update s) in Hmerge.
  rewrite <- unique_conversations_NoDup in Hmerge.
  unfold update_completed, active_rows.
  destruct (unique_conversations
              (update_where (is_active_for botId phone) (set_completed s)
                 (booking_conversations w))) eqn:E.
  - left. split; [reflexivity|].
    rewrite active_rows_key, has_completed_key. apply Hmerge. reflexivity.
  - right. split; [reflexivity|].
    rewrite active_rows_key, has_completed_key.
    destruct (in_dec (fun x y => decide (x = y)) active_key
                (List.map key (booking_conversations w))) as [Ha|Ha];
      destruct (in_dec (fun x y => decide (x = y)) completed_key
                  (List.map key (booking_conversations w))) as [Hc|Hc];
      try (split; assumption);
      exfalso; assert (Hft : false = true) by (apply Hmerge; tauto); discriminate.
Qed.

(** X9. With the table within its constraint,
    [completeConversation] and [cancelConversation] either return, and
    the customer then has no active conversation, or throw and write
    nothing; they throw exactly when the customer has an active
    conversation and, from before, a completed one: the update would
    give the customer two completed rows. *)
Theorem completion_outcome (w : World) (m : M unit) :
  unique_conversations (booking_conversations w) = true ->
  m = completeConversation botId phone \/ m = cancelConversation botId phone ->
  (result m w = Ok tt
   /\ active_rows botId phone (exec m w) = []
   /\ ~ (active_rows botId phone w <> [] /\ has_completed w))
  \/ (result m w
      = Throw (StoreError "booking_conversations_bot_id_customer_phone_is_completed_key")
      /\ exec m w = w
      /\ active_rows botId phone w <> [] /\ has_completed w).
Proof.
  intros Hu [-> | ->]; unfold completeConversation, cancelConversation, result, exec, bind.
  - destruct (update_completed_outcome (Some COMPLETED) w Hu) as [[-> Hno] | [-> Hyes]];
      simpl; [left | right; auto].
    split; [reflexivity|]. split; [|exact Hno].
    unfold active_rows. simpl. apply completed_rows_inactive.
  - destruct (update_completed_outcome (Some IDLE) w Hu) as [[-> Hno] | [-> Hyes]];
      simpl; [left | right; auto].
    split; [reflexivity|]. split; [|exact Hno].
    unfold active_rows. simpl. apply completed_rows_inactive.
Qed.

End Completion.

Section Cancellation.
Import JS BookingValidator Data World Adapter BookingStateManager BookingService.
Context `{Calendar}.

Lemma key_set_expires (p : BookingConversation -> bool) (t : Z)
    (tbl : list BookingConversation) :
  List.map key (update_where p (set_expires t) tbl) = List.map key tbl.
Proof.
  unfold update_where. rewrite List.map_map. apply List.map_ext.
  intros r. destruct (p r); reflexivity.
Qed.


(** X3. A turn on the word [cancel], in any case and with white space
    around it, for a customer with one stored conversation, on any step
    of it and with the table within its unique constraint. When the
    customer has no completed conversation from before, the conversation
    is completed with the step [IDLE], the customer is left without an
    active conversation, and the text of the cancellation is the one
    reply logged. When the customer has a completed conversation, the
    update of [cancelConversation] is turned down by the constraint: the
    conversation stays active on its step, only its expiry is extended,
    and the reply is the generic failure text. With the transport
    failing no reply is logged in either case. *)
Theorem cancel_turn_outcome (ad : Adapter) (msg : string) (now : Z) (w : World)
    (r : BookingConversation) :
  trim (toLowerCase msg) = "cancel" ->
  unique_conversations (booking_conversations w) = true ->
  active_rows (getBotId ad) (getUserKey ad) w = [r] ->
  parses (bc_conversation_state r) = true ->
  (~ has_completed (getBotId ad) (getUserKey ad) w ->
   booking_conversations (exec (handleBookingMessage ad msg now) w)
   = update_where (is_active_for (getBotId ad) (getUserKey ad))
       (fun x => set_completed (Some IDLE) (set_expires (now + 30 * 60 * 1000) x))
       (booking_conversations w)
   /\ active_rows (getBotId ad) (getUserKey ad) (exec (handleBookingMessage ad msg now) w)
      = []
   /\ messages (exec (handleBookingMessage ad msg now) w)
      = messages w ++ (if transport_returns ad w then logged ad [MsgCancelled] else [])
   /\ outbox (exec (handleBookingMessage ad msg now) w)
      = outbox w ++ (if transport_returns ad w then delivered ad w [MsgCancelled] else []))
  /\ (has_completed (getBotId ad) (getUserKey ad) w ->
      booking_conversations (exec (handleBookingMessage ad msg now) w)
      = update_where (is_active_for (getBotId ad) (getUserKey ad))
          (set_expires (now + 30 * 60 * 1000)) (booking_conversations w)
      /\ active_rows (getBotId ad) (getUserKey ad) (exec (handleBookingMessage ad msg now) w)
         = [set_expires (now + 30 * 60 * 1000) r]
      /\ messages (exec (handleBookingMessage ad msg now) w)
         = messages w ++ (if transport_returns ad w
                          then logged ad [MsgSomethingWrong] else [])
      /\ outbox (exec (handleBookingMessage ad msg now) w)
         = outbox w ++ (if transport_returns ad w
                        then delivered ad w [MsgSomethingWrong] else [])).
Proof.
  intros Hc Hu Hrow Hparse.
  set (b := getBotId ad) in *. set (u := getUserKey ad) in *.
  set (T := now + 30 * 60 * 1000).
  set (w0 := set_calls (fun l => l ++ [CallHandleBookingMessage b u]) w).
  set (w1 := set_booking_conversations (update_where (is_active_for b u) (set_expires T)) w0).
  assert (Hrun : handleBookingMessage ad msg now w
                 = try_catch (handleCancel ad) (fun _ => sendMessage ad MsgSomethingWrong) w1).
  { rewrite handleBookingMessage_unfold. fold b u w0.
    rewrite (bookingTurn_loaded ad msg now w0 w0 _
               (getOrCreateState_existing _ _ _ now w0 r Hrow Hparse)).
    rewrite (cancel_routes_to_handleCancel ad msg _ now Hc). reflexivity. }
  assert (Hu1 : unique_conversations (booking_conversations w1) = true).
  { apply unique_conversations_NoDup. unfold w1. simpl. rewrite key_set_expires.
    apply unique_conversations_NoDup. exact Hu. }
  assert (Hact1 : active_rows b u w1 = [set_expires T r]).
  { unfold active_rows, w1. simpl.
    rewrite filter_update_where; [|intros x; reflexivity].
    unfold active_rows in Hrow. simpl in Hrow. rewrite Hrow. reflexivity. }
  assert (Hcomp1 : has_completed b u w1 <-> has_completed b u w).
  { rewrite !has_completed_key. unfold w1. simpl. rewrite key_set_expires. reflexivity. }
  assert (Hs1 : said ad [] w w1) by (apply said_nothing; reflexivity).
  assert (Hreply : forall m w2,
             said ad [] w w2 ->
             messages (snd (if transport_returns ad w
                            then (Ok tt, sent ad m w2)
                            else (@Throw unit TransportError, w2)))
             = messages w ++ (if transport_returns ad w then logged ad [m] else [])
             /\ outbox (snd (if transport_returns ad w
                             then (Ok tt, sent ad m w2)
                             else (@Throw unit TransportError, w2)))
                = outbox w ++ (if transport_returns ad w then delivered ad w [m] else [])).
  { intros m w2 Hs2. destruct (transport_returns ad w); cbn [snd].
    - destruct (said_trans ad [] [m] w w2 _ Hs2 (said_sent ad m w2)) as (Hm & Ho & _).
      split; assumption.
    - destruct Hs2 as (Hm & Ho & _). rewrite delivered_nil in Ho. split; assumption. }
  unfold exec. rewrite Hrun. clear Hrun.
  unfold try_catch, handleCancel, cancelConversation. fold b u. unfold bind.
  destruct (update_completed_outcome b u (Some IDLE) w1 Hu1) as [[Hrun Hno] | [Hrun Hyes]];
    rewrite Hrun; clear Hrun; unfold ret, throw; cbv beta iota.
  - assert (Hnone : ~ has_completed b u w).
    { intros Hh. apply Hno. split; [rewrite Hact1; discriminate | apply Hcomp1; exact Hh]. }
    split; [intros _ | intros Hh; contradiction].
    set (w2 := set_booking_conversations _ w1).
    assert (Hs2 : said ad [] w w2) by (apply said_nothing; reflexivity).
    assert (Hup2 : transport_returns ad w2 = transport_returns ad w)
      by exact (said_transport _ _ _ _ Hs2).
    assert (Htbl : booking_conversations w2
                   = update_where (is_active_for b u)
                       (fun x => set_completed (Some IDLE) (set_expires T x))
                       (booking_conversations w)).
    { unfold w2, w1. simpl. apply update_where_twice. intros x. reflexivity. }
    assert (Hnoact : active_rows b u w2 = []).
    { unfold active_rows, w2. simpl. apply completed_rows_inactive. }
    specialize (Hreply MsgCancelled w2 Hs2).
    destruct (transport_returns ad w) eqn:Hup.
    + rewrite (sendMessage_sent ad MsgCancelled w2 Hup2).
      cbn [snd] in *. unfold active_rows.
      rewrite (sent_store booking_conversations) by reflexivity.
      destruct Hreply as [Hm Ho]. auto.
    + rewrite (sendMessage_thrown ad MsgCancelled w2 Hup2).
      rewrite (sendMessage_thrown ad MsgSomethingWrong w2 Hup2).
      cbn [snd] in *. destruct Hreply as [Hm Ho]. auto.
  - destruct Hyes as [_ Hh1].
    split; [intros Hn; exfalso; apply Hn, Hcomp1, Hh1 | intros _].
    assert (Hup1 : transport_returns ad w1 = transport_returns ad w)
      by exact (said_transport _ _ _ _ Hs1).
    specialize (Hreply MsgSomethingWrong w1 Hs1).
    destruct (transport_returns ad w) eqn:Hup.
    + rewrite (sendMessage_sent ad MsgSomethingWrong w1 Hup1).
      cbn [snd] in *. unfold active_rows.
      rewrite (sent_store booking_conversations) by reflexivity.
      destruct Hreply as [Hm Ho]. auto.
    + rewrite (sendMessage_thrown ad MsgSomethingWrong w1 Hup1).
      cbn [snd] in *. destruct Hreply as [Hm Ho]. auto.
Qed.

End Cancellation.

Section Expiry.
Import JS BookingValidator Data World Adapter BookingStateManager StateQueries.

Lemma filter_update_other (p q : BookingConversation -> bool)
    (f : BookingConversation -> BookingConversation) (tbl : list BookingConversation) :
  (forall r, In r tbl -> p r = true -> q r = false) ->
  (forall r, p (f r) = true -> p r = true) ->
  List.filter p (update_where q f tbl) = List.filter p tbl.
Proof.
  intros Hpq Hf. induction tbl as [|r tbl IH]; simpl; [reflexivity|].
  rewrite IH by (intros x Hx; apply Hpq; right; exact Hx).
  destruct (q r) eqn:Hq; [|reflexivity].
  destruct (p r) eqn:Hp.
  - rewrite (Hpq r (or_introl eq_refl) Hp) in Hq. discriminate.
  - destruct (p (f r)) eqn:Hpf; [|reflexivity].
    rewrite (Hf r Hpf) in Hp. discriminate.
Qed.

Lemma extended_rows (botId phone : string) (t : Z) (tbl : list BookingConversation)
    (r : BookingConversation) :
  In r (update_where (is_active_for botId phone) (set_expires t) tbl) ->
  is_active_for botId phone r = true ->
  bc_expires_at r = t.
Proof.
  unfold update_where. rewrite in_map_iff. intros (x & Hx & _) Hact.
  destruct (is_active_for botId phone x) eqn:E; subst r; [reflexivity | congruence].
Qed.

(** X10. The expiry slides: once a turn has extended the expiry of the
    conversation of a customer at time [now], no sweep up to thirty
    minutes later completes it, and every later sweep finds it expired. *)
Theorem touched_conversation_outlives_sweep (botId phone : string) (now now' : Z)
    (w : World) :
  (now' <= now + 30 * 60 * 1000 ->
   active_rows botId phone
     (exec (cleanupExpiredConversations now') (exec (extendExpiry botId phone now 30) w))
   = active_rows botId phone (exec (extendExpiry botId phone now 30) w))
  /\ (now + 30 * 60 * 1000 < now' ->
      Forall (fun r => expired now' r = true)
        (active_rows botId phone (exec (extendExpiry botId phone now 30) w))).
Proof.
  unfold extendExpiry, exec, update_rows, modify. simpl.
  set (tbl1 := update_where (is_active_for botId phone) (set_expires (now + 30 * 60 * 1000))
                 (booking_conversations w)).
  split.
  - intros Hle. unfold cleanupExpiredConversations, bind, get, update_completed. simpl.
    fold tbl1.
    destruct (unique_conversations (update_where (expired now') (set_completed None) tbl1));
      simpl; [|reflexivity].
    unfold active_rows. simpl. fold tbl1.
    apply filter_update_other.
    + intros r Hin Hact. unfold expired.
      rewrite (extended_rows botId phone _ _ r Hin Hact).
      apply andb_false_iff. left. apply Z.ltb_ge. exact Hle.
    + intros r. unfold is_active_for. simpl. rewrite andb_false_r. discriminate.
  - intros Hlt. unfold active_rows. simpl. fold tbl1.
    apply List.Forall_forall. intros r Hr. apply filter_In in Hr. destruct Hr as [Hin Hact].
    unfold expired. rewrite (extended_rows botId phone _ _ r Hin Hact).
    apply andb_true_iff. split; [apply Z.ltb_lt; exact Hlt|].
    unfold is_active_for in Hact. apply andb_true_iff in Hact. apply Hact.
Qed.

(** X11. [getState] reads and never writes or throws. When it returns
    a state, [getOrCreateState] returns the same state and creates
    nothing; when it returns [null], [getOrCreateState] either creates a
    conversation or throws. *)
Theorem getState_reads_what_a_turn_loads (botId businessId phone : string) (now : Z)
    (w : World) :
  exec (getState botId phone) w = w
  /\ match result (getState botId phone) w with
     | Ok (Some st) => getOrCreateState botId businessId phone now w = (Ok st, w)
     | Ok None =>
         (exists e, result (getOrCreateState botId businessId phone now) w = Throw e)
         \/ exists row,
              booking_conversations (exec (getOrCreateState botId businessId phone now) w)
              = booking_conversations w ++ [row]
     | Throw _ => False
     end.
Proof.
  unfold getState, getOrCreateState, exec, result, try_catch, bind, get.
  destruct (single (active_rows botId phone w)) as [r|]; simpl.
  - destruct (parses (bc_conversation_state r)); simpl; split; try reflexivity.
    left. eexists. reflexivity.
  - split; [reflexivity|].
    destruct (existsb _ _); simpl; [left; eexists; reflexivity|].
    right. eexists. reflexivity.
Qed.

End Expiry.

Section StoreExamples.
Import JS BookingValidator Data World Adapter BookingStateManager StateQueries.

(** A customer with a cancelled conversation and a new one. *)
Definition returning_customer : World :=
  set_booking_conversations
    (fun _ => [mkBC 0 "bot-1" "biz-1" "15550001" (initial_data "15550001") IDLE true 1800000;
               mkBC 1 "bot-1" "biz-1" "15550001" (initial_data "15550001")
                 COLLECTING_NAME false 1920000])
    empty_world.

Lemma getOrCreateState_again_witness :
  getOrCreateState "bot-1" "biz-1" "15550001" 60000
    (exec (getOrCreateState "bot-1" "biz-1" "15550001" 0) empty_world)
  = (Ok (mkState IDLE (initial_data "15550001")),
     exec (getOrCreateState "bot-1" "biz-1" "15550001" 0) empty_world).
Proof.
  apply (getOrCreateState_again "bot-1" "biz-1" "15550001" 0 60000 empty_world).
  reflexivity.
Defined.

Lemma stored_state_is_loaded_witness :
  getOrCreateState "bot-1" "biz-1" "15550001" 60000
    (exec (updateState "bot-1" "15550001"
             (mkState COLLECTING_GENDER (initial_data "15550001"))) returning_customer)
  = (Ok (mkState COLLECTING_GENDER (initial_data "15550001")),
     exec (updateState "bot-1" "15550001"
             (mkState COLLECTING_GENDER (initial_data "15550001"))) returning_customer).
Proof.
  apply (stored_state_is_loaded "bot-1" "biz-1" "15550001" 60000 returning_customer
           (mkBC 1 "bot-1" "biz-1" "15550001" (initial_data "15550001")
              COLLECTING_NAME false 1920000)).
  reflexivity.
Defined.

(** The statement on the returning customer: the cancellation of the
    second conversation is turned down. *)
Lemma completion_outcome_witness :
  (result (cancelConversation "bot-1" "15550001") returning_customer = Ok tt
   /\ active_rows "bot-1" "15550001"
        (exec (cancelConversation "bot-1" "15550001") returning_customer) = []
   /\ ~ (active_rows "bot-1" "15550001" returning_customer <> []
         /\ has_completed "bot-1" "15550001" returning_customer))
  \/ (result (cancelConversation "bot-1" "15550001") returning_customer
      = Throw (StoreError "booking_conversations_bot_id_customer_phone_is_completed_key")
      /\ exec (cancelConversation "bot-1" "15550001") returning_customer
         = returning_customer
      /\ active_rows "bot-1" "15550001" returning_customer <> []
      /\ has_completed "bot-1" "15550001" returning_customer).
Proof.
  apply (completion_outcome "bot-1" "15550001" returning_customer);
    [reflexivity | right; reflexivity].
Defined.

Lemma touched_conversation_outlives_sweep_witness :
  active_rows "bot-1" "15550001"
    (exec (cleanupExpiredConversations 1860000)
       (exec (extendExpiry "bot-1" "15550001" 60000 30) returning_customer))
  = active_rows "bot-1" "15550001"
      (exec (extendExpiry "bot-1" "15550001" 60000 30) returning_customer)
  /\ Forall (fun r => expired 1860001 r = true)
       (active_rows "bot-1" "15550001"
          (exec (extendExpiry "bot-1" "15550001" 60000 30) returning_customer)).
Proof.
  split.
  - apply (touched_conversation_outlives_sweep "bot-1" "15550001" 60000 1860000
             returning_customer). lia.
  - apply (touched_conversation_outlives_sweep "bot-1" "15550001" 60000 1860001
             returning_customer). lia.
Defined.

End StoreExamples.

Section CancellationExamples.
Import JS BookingValidator Data World Adapter BookingStateManager BookingService.
#[local] Existing Instance week_calendar.

(** The statement on a first conversation, which is cancelled, and on
    the returning customer, whose second conversation stays active. *)
Lemma cancel_turn_outcome_witness :
  List.map (fun r => (bc_current_step r, bc_is_completed r))
    (booking_conversations
       (exec (handleBookingMessage phone_adapter "  CANCEL " 60000) asked_gender))
  = [(IDLE, true)]
  /\ List.map (fun r => (bc_current_step r, bc_is_completed r, bc_expires_at r))
       (booking_conversations
          (exec (handleBookingMessage phone_adapter "Cancel" 60000) returning_customer))
     = [(IDLE, true, 1800000); (COLLECTING_NAME, false, 1860000)]
  /\ List.map m_content
       (messages (exec (handleBookingMessage phone_adapter "Cancel" 60000) returning_customer))
     = [MsgSomethingWrong].
Proof.
  split; [|split].
  - destruct (cancel_turn_outcome phone_adapter "  CANCEL " 60000 asked_gender
                (mkBC 0 "bot-1" "biz-1" "15550001"
                   (mkCollected (Some "Jane Doe") "15550001" (Some "self") None None None
                      None None None None)
                   COLLECTING_GENDER false 1800000)
                eq_refl eq_refl eq_refl eq_refl) as [Hno _].
    destruct Hno as (Htbl & _).
    + intros (x & Hin & _ & _ & Hc). simpl in Hin. destruct Hin as [<-|[]]. discriminate.
    + rewrite Htbl. reflexivity.
  - destruct (cancel_turn_outcome phone_adapter "Cancel" 60000 returning_customer
                (mkBC 1 "bot-1" "biz-1" "15550001" (initial_data "15550001")
                   COLLECTING_NAME false 1920000)
                eq_refl eq_refl eq_refl eq_refl) as [_ Hyes].
    destruct Hyes as (Htbl & _).
    + eexists. split; [left; reflexivity|]. repeat split.
    + rewrite Htbl. reflexivity.
  - destruct (cancel_turn_outcome phone_adapter "Cancel" 60000 returning_customer
                (mkBC 1 "bot-1" "biz-1" "15550001" (initial_data "15550001")
                   COLLECTING_NAME false 1920000)
                eq_refl eq_refl eq_refl eq_refl) as [_ Hyes].
    destruct Hyes as (_ & _ & Hm & _).
    + eexists. split; [left; reflexivity|]. repeat split.
    + rewrite Hm. reflexivity.
Defined.

End CancellationExamples.

(** ** Reservations *)

Section Reservations.
Import BookingValidator Data World Sql.

Lemma same_slot_new (business date : string) (time : Z) (id : nat) (a : BookingArgs) :
  same_slot business date time (new_booking id a) = true ->
  business = p_business_id a /\ date = p_booking_date a /\ time = p_booking_time a.
Proof.
  unfold same_slot. simpl. rewrite !andb_true_iff, !String.eqb_eq, Z.eqb_eq.
  intros [[-> ->] ->]. auto.
Qed.

Lemma active_in_slot_new (id : nat) (a : BookingArgs) (tbl : list Booking) :
  active_in_slot (p_business_id a) (p_booking_date a) (p_booking_time a)
    (tbl ++ [new_booking id a])
  = active_in_slot (p_business_id a) (p_booking_date a) (p_booking_time a) tbl
    ++ [new_booking id a].
Proof.
  unfold active_in_slot. rewrite List.filter_app. simpl.
  unfold same_slot. simpl. rewrite !String.eqb_refl, Z.eqb_refl. reflexivity.
Qed.

Lemma taken_after_insert (id : nat) (a : BookingArgs) (tbl : list Booking) :
  is_time_slot_available (tbl ++ [new_booking id a])
    (p_business_id a) (p_booking_date a) (p_booking_time a) = false.
Proof.
  unfold is_time_slot_available. rewrite active_in_slot_new, length_app. simpl.
  apply Z.eqb_neq. lia.
Qed.

(** X12. [create_booking_safe], run on its own, succeeds exactly when
    the slot is free and the service exists. On success it adds one
    pending reservation with the arguments it was given and returns its
    id, after which the slot is taken and a second call for the slot
    fails; on failure it writes nothing and returns a message. *)
Theorem create_booking_safe_outcome (a : BookingArgs) (w : World) :
  let r := fst (create_booking_safe a w) in
  let w' := snd (create_booking_safe a w) in
  success r
  = is_time_slot_available (bookings w) (p_business_id a) (p_booking_date a)
      (p_booking_time a)
    && service_exists w (p_service_id a)
  /\ (success r = true ->
      booking_id r = Some (fresh_id (bookings w))
      /\ w' = set_bookings (fun l => l ++ [new_booking (fresh_id (bookings w)) a]) w
      /\ is_time_slot_available (bookings w') (p_business_id a) (p_booking_date a)
           (p_booking_time a) = false
      /\ forall a',
           p_business_id a' = p_business_id a ->
           p_booking_date a' = p_booking_date a ->
           p_booking_time a' = p_booking_time a ->
           success (fst (create_booking_safe a' w')) = false)
  /\ (success r = false ->
      w' = w /\ booking_id r = None /\ error_message r <> None).
Proof.
  cbv zeta.
  unfold create_booking_safe, create_booking_check, create_booking_insert, insert_booking.
  destruct (is_time_slot_available (bookings w) (p_business_id a) (p_booking_date a)
              (p_booking_time a)) eqn:Hav; simpl.
  2: { split; [reflexivity|]. split; [discriminate|]. intros _. repeat split. discriminate. }
  destruct (service_exists w (p_service_id a)) eqn:Hsv; simpl.
  2: { split; [reflexivity|]. split; [discriminate|]. intros _. repeat split. discriminate. }
  split; [reflexivity|]. split; [|discriminate]. intros _.
  split; [reflexivity|]. split; [reflexivity|].
  split; [apply taken_after_insert|].
  intros a' Hb Hd Ht. rewrite Hb, Hd, Ht. rewrite taken_after_insert. reflexivity.
Qed.

(** X13. [create_booking_safe] keeps the table of reservations within
    the unique index of [003_prevent_double_booking.sql]: if no slot
    holds two pending or confirmed reservations before the call, none
    does after it. *)
Theorem create_booking_safe_keeps_unique_slot (a : BookingArgs) (w : World) :
  unique_slot (bookings w) ->
  unique_slot (bookings (snd (create_booking_safe a w))).
Proof.
  intros Hu.
  unfold create_booking_safe, create_booking_check, create_booking_insert, insert_booking.
  destruct (is_time_slot_available (bookings w) (p_business_id a) (p_booking_date a)
              (p_booking_time a)) eqn:Hav; simpl; [|exact Hu].
  destruct (service_exists w (p_service_id a)); simpl; [|exact Hu].
  intros business date time. unfold active_in_slot. rewrite List.filter_app, length_app.
  simpl.
  destruct (same_slot business date time (new_booking (fresh_id (bookings w)) a)) eqn:Hs;
    simpl.
  - apply same_slot_new in Hs. destruct Hs as (-> & -> & ->).
    unfold is_time_slot_available in Hav. apply Z.eqb_eq in Hav.
    unfold active_in_slot in Hav. lia.
  - specialize (Hu business date time). unfold active_in_slot in Hu. lia.
Qed.

(** X14. The slots of a day lie within the opening hours: for a
    template whose times are times of day and whose slot duration is
    positive, [time_slots] gives a list, and each slot starts a whole
    number of durations after the opening time and ends by the closing
    time. *)
Theorem time_slots_within_hours (tc : TimeSlotConfig) :
  0 <= ts_start_time tc -> ts_end_time tc <= 86400 -> 0 < ts_slot_duration tc ->
  exists slots,
    time_slots tc = Some slots
    /\ Forall (fun t =>
                 ts_start_time tc <= t
                 /\ t + 60 * ts_slot_duration tc <= ts_end_time tc
                 /\ exists k, 0 <= k /\ t = ts_start_time tc + 60 * ts_slot_duration tc * k)
         slots.
Proof.
  intros Hstart Hend Hdur. unfold time_slots, generate_series.
  destruct (ts_slot_duration tc =? 0) eqn:Hz; [apply Z.eqb_eq in Hz; lia|].
  destruct (0 <? ts_slot_duration tc) eqn:Hp; [|apply Z.ltb_ge in Hp; lia].
  set (stop := Z.quot (ts_end_time tc - ts_start_time tc) 60 - ts_slot_duration tc).
  eexists. split; [reflexivity|].
  apply List.Forall_forall. intros t Ht.
  apply in_map_iff in Ht. destruct Ht as (n & <- & Hn).
  apply in_map_iff in Hn. destruct Hn as (k & <- & Hk).
  apply in_seq in Hk.
  destruct (stop <? 0) eqn:Hneg; [simpl in Hk; lia|].
  apply Z.ltb_ge in Hneg. rewrite Z.sub_0_r in Hk.
  assert (Hspan : 0 <= ts_end_time tc - ts_start_time tc).
  { destruct (Z_le_gt_dec 0 (ts_end_time tc - ts_start_time tc)) as [|Hlt]; [assumption|].
    exfalso.
    assert (Z.quot (ts_end_time tc - ts_start_time tc) 60 <= 0)
      by (apply Z.quot_le_upper_bound; lia).
    unfold stop in Hneg. lia. }
  assert (Hq : 60 * Z.quot (ts_end_time tc - ts_start_time tc) 60
               <= ts_end_time tc - ts_start_time tc).
  { rewrite Z.quot_div_nonneg by lia. apply Z.mul_div_le. lia. }
  assert (Hcount : Z.of_nat k <= stop / ts_slot_duration tc).
  { assert (0 <= stop / ts_slot_duration tc) by (apply Z.div_pos; lia). lia. }
  assert (Hk' : ts_slot_duration tc * Z.of_nat k <= stop).
  { etransitivity; [apply Z.mul_le_mono_nonneg_l; [lia | exact Hcount]|].
    apply Z.mul_div_le. lia. }
  assert (Hn0 : 0 <= ts_slot_duration tc * Z.of_nat k) by nia.
  rewrite Z.add_0_l. unfold stop in Hk'.
  rewrite Z.mod_small by lia.
  split; [lia|]. split; [lia|].
  exists (Z.of_nat k). split; [lia | ring].
Qed.

End Reservations.

Section ReservationsExamples.
Import BookingValidator Data World Sql.

(** A business with one service, open on Monday from 10:00 to 11:00 in
    slots of 30 minutes. *)
Definition parlour (tbl : list Booking) : World :=
  mkWorld [] [mkService "svc-1" "biz-1" "Haircut" (JNum 50000) (JNum 30) true 0]
    [mkTimeSlot "biz-1" 1 36000 39600 30 true] tbl [] [] [] [] [] [] true WS_OPEN [] [].

Definition haircut_at (time : Z) : BookingArgs :=
  mkArgs "biz-1" "bot-1" "Jane Doe" "15550001" "self" "female" "svc-1" "Haircut" 50000
    "2025-10-13" time 30 None.

Lemma create_booking_safe_outcome_witness :
  booking_id (fst (create_booking_safe (haircut_at 36000) (parlour []))) = Some 1%nat
  /\ snd (create_booking_safe (haircut_at 36000) (parlour []))
     = parlour [new_booking 1 (haircut_at 36000)]
  /\ is_time_slot_available
       (bookings (snd (create_booking_safe (haircut_at 36000) (parlour []))))
       "biz-1" "2025-10-13" 36000 = false
  /\ forall a',
       p_business_id a' = "biz-1" -> p_booking_date a' = "2025-10-13" ->
       p_booking_time a' = 36000 ->
       success (fst (create_booking_safe a'
                       (snd (create_booking_safe (haircut_at 36000) (parlour []))))) = false.
Proof.
  pose proof (create_booking_safe_outcome (haircut_at 36000) (parlour [])) as H.
  cbv zeta in H. destruct H as (_ & Hs & _). apply Hs. reflexivity.
Defined.

Lemma create_booking_safe_keeps_unique_slot_witness :
  unique_slot (bookings (snd (create_booking_safe (haircut_at 36000) (parlour [])))).
Proof.
  apply (create_booking_safe_keeps_unique_slot (haircut_at 36000) (parlour [])).
  intros business date time. simpl. lia.
Defined.

Lemma time_slots_within_hours_witness :
  exists slots,
    time_slots (mkTimeSlot "biz-1" 1 36000 39600 30 true) = Some slots
    /\ Forall (fun t =>
                 36000 <= t /\ t + 60 * 30 <= 39600
                 /\ exists k, 0 <= k /\ t = 36000 + 60 * 30 * k)
         slots.
Proof.
  apply (time_slots_within_hours (mkTimeSlot "biz-1" 1 36000 39600 30 true));
    simpl; lia.
Defined.

End ReservationsExamples.

(** ** Substrings *)

Section Substrings.
Import JS.

Lemma prefix_iff (t s : string) :
  String.prefix t s = true <-> exists post, s = (t ++ post)%string.
Proof.
  revert s. induction t as [|a t IH]; intros s.
  - destruct s; simpl; split; eauto.
  - destruct s as [|b s]; simpl.
    + split; [discriminate | intros [post Hp]; discriminate].
    + destruct (Ascii.ascii_dec a b) as [->|Hne].
      * rewrite IH. split; intros [post Hp]; exists post.
        -- rewrite Hp. reflexivity.
        -- change (String b s = String b (t ++ post)%string) in Hp. congruence.
      * split; [discriminate|]. intros [post Hp].
        change (String b s = String a (t ++ post)%string) in Hp. congruence.
Qed.

Lemma includes_unfold (s t : string) :
  includes s t
  = String.prefix t s || match s with EmptyString => false | String _ r => includes r t end.
Proof. destruct s; reflexivity. Qed.

(** [s.includes(t)] holds when [t] occurs in [s]. *)
Lemma includes_iff (s t : string) :
  includes s t = true <-> exists pre post, s = (pre ++ t ++ post)%string.
Proof.
  induction s as [|c s IH]; rewrite includes_unfold, orb_true_iff.
  - rewrite prefix_iff. split.
    + intros [[post Hp] | Hf]; [|discriminate]. exists EmptyString, post. exact Hp.
    + intros (pre & post & Hp). left. destruct pre as [|d pre].
      * exists post. exact Hp.
      * change (EmptyString = String d (pre ++ t ++ post)%string) in Hp. discriminate.
  - rewrite prefix_iff, IH. split.
    + intros [[post Hp] | (pre & post & Hp)].
      * exists EmptyString, post. exact Hp.
      * exists (String c pre), post. rewrite Hp. reflexivity.
    + intros (pre & post & Hp). destruct pre as [|d pre].
      * left. exists post. exact Hp.
      * right. exists pre, post.
        change (String c s = String d (pre ++ t ++ post)%string) in Hp. congruence.
Qed.

Lemma includes_empty (s : string) : includes s EmptyString = true.
Proof. apply includes_iff. exists EmptyString, s. reflexivity. Qed.

End Substrings.

(** ** Triggers and selections of the booking service *)

Section BookingFacts.
Import JS BookingValidator Data World Adapter BookingStateManager BookingService.
Context `{Calendar}.

(** X15. [isBookingTrigger] holds exactly when the lower-cased message
    contains the lower-cased form of one of the keywords. *)
Theorem isBookingTrigger_iff (message : string) (keywords : list string) :
  isBookingTrigger message keywords = true
  <-> exists keyword pre post,
        In keyword keywords
        /\ toLowerCase message = (pre ++ toLowerCase keyword ++ post)%string.
Proof.
  unfold isBookingTrigger. rewrite existsb_exists. split.
  - intros (k & Hin & Hk). apply includes_iff in Hk. destruct Hk as (pre & post & Hk).
    exists k, pre, post. auto.
  - intros (k & pre & post & Hin & Hk). exists k. split; [exact Hin|].
    apply includes_iff. eauto.
Qed.

(** X16. An empty keyword makes every message a trigger: of the
    booking flow when the list of booking keywords holds one, and of a
    workflow when its list of trigger keywords holds one. *)
Theorem empty_keyword_always_triggers (message : string) :
  (forall keywords, In EmptyString keywords -> isBookingTrigger message keywords = true)
  /\ (forall wf keywords,
        wf_keywords wf = Some keywords -> In EmptyString keywords ->
        WorkflowEngine.trigger_matches (toLowerCase message) wf = true).
Proof.
  split.
  - intros keywords Hin. unfold isBookingTrigger. apply existsb_exists.
    exists EmptyString. split; [exact Hin | apply includes_empty].
  - intros wf keywords Hk Hin. unfold WorkflowEngine.trigger_matches. rewrite Hk.
    apply existsb_exists. exists EmptyString. split; [exact Hin | apply includes_empty].
Qed.

Lemma trimStart_blank (s : string) : all_chars isWhiteSpace s = true -> trimStart s = EmptyString.
Proof.
  induction s as [|c s IH]; simpl; [reflexivity|].
  intros Hb. apply andb_true_iff in Hb. destruct Hb as [-> Hs]. auto.
Qed.

(** X17. A reply of white space only at the service menu selects the
    first service: [validateServiceSelection] accepts it, its trimmed
    form is empty, and every service name contains the empty text. *)
Theorem blank_reply_selects_first_service (message : string) (services : list Service) :
  nonEmpty message = true ->
  all_chars isWhiteSpace message = true ->
  validateServiceSelection message = Valid EmptyString
  /\ select_service (toLowerCase EmptyString) services = head services.
Proof.
  intros Hne Hblank. split.
  - unfold validateServiceSelection, strlen, trim.
    destruct message as [|c m]; [discriminate|].
    rewrite (trimStart_blank _ Hblank). simpl String.length.
    destruct (Z.of_nat (S (String.length m)) <? 1) eqn:E; [apply Z.ltb_lt in E; lia|].
    reflexivity.
  - unfold select_service. simpl.
    destruct services as [|s l]; [reflexivity|]. simpl.
    rewrite includes_empty, orb_true_r. reflexivity.
Qed.

Lemma sendMessage_bookings (ad : Adapter) (m : Msg) (w : World) :
  bookings (snd (sendMessage ad m w)) = bookings w.
Proof.
  unfold sendMessage. rewrite sendText_unfold.
  destruct (transport_returns ad w); [|reflexivity].
  destruct (channel ad), (ws_state w); reflexivity.
Qed.

(** X18. The confirmation of a conversation whose slot is free adds one
    pending reservation that carries what the conversation collected:
    the name, the service, the date and the time of the state, for the
    customer, the business and the bot of the adapter. The reservation
    is kept whatever happens to the completion of the conversation and
    to the confirmation message. *)
Theorem confirmation_reserves_collected_data (ad : Adapter) (msg : string)
    (st : ConversationState) (now : Z) (w : World) (a : Sql.BookingArgs) :
  validateConfirmation msg = Valid true ->
  booking_args ad (collectedData st) = Some a ->
  sqlDate (Sql.p_booking_date a) = true ->
  Sql.is_time_slot_available (bookings w) (Sql.p_business_id a) (Sql.p_booking_date a)
    (Sql.p_booking_time a) = true ->
  Sql.service_exists w (Sql.p_service_id a) = true ->
  bookings (exec (handleConfirmation ad msg st now) w)
  = bookings w ++ [Sql.new_booking (Sql.fresh_id (bookings w)) a]
  /\ customerName (collectedData st) = Some (Sql.p_customer_name a)
  /\ serviceId (collectedData st) = Some (Sql.p_service_id a)
  /\ serviceName (collectedData st) = Some (Sql.p_service_name a)
  /\ bookingDate (collectedData st) = Some (Sql.p_booking_date a)
  /\ bookingTime (collectedData st) = Some (Sql.p_booking_time a)
  /\ Sql.p_customer_phone a = getUserKey ad
  /\ Sql.p_business_id a = getBusinessId ad
  /\ Sql.p_bot_id a = getBotId ad.
Proof.
  intros Hv Ha Hsql Hav Hsv. split.
  - unfold exec, handleConfirmation. rewrite Hv.
    unfold bind at 1. unfold rpc_create_booking_safe. rewrite Ha, Hsql. simpl negb. cbv iota.
    unfold Sql.create_booking_safe, Sql.create_booking_check, Sql.create_booking_insert,
      Sql.insert_booking.
    rewrite Hav, Hsv. simpl negb. cbv iota beta. cbn [Sql.success negb].
    unfold completeConversation, bind, update_completed, get.
    match goal with
    | |- context [unique_conversations ?t] => destruct (unique_conversations t)
    end; simpl; [rewrite sendMessage_bookings|]; reflexivity.
  - unfold booking_args in Ha.
    destruct (customerName (collectedData st)); [|discriminate].
    destruct (serviceId (collectedData st)); [|discriminate].
    destruct (serviceName (collectedData st)); [|discriminate].
    destruct (bookingDate (collectedData st)); [|discriminate].
    destruct (bookingTime (collectedData st)); [|discriminate].
    inversion Ha. simpl. repeat split.
Qed.

End BookingFacts.

Section BookingFactsExamples.
Import JS BookingValidator Data World Adapter BookingStateManager BookingService.
#[local] Existing Instance week_calendar.

Lemma empty_keyword_always_triggers_witness :
  isBookingTrigger "hello" ["book"; ""] = true
  /\ WorkflowEngine.trigger_matches (toLowerCase "hello")
       (mkWorkflow "wf-1" "bot-1" true true (Some [""]) [] false) = true.
Proof.
  destruct (empty_keyword_always_triggers "hello") as [Hb Hw]. split.
  - apply Hb. right. left. reflexivity.
  - apply (Hw _ [""]); [reflexivity | left; reflexivity].
Defined.

Lemma blank_reply_selects_first_service_witness :
  validateServiceSelection "  " = Valid ""
  /\ select_service (toLowerCase "")
       [mkService "svc-1" "biz-1" "Haircut" (JNum 50000) (JNum 30) true 0;
        mkService "svc-2" "biz-1" "Shave" (JNum 20000) (JNum 30) true 1]
     = Some (mkService "svc-1" "biz-1" "Haircut" (JNum 50000) (JNum 30) true 0).
Proof.
  apply (blank_reply_selects_first_service "  "); reflexivity.
Defined.

(** A conversation that has collected everything. *)
Definition ready_to_confirm : ConversationState :=
  mkState CONFIRMING
    (mkCollected (Some "Jane Doe") "15550001" (Some "self") (Some FEMALE) (Some "svc-1")
       (Some "Haircut") (Some (JNum 50000)) (Some (JNum 30)) (Some "2025-10-13")
       (Some 36000)).

Lemma confirmation_reserves_collected_data_witness :
  bookings (exec (handleConfirmation phone_adapter "yes" ready_to_confirm 0) (parlour []))
  = [Sql.new_booking 1 (haircut_at 36000)].
Proof.
  apply (confirmation_reserves_collected_data phone_adapter "yes" ready_to_confirm 0
           (parlour []) (haircut_at 36000)); reflexivity.
Defined.

End BookingFactsExamples.

(** ** The workflow engine *)

Section WorkflowFacts.
Import JS Data World Adapter WorkflowEngine.
Context `{Calendar} `{JsNumber} `{Assistant}.

Lemma find_first {A} (p : A -> bool) (l : list A) (x : A) :
  List.find p l = Some x ->
  exists before after,
    l = before ++ x :: after /\ p x = true /\ Forall (fun y => p y = false) before.
Proof.
  induction l as [|y l IH]; simpl; [discriminate|].
  destruct (p y) eqn:Hy.
  - intros [= <-]. exists [], l. repeat split; auto.
  - intros Hf. destruct (IH Hf) as (before & after & -> & Hx & Hb).
    exists (y :: before), after. repeat split; auto.
Qed.

Lemma find_none_all {A} (p : A -> bool) (l : list A) :
  List.find p l = None -> Forall (fun y => p y = false) l.
Proof.
  induction l as [|y l IH]; simpl; [constructor|].
  destruct (p y) eqn:Hy; [discriminate|]. intros Hf. constructor; auto.
Qed.

(** X19. The workflow the matcher picks is a published, active
    workflow of the bot one of whose keywords occurs in the lower-cased
    message, and it is the first such workflow in the order in which
    the query returns them (here the order of the table); when it picks
    none, no published active workflow of the bot matches. *)
Theorem matched_workflow_first_published (botId message : string) (w : World) :
  match matched_workflow botId message w with
  | Some wf =>
      In wf (workflows w)
      /\ wf_bot_id wf = botId /\ wf_is_active wf = true /\ wf_published wf = true
      /\ (exists keywords keyword,
            wf_keywords wf = Some keywords /\ In keyword keywords
            /\ includes (toLowerCase message) (toLowerCase keyword) = true)
      /\ exists before after,
           published_workflows botId w = before ++ wf :: after
           /\ Forall (fun x => trigger_matches (toLowerCase message) x = false) before
  | None =>
      Forall (fun wf => trigger_matches (toLowerCase message) wf = false)
        (published_workflows botId w)
  end.
Proof.
  unfold matched_workflow.
  destruct (List.find _ _) as [wf|] eqn:Hf; [|apply find_none_all; exact Hf].
  destruct (find_first _ _ _ Hf) as (before & after & Hl & Hm & Hb).
  assert (Hin : In wf (published_workflows botId w)).
  { rewrite Hl. apply in_or_app. right. left. reflexivity. }
  unfold published_workflows in Hin. apply filter_In in Hin. destruct Hin as [Hin Hp].
  apply andb_true_iff in Hp. destruct Hp as [Hp Hpub].
  apply andb_true_iff in Hp. destruct Hp as [Hbot Hact]. apply String.eqb_eq in Hbot.
  split; [exact Hin|]. split; [exact Hbot|]. split; [exact Hact|]. split; [exact Hpub|].
  split.
  - unfold trigger_matches in Hm. destruct (wf_keywords wf) as [ks|]; [|discriminate].
    apply existsb_exists in Hm. destruct Hm as (k & Hk & Hinc). eauto.
  - eauto.
Qed.

(** The key under which a [collect_field] step stores the reply. *)
Definition field_key (step : WfStep) (succ_idx : nat) : string :=
  match truthy (collect_field_key step), truthy (step_id step) with
  | Some k, _ => k
  | None, Some k => k
  | None, None => "field_" ++ pretty succ_idx
  end.

Lemma advanced_id (workflow : Workflow) (step : WfStep) (succ_idx : nat)
    (state : gmap string string) (c : WorkflowConversation) :
  wc_id (advanced workflow step succ_idx state c) = wc_id c.
Proof.
  unfold advanced.
  destruct (next_id step (wf_steps workflow) succ_idx) as [nextId|]; [|reflexivity].
  destruct (next_step (wf_steps workflow) succ_idx nextId) as [next|]; [|reflexivity].
  destruct (step_type next); reflexivity.
Qed.

(** X20. A turn on a [collect_field] step stores the reply as it was
    written: after the turn the state of the conversation is its state
    before with the message under the key of the step, whether or not
    the prompt of the next step could be sent. *)
Theorem collect_field_stores_reply (ad : Adapter) (message : string)
    (convo : WorkflowConversation) (now : Z) (w : World) (workflow : Workflow)
    (step : WfStep) (succ_idx : nat) :
  single (List.filter (fun wf => String.eqb (wf_id wf) (wc_workflow_id convo))
            (workflows w)) = Some workflow ->
  current_step (wf_steps workflow) (wc_current_step_id convo) = Some (step, succ_idx) ->
  step_type step = COLLECT_FIELD ->
  length (workflow_conversations (exec (continueConversation ad message convo now) w))
  = length (workflow_conversations w)
  /\ Forall (fun c' =>
               wc_id c' = wc_id convo ->
               wc_state c' = <[field_key step succ_idx := message]> (wc_state convo))
       (workflow_conversations (exec (continueConversation ad message convo now) w)).
Proof.
  intros Hwf Hstep Htype.
  assert (Hcollect : collect step succ_idx message (wc_state convo)
                     = <[field_key step succ_idx := message]> (wc_state convo)).
  { unfold collect, field_key. rewrite Htype. reflexivity. }
  assert (Hrun : continueConversation ad message convo now w
                 = try_catch
                     (advance ad message convo workflow step succ_idx
                        (<[field_key step succ_idx := message]> (wc_state convo)) now)
                     (fun _ => ret false) w).
  { unfold continueConversation, try_catch. unfold bind at 1, get at 1.
    rewrite Hwf, Hstep, Htype, Hcollect. unfold bind at 1, ret at 1. reflexivity. }
  unfold exec. rewrite Hrun. unfold try_catch.
  pose proof (advance_table ad message convo workflow step succ_idx
                (<[field_key step succ_idx := message]> (wc_state convo)) now w) as Htbl.
  assert (Hafter : workflow_conversations
                     (snd (let (r, w') :=
                             advance ad message convo workflow step succ_idx
                               (<[field_key step succ_idx := message]> (wc_state convo)) now w
                           in match r with
                              | Ok a => (Ok a, w')
                              | Throw e => ret false w'
                              end))
                   = List.map
                       (fun c => if has_id (wc_id convo) c
                                 then advanced workflow step succ_idx
                                        (<[field_key step succ_idx := message]> (wc_state convo)) c
                                 else c)
                       (workflow_conversations w)).
  { destruct (advance _ _ _ _ _ _ _ _ w) as [[b|e] w1]; exact Htbl. }
  rewrite Hafter. split; [apply length_map|].
  apply List.Forall_forall. intros c' Hin. apply in_map_iff in Hin.
  destruct Hin as (c & <- & _). unfold has_id.
  destruct (Nat.eqb (wc_id c) (wc_id convo)) eqn:E.
  - intros _. apply advanced_row.
  - intros Hid. apply Nat.eqb_neq in E. contradiction.
Qed.

(** Steps without a message of their own before the advance. *)
Definition plain_step (step : WfStep) : bool :=
  match step_type step with
  | COLLECT_FIELD | SHOW_OPTIONS | CONDITIONAL | UNKNOWN_TYPE => true
  | _ => false
  end.

(** X21. The last step of a workflow: the turn saves the collected
    state as an inquiry when the workflow says so, with the phone number
    of the customer on the phone channel only, and saves nothing
    otherwise. The inquiry is written before the closing message: when
    that message cannot be sent the inquiry is kept and the engine
    reports the message as not handled. *)
Theorem last_step_saves_inquiry (ad : Adapter) (message : string)
    (convo : WorkflowConversation) (now : Z) (w : World) (workflow : Workflow)
    (step : WfStep) (succ_idx : nat) :
  single (List.filter (fun wf => String.eqb (wf_id wf) (wc_workflow_id convo))
            (workflows w)) = Some workflow ->
  current_step (wf_steps workflow) (wc_current_step_id convo) = Some (step, succ_idx) ->
  plain_step step = true ->
  next_id step (wf_steps workflow) succ_idx = None ->
  inquiries (exec (continueConversation ad message convo now) w)
  = inquiries w
    ++ (if wf_save_to_database workflow
        then [mkInquiry (getBotId ad) (wf_id workflow)
                (collect step succ_idx message (wc_state convo)) (channel ad)
                (match channel ad with
                 | WHATSAPP => Some (getUserKey ad)
                 | WEB => None
                 end)]
        else [])
  /\ result (continueConversation ad message convo now) w = Ok (transport_returns ad w).
Proof.
  intros Hwf Hstep Hplain Hnext.
  assert (Hrun : continueConversation ad message convo now w
                 = try_catch
                     (advance ad message convo workflow step succ_idx
                        (collect step succ_idx message (wc_state convo)) now)
                     (fun _ => ret false) w).
  { unfold continueConversation, try_catch. unfold bind at 1, get at 1.
    rewrite Hwf, Hstep. unfold plain_step in Hplain.
    destruct (step_type step); try discriminate;
      unfold bind at 1, ret at 1; reflexivity. }
  unfold exec, result. rewrite Hrun. clear Hrun.
  unfold try_catch, advance. rewrite Hnext.
  assert (Hup : forall w1, wa_up w1 = wa_up w -> ws_state w1 = ws_state w ->
                           transport_returns ad w1 = transport_returns ad w).
  { intros w1 Ha Hs. unfold transport_returns. rewrite Ha, Hs. reflexivity. }
  destruct (wf_save_to_database workflow);
    unfold bind, update_convos, modify, ret; cbv beta iota;
    rewrite sendText_unfold, Hup by reflexivity;
    destruct (transport_returns ad w); simpl;
    (split; [|reflexivity]);
    destruct (channel ad), (ws_state w); simpl; rewrite ?app_nil_r; reflexivity.
Qed.

End WorkflowFacts.

Section WorkflowFactsExamples.
Import JS Data World Adapter WorkflowEngine.
#[local] Existing Instance week_calendar.
#[local] Existing Instance digits_number.
#[local] Existing Instance echo_assistant.

Definition ask_email : WfStep :=
  mkStep (Some "email") COLLECT_FIELD (Some "Your email?") None None None None.

(** A published workflow of one step that saves what it collects. *)
Definition contact_workflow : Workflow :=
  mkWorkflow "wf-2" "bot-1" true true (Some ["contact"]) [ask_email] true.

Definition asked_email : WorkflowConversation :=
  mkWC 0 "bot-1" "15550001" "wf-2" "email" ∅ false WHATSAPP.

Definition leaving_contact : World :=
  mkWorld [] [] [] [] [] [contact_workflow] [asked_email] [] [] [] true WS_OPEN [] [].

Lemma collect_field_stores_reply_witness :
  length (workflow_conversations
            (exec (continueConversation phone_adapter "jane@example.com" asked_email 0)
               leaving_contact))
  = 1%nat
  /\ Forall (fun c' => wc_id c' = 0%nat ->
                       wc_state c' = <["email" := "jane@example.com"]> ∅)
       (workflow_conversations
          (exec (continueConversation phone_adapter "jane@example.com" asked_email 0)
             leaving_contact)).
Proof.
  apply (collect_field_stores_reply phone_adapter "jane@example.com" asked_email 0
           leaving_contact contact_workflow ask_email 1); reflexivity.
Defined.

Lemma last_step_saves_inquiry_witness :
  inquiries (exec (continueConversation phone_adapter "jane@example.com" asked_email 0)
               leaving_contact)
  = [mkInquiry "bot-1" "wf-2" (<["email" := "jane@example.com"]> ∅) WHATSAPP
       (Some "15550001")]
  /\ result (continueConversation phone_adapter "jane@example.com" asked_email 0)
       leaving_contact = Ok true.
Proof.
  apply (last_step_saves_inquiry phone_adapter "jane@example.com" asked_email 0
           leaving_contact contact_workflow ask_email 1); reflexivity.
Defined.

End WorkflowFactsExamples.

(** ** The best-effort methods of the adapters *)

Section BestEffort.
Import Data World Adapter.

(** X22. The typing indicator and the error message are best effort
    on both channels: [sendTyping] and [sendError] return whatever the
    transport does. [sendTyping] and the [sendError] of the web adapter
    log nothing; the [sendError] of the phone adapter goes through
    [sendText] and so logs the prefixed message when it was delivered. *)
Theorem typing_and_error_never_throw (ad : Adapter) (start : bool) (code message : string)
    (w : World) :
  result (sendTyping ad start) w = Ok tt
  /\ messages (exec (sendTyping ad start) w) = messages w
  /\ result (sendError ad code message) w = Ok tt
  /\ messages (exec (sendError ad code message) w)
     = match channel ad with
       | WHATSAPP =>
           if wa_up w
           then messages w ++ [outbound_record ad MT_TEXT (MsgErrorPrefixed message) None]
           else messages w
       | WEB => messages w
       end.
Proof.
  unfold result, exec, sendTyping, sendError, wa_sendTyping, web_sendTyping, wa_sendError,
    web_sendError, wa_sendText, try_catch, bind, sock_sendMessage, sendEventToSession,
    saveMessage, modify, throw, ret, outbound_record.
  destruct (channel ad) eqn:Hc; [destruct (wa_up w) | destruct (ws_state w)];
    simpl; repeat split; rewrite ?Hc; reflexivity.
Qed.

End BestEffort.

(** ** What the routers write to the log of messages *)

Section Logging.
Import JS BookingValidator Data World Adapter BookingStateManager WorkflowEngine Dispatch.
Context `{Calendar} `{JsNumber} `{Assistant}.

(** The log of messages has grown by outbound records. *)
Definition log_outbound (w w' : World) : Prop :=
  exists l, messages w' = messages w ++ l /\ Forall (fun m => m_outbound m = true) l.

Lemma log_outbound_same (w w' : World) : messages w' = messages w -> log_outbound w w'.
Proof. intros Hm. exists []. rewrite app_nil_r. split; [exact Hm | constructor]. Qed.

Lemma log_outbound_trans (w1 w2 w3 : World) :
  log_outbound w1 w2 -> log_outbound w2 w3 -> log_outbound w1 w3.
Proof.
  intros (l1 & Hm1 & Hl1) (l2 & Hm2 & Hl2). exists (l1 ++ l2). split.
  - rewrite Hm2, Hm1, app_assoc. reflexivity.
  - apply Forall_app; split; assumption.
Qed.

Definition logs {A} (m : M A) : Prop := forall w, log_outbound w (snd (m w)).

Lemma logs_ret {A} (a : A) : logs (ret a).
Proof. intros w. apply log_outbound_same. reflexivity. Qed.

Lemma logs_throw {A} (e : Exn) : logs (@throw A e).
Proof. intros w. apply log_outbound_same. reflexivity. Qed.

Lemma logs_get : logs get.
Proof. intros w. apply log_outbound_same. reflexivity. Qed.

Lemma logs_modify (f : World -> World) :
  (forall w, messages (f w) = messages w) -> logs (modify f).
Proof. intros Hf w. apply log_outbound_same. apply Hf. Qed.

Lemma logs_bind {A B} (m : M A) (k : A -> M B) :
  logs m -> (forall a, logs (k a)) -> logs (bind m k).
Proof.
  intros Hm Hk w. unfold bind. specialize (Hm w).
  destruct (m w) as [[a|e] w']; simpl in *; [|exact Hm].
  eapply log_outbound_trans; [exact Hm | apply Hk].
Qed.

Lemma logs_try_catch {A} (m : M A) (h : Exn -> M A) :
  logs m -> (forall e, logs (h e)) -> logs (try_catch m h).
Proof.
  intros Hm Hh w. unfold try_catch. specialize (Hm w).
  destruct (m w) as [[a|e] w']; simpl in *; [exact Hm|].
  eapply log_outbound_trans; [exact Hm | apply Hh].
Qed.

Lemma logs_sendText (ad : Adapter) (m : Msg) (md : option string) : logs (sendText ad m md).
Proof.
  intros w. rewrite sendText_unfold.
  destruct (transport_returns ad w); [|apply log_outbound_same; reflexivity].
  exists [outbound_record ad MT_TEXT m md]. split.
  - destruct (channel ad), (ws_state w); reflexivity.
  - constructor; [reflexivity | constructor].
Qed.

Lemma logs_sendEventToSession (d : Delivery) : logs (sendEventToSession d).
Proof.
  intros w. unfold sendEventToSession.
  destruct (ws_state w); apply log_outbound_same; reflexivity.
Qed.

Lemma logs_sendTyping (ad : Adapter) (start : bool) : logs (sendTyping ad start).
Proof.
  intros w. apply log_outbound_same.
  unfold sendTyping, wa_sendTyping, web_sendTyping, try_catch, sock_sendMessage,
    sendEventToSession, ret.
  destruct (channel ad); [destruct (wa_up w) | destruct (ws_state w)]; reflexivity.
Qed.

Lemma logs_sendRich (ad : Adapter) (send : string -> M unit) (c : string) :
  sendRich ad = Some send -> logs (send c).
Proof.
  unfold sendRich. intros Hs w. apply log_outbound_same.
  destruct (channel ad); inversion Hs; subst;
    unfold wa_sendRich, web_sendRich, try_catch, sock_sendMessage, sendEventToSession, throw;
    [destruct (wa_up w) | destruct (ws_state w)]; reflexivity.
Qed.

Lemma logs_sendDocument (ad : Adapter) (send : SendDocumentOptions -> M unit)
    (o : SendDocumentOptions) :
  sendDocument ad = Some send -> logs (send o).
Proof.
  unfold sendDocument. intros Hs w.
  destruct (channel ad); inversion Hs; subst.
  unfold web_sendDocument, try_catch, bind, sendEventToSession, saveMessage, modify, throw.
  destruct (ws_state w); simpl; try (apply log_outbound_same; reflexivity);
    (eexists; split; [reflexivity|]; constructor; [reflexivity | constructor]).
Qed.

Lemma logs_handleBookingMessage (ad : Adapter) (msg : string) (now : Z) :
  logs (BookingService.handleBookingMessage ad msg now).
Proof.
  intros w. rewrite handleBookingMessage_unfold.
  set (w0 := set_calls _ w).
  destruct (bookingTurn_replies ad msg now w0) as [(_ & _ & l & Hm & Hl) _].
  exists l. split; [exact Hm|].
  eapply List.Forall_impl; [|exact Hl]. intros m (text & ->). reflexivity.
Qed.

Ltac logs_step :=
  match goal with
  | E : sendDocument _ = Some ?s |- logs (?s _) => apply (logs_sendDocument _ _ _ E)
  | E : sendRich _ = Some ?s |- logs (?s _) => apply (logs_sendRich _ _ _ E)
  | |- logs (World.bind _ _) => apply logs_bind; [| intros ?]
  | |- logs (World.try_catch _ _) => apply logs_try_catch; [| intros ?]
  | |- logs (World.ret _) => apply logs_ret
  | |- logs (World.throw _) => apply logs_throw
  | |- logs World.get => apply logs_get
  | |- logs (World.record_call _) => unfold record_call
  | |- logs (World.modify _) => apply logs_modify; intros ?; reflexivity
  | |- logs (update_convos _ _) => unfold update_convos
  | |- logs (Adapter.sendText _ _ _) => apply logs_sendText
  | |- logs (Adapter.sendTyping _ _) => apply logs_sendTyping
  | |- logs (Adapter.sendEventToSession _) => apply logs_sendEventToSession
  | |- logs (BookingService.handleBookingMessage _ _ _) => apply logs_handleBookingMessage
  | |- logs (BookingService.isBookingEnabled _) => unfold BookingService.isBookingEnabled
  | |- logs (BookingService.getBookingKeywords _) => unfold BookingService.getBookingKeywords
  | |- logs (hasActiveConversation _ _) => unfold hasActiveConversation
  | |- logs (send_prompt _ _ _) => unfold send_prompt
  | |- logs (send_item _ _) => unfold send_item
  | |- logs (match ?x with _ => _ end) => destruct x eqn:?
  | |- logs (let _ := _ in _) => cbv zeta
  end.

Lemma logs_send_items (ad : Adapter) (items : list BotMedia) : logs (send_items ad items).
Proof.
  induction items as [|item items IH]; simpl; [apply logs_ret|].
  apply logs_bind; [repeat logs_step | intros _; exact IH].
Qed.

Lemma logs_share_media (ad : Adapter) (prompt : string) : logs (share_media ad prompt).
Proof.
  unfold share_media. apply logs_bind; [apply logs_get | intros w].
  destruct (media_items (getBotId ad) w); [apply logs_sendText|].
  apply logs_bind; [apply logs_sendText | intros _; apply logs_send_items].
Qed.

Lemma logs_advance (ad : Adapter) (msg : string) (convo : WorkflowConversation)
    (workflow : Workflow) (step : WfStep) (succ_idx : nat) (state : gmap string string)
    (now : Z) :
  logs (advance ad msg convo workflow step succ_idx state now).
Proof. unfold advance. repeat logs_step. Qed.

Lemma logs_continueConversation (ad : Adapter) (msg : string)
    (convo : WorkflowConversation) (now : Z) :
  logs (continueConversation ad msg convo now).
Proof.
  unfold continueConversation.
  repeat first [apply logs_share_media | apply logs_advance | logs_step].
Qed.

Lemma logs_start_conversation (ad : Adapter) (msg : string) (matched : Workflow)
    (first : WfStep) (now : Z) :
  logs (start_conversation ad msg matched first now).
Proof.
  unfold start_conversation. repeat first [apply logs_share_media | logs_step].
Qed.

Lemma logs_tryHandle (ad : Adapter) (msg : string) (now : Z) : logs (tryHandle ad msg now).
Proof.
  unfold tryHandle.
  repeat first [apply logs_continueConversation | apply logs_start_conversation | logs_step].
Qed.

(** X23. The web router does not log the inbound message: its insert
    carries the status [received], which the constraint on the status
    of a message turns down, and the error of the response is not read.
    The turn goes on, and whatever the workflow engine and the booking
    flow add to the log are outbound records. A blank message changes
    nothing at all. The insert of the phone router, with the status
    [delivered], writes the inbound record. The free-form reply that
    follows when neither the engine nor the booking flow takes the
    message is outside the model, which stops at the call. *)
Theorem web_router_logs_no_inbound (sessionId botId businessId msg : string) (now : Z)
    (w : World) :
  exec (save_inbound botId businessId msg (Some WEB) (Some sessionId) "received") w = w
  /\ messages (exec (save_inbound botId businessId msg None None "delivered") w)
     = messages w ++ [mkMessage botId businessId MT_TEXT (Text msg) false None None None]
  /\ if nonEmpty (trim msg)
     then exists l,
            messages (exec (handleWebMessage sessionId botId businessId msg now) w)
            = messages w ++ l
            /\ Forall (fun m => m_outbound m = true) l
     else exec (handleWebMessage sessionId botId businessId msg now) w = w.
Proof.
  split; [reflexivity|]. split; [reflexivity|].
  unfold exec, handleWebMessage.
  destruct (nonEmpty (trim msg)); simpl negb; cbv iota; [|reflexivity].
  rewrite try_catch_bind. unfold save_inbound at 1.
  change (valid_message_status "received") with false. cbv iota. unfold ret at 1.
  cbv beta iota.
  match goal with
  | |- context [try_catch ?m ?h ?w1] => assert (Hl : logs (try_catch m h))
  end.
  { repeat first [apply logs_tryHandle | logs_step]. }
  match goal with
  | |- context [try_catch ?m ?h ?w1] => exact (Hl w1)
  end.
Qed.

(** X24. On the phone router a message that goes to the booking flow
    is not logged: with booking enabled, a turn on a message that
    arrives during a booking conversation or holds a booking keyword
    adds nothing to the log but the replies of the booking flow. *)
Theorem phone_router_logs_no_booking_input (botId businessId user msg : string) (now : Z)
    (w : World) :
  nonEmpty msg = true ->
  booking_on botId w = true ->
  booking_active botId user w = true
  \/ BookingService.isBookingTrigger msg (booking_keywords botId w) = true ->
  exists l,
    messages (exec (handleIncomingMessage botId businessId user msg now) w)
    = messages w ++ l
    /\ Forall (fun m => m_outbound m = true) l.
Proof.
  intros Hne Hon Hcase.
  set (ad := mkAdapter WHATSAPP botId businessId user).
  assert (Hrun : exec (handleIncomingMessage botId businessId user msg now) w
                 = snd (try_catch (BookingService.handleBookingMessage ad msg now)
                          (fun _ => ret tt) w)).
  { unfold exec, handleIncomingMessage. fold ad. rewrite Hne. simpl negb. cbv iota.
    unfold try_catch. unfold bind at 1. rewrite isBookingEnabled_reads, Hon.
    unfold bind at 1. rewrite hasActiveConversation_reads.
    destruct (booking_active botId user w) eqn:Hact; [reflexivity|].
    destruct Hcase as [Hcase|Hcase]; [discriminate|].
    unfold bind at 1. rewrite getBookingKeywords_reads, Hcase. reflexivity. }
  rewrite Hrun.
  assert (Hl : logs (try_catch (BookingService.handleBookingMessage ad msg now)
                       (fun _ => ret tt))).
  { repeat logs_step. }
  exact (Hl w).
Qed.

End Logging.

Section LoggingExamples.
Import JS BookingValidator Data World Adapter BookingStateManager WorkflowEngine Dispatch.
#[local] Existing Instance week_calendar.
#[local] Existing Instance digits_number.
#[local] Existing Instance echo_assistant.

(** A bot with booking enabled and nothing else in the store. *)
Definition booking_only : World :=
  mkWorld [mkSettings "bot-1" (Some true) None None None None None None]
    [] [] [] [] [] [] [] [] [] true WS_OPEN [] [].

Lemma phone_router_logs_no_booking_input_witness :
  exists l,
    messages (exec (handleIncomingMessage "bot-1" "biz-1" "15550001" "I want to book" 0)
                booking_only)
    = messages booking_only ++ l
    /\ Forall (fun m => m_outbound m = true) l.
Proof.
  apply (phone_router_logs_no_booking_input "bot-1" "biz-1" "15550001" "I want to book" 0
           booking_only); [reflexivity | reflexivity | right; vm_compute; reflexivity].
Defined.

(** On the web router the log of a turn holds the reply and not the
    message; on the phone router a message that neither the booking flow
    nor the workflow engine takes is logged as inbound. *)
Example inbound_records :
  List.map (fun m => (m_outbound m, m_content m))
    (messages (exec (handleWebMessage "session-1" "bot-1" "biz-1" "I want to book" 0)
                 booking_only))
  = [(true, MsgAskName)]
  /\ List.map (fun m => (m_outbound m, m_content m))
       (messages (exec (handleIncomingMessage "bot-1" "biz-1" "15550001" "hello" 0)
                    booking_only))
     = [(false, Text "hello")].
Proof. split; vm_compute; reflexivity. Qed.

End LoggingExamples.

(** ** The authentication of a web socket *)

Section Gateway.
Import World Adapter WsServer.

Lemma single_in {A} (l : list A) (x : A) : single l = Some x -> In x l.
Proof. destruct l as [|y [|z l]]; intros [= <-]. left. reflexivity. Qed.

Lemma differs_false (claim : option string) (param : string) :
  differs claim param = false -> claim = Some param.
Proof.
  destruct claim as [c|]; simpl; [|discriminate].
  rewrite negb_false_iff, String.eqb_eq. congruence.
Qed.

(** X25. A connection is let in only on a token that verifies and
    whose claims name the bot and the session of the request, at the
    current version of the tokens of the bot, for a session of that bot
    that is active, has not expired and was opened from the origin of
    the request, and for a bot that exists, whose business the
    connection is given. A token whose verification throws is answered
    with [internal_error]. *)
Theorem connection_is_bound_to_session (verifyWebChatToken : string -> Verification)
    (st : Store) (request : Request) (now : Z) :
  (forall meta,
     authenticateConnection verifyWebChatToken st request now = AuthSuccess meta ->
     exists token decoded session bot,
       truthy (rq_botId request) = Some (botId meta)
       /\ truthy (rq_sessionId request) = Some (sessionId meta)
       /\ truthy (rq_token request) = Some token
       /\ verifyWebChatToken token = Returns (Some decoded)
       /\ pl_botId decoded = Some (botId meta)
       /\ pl_sessionId decoded = Some (sessionId meta)
       /\ pl_tokenVersion decoded = Some (currentVersion st (botId meta))
       /\ In session (web_sessions st)
       /\ se_id session = sessionId meta /\ se_bot_id session = botId meta
       /\ se_status session = ACTIVE
       /\ now <= default 0 (se_expires_at session)
       /\ se_origin session = origin meta
       /\ origin meta = or_else (rq_origin request) EmptyString
       /\ In bot (bots st)
       /\ bot_id bot = botId meta /\ businessId meta = bot_business_id bot)
  /\ (forall bot session_id token,
        truthy (rq_botId request) = Some bot ->
        truthy (rq_sessionId request) = Some session_id ->
        truthy (rq_token request) = Some token ->
        verifyWebChatToken token = Throws ->
        authenticateConnection verifyWebChatToken st request now
        = AuthFailure "internal_error").
Proof.
  split.
  - intros meta. unfold authenticateConnection.
    destruct (truthy (rq_botId request)) as [bot|]; [|discriminate].
    destruct (truthy (rq_sessionId request)) as [session_id|]; [|discriminate].
    destruct (truthy (rq_token request)) as [token|]; [|discriminate].
    destruct (verifyWebChatToken token) as [[decoded|]|] eqn:Hv; try discriminate.
    destruct (differs (pl_botId decoded) bot) eqn:Hb; [discriminate|].
    destruct (differs (pl_sessionId decoded) session_id) eqn:Hs; [discriminate|].
    simpl orb. cbv iota.
    destruct (validateTokenVersion (pl_tokenVersion decoded) (currentVersion st bot))
      eqn:Hver; [|discriminate].
    simpl negb. cbv iota.
    destruct (single (List.filter _ (web_sessions st))) as [session|] eqn:Hse;
      [|discriminate].
    destruct (se_status session) eqn:Hst; [|discriminate].
    destruct (default 0 (se_expires_at session) <? now) eqn:Hexp; [discriminate|].
    cbv zeta.
    destruct (String.eqb (se_origin session) (or_else (rq_origin request) EmptyString))
      eqn:Ho; [|discriminate].
    simpl negb. cbv iota.
    destruct (single (List.filter _ (bots st))) as [b|] eqn:Hbot; [|discriminate].
    intros [= <-]. simpl.
    apply single_in in Hse. apply filter_In in Hse. destruct Hse as [Hin Hkey].
    apply andb_true_iff in Hkey. destruct Hkey as [Hid Hsb].
    apply String.eqb_eq in Hid, Hsb, Ho.
    apply single_in in Hbot. apply filter_In in Hbot. destruct Hbot as [Hinb Hbid].
    apply String.eqb_eq in Hbid.
    apply differs_false in Hb, Hs. apply Z.ltb_ge in Hexp.
    unfold validateTokenVersion in Hver.
    destruct (pl_tokenVersion decoded) as [v|] eqn:Hpv; [|discriminate].
    apply Z.eqb_eq in Hver. subst v.
    exists token, decoded, session, b. repeat split; auto.
  - intros bot session_id token Hb Hs Ht Hv. unfold authenticateConnection.
    rewrite Hb, Hs, Ht, Hv. reflexivity.
Qed.

End Gateway.

Section GatewayExamples.
Import World Adapter WsServer.

Definition widget_store : Store :=
  mkStore [mkWidget "bot-1" 2]
    [mkSession "session-1" "bot-1" "https://shop.example" ACTIVE (Some 1000000)]
    [mkBot "bot-1" "biz-1"].

(** A verification that accepts one token. *)
Definition verify_one (token : string) : Verification :=
  if String.eqb token "good"
  then Returns (Some (mkPayload (Some "bot-1") (Some "session-1")
                        (Some "https://shop.example") (Some 2)))
  else Throws.

Definition upgrade (token : string) : Request :=
  mkRequest (Some "bot-1") (Some "session-1") (Some token) (Some "https://shop.example").

Definition let_in : ConnectionMeta :=
  mkMeta "bot-1" "session-1" "biz-1" "https://shop.example" 5000 5000.

Lemma connection_is_bound_to_session_witness :
  authenticateConnection verify_one widget_store (upgrade "good") 5000 = AuthSuccess let_in
  /\ (exists session,
        In session (web_sessions widget_store)
        /\ se_id session = sessionId let_in /\ se_status session = ACTIVE
        /\ se_origin session = origin let_in)
  /\ authenticateConnection verify_one widget_store (upgrade "stale") 5000
     = AuthFailure "internal_error".
Proof.
  split; [reflexivity|]. split.
  - destruct (connection_is_bound_to_session verify_one widget_store (upgrade "good") 5000)
      as [Hok _].
    destruct (Hok let_in eq_refl) as (token & decoded & session & bot & H). 
    exists session. tauto.
  - destruct (connection_is_bound_to_session verify_one widget_store (upgrade "stale") 5000)
      as [_ Hthrows].
    apply (Hthrows "bot-1" "session-1" "stale"); reflexivity.
Defined.

End GatewayExamples.

(** ** Conversations of other customers *)

Section Isolation.
Import JS BookingValidator Data World Adapter BookingStateManager BookingService.
Context `{Calendar}.
Variable ad : Adapter.

(** A row that is not an active conversation of the customer of the
    adapter is left as it is. *)
Definition untouched (r r' : BookingConversation) : Prop :=
  is_active_for (getBotId ad) (getUserKey ad) r = false -> r' = r.

Lemma untouched_refl r : untouched r r.
Proof. intros _. reflexivity. Qed.

Lemma untouched_trans a b c : untouched a b -> untouched b c -> untouched a c.
Proof.
  unfold untouched. intros Hab Hbc Ha. specialize (Hab Ha). subst b. auto.
Qed.

Ltac isolated :=
  repeat first
    [ respects_step
    | match goal with
      | |- respects _ (rpc_create_booking_safe _ _) =>
          apply respects_rpc_create_booking_safe; assumption
      | |- respects _ (handleCancel _) => unfold handleCancel
      | |- respects _ (startBooking _ _) => unfold startBooking
      | |- respects _ (showServices _ _) => unfold showServices
      | |- respects _ (showAvailableDates _ _ _) => unfold showAvailableDates
      | |- respects _ (showAvailableTimeSlots _ _ _) => unfold showAvailableTimeSlots
      | |- respects _ (showConfirmation _ _) => unfold showConfirmation
      | |- respects _ (handleNameInput _ _ _) => unfold handleNameInput
      | |- respects _ (handleBookingForInput _ _ _) => unfold handleBookingForInput
      | |- respects _ (handleGenderInput _ _ _) => unfold handleGenderInput
      | |- respects _ (handleServiceInput _ _ _ _) => unfold handleServiceInput
      | |- respects _ (handleDateInput _ _ _ _) => unfold handleDateInput
      | |- respects _ (handleTimeInput _ _ _) => unfold handleTimeInput
      | |- respects _ (handleConfirmation _ _ _ _) => unfold handleConfirmation
      | |- respects _ (route _ _ _ _) => unfold route
      | Hp : is_active_for _ _ ?r = true |- untouched ?r _ => intros Hn; congruence
      end ].

Lemma turn_rest_isolated (msg : string) (now : Z) (st : ConversationState) :
  respects untouched
    (try_catch
       (bind (extendExpiry (getBotId ad) (getUserKey ad) now 30)
          (fun _ => route ad msg st now))
       (fun _ => sendMessage ad MsgSomethingWrong)).
Proof.
  pose proof untouched_refl as Hr. pose proof untouched_trans as Ht.
  isolated.
Qed.

(** X26. A turn of the booking conversation of one customer leaves
    the conversations of every other customer, and the completed
    conversations of the same customer, as they were and where they
    were in the table. *)
Theorem turn_leaves_other_conversations (msg : string) (now : Z) (w : World) (i : nat)
    (r : BookingConversation) :
  booking_conversations w !! i = Some r ->
  is_active_for (getBotId ad) (getUserKey ad) r = false ->
  booking_conversations (exec (handleBookingMessage ad msg now) w) !! i = Some r.
Proof.
  intros Hi Hr.
  unfold exec. rewrite handleBookingMessage_unfold.
  set (w0 := set_calls _ w).
  unfold bookingTurn. rewrite try_catch_bind.
  pose proof (getOrCreateState_table (getBotId ad) (getBusinessId ad) (getUserKey ad)
                now w0) as Htbl.
  assert (H1 : forall w1, (booking_conversations w1 = booking_conversations w0
                           \/ exists row, booking_conversations w1
                                          = booking_conversations w0 ++ [row]
                                          /\ is_active_for (getBotId ad) (getUserKey ad) row
                                             = true
                                          /\ active_rows (getBotId ad) (getUserKey ad) w0
                                             = []) ->
                          booking_conversations w1 !! i = Some r).
  { intros w1 [-> | (row & -> & _)]; [exact Hi|].
    apply lookup_app_l_Some. exact Hi. }
  destruct (getOrCreateState _ _ _ now w0) as [[st|e] w1]; simpl in Htbl.
  - pose proof (turn_rest_isolated msg now st w1) as Hrest.
    unfold table_step in Hrest.
    destruct (Forall2_lookup_l _ _ _ _ _ Hrest (H1 w1 Htbl)) as (r' & Hr' & Hun).
    rewrite Hr'. f_equal. apply Hun. exact Hr.
  - rewrite sendMessage_table. apply H1. exact Htbl.
Qed.

End Isolation.

(** ** The menus and the replies to them *)

Section Menus.
Import JS BookingValidator Data World Adapter BookingStateManager BookingService.
Context `{Calendar}.


Lemma offered_dates_lookup (now : Z) (n : nat) :
  offered_dates now !! n
  = if (n <? 7)%nat then Some (isoDatePlus now (Z.of_nat n)) else None.
Proof.
  unfold offered_dates.
  destruct (n <? 7)%nat eqn:E.
  - apply Nat.ltb_lt in E.
    do 7 (destruct n as [|n]; [reflexivity|]). lia.
  - apply Nat.ltb_ge in E. apply lookup_ge_None. rewrite length_map, length_seq. exact E.
Qed.

(** X28. A reply that is a number selects the entry of the menu with
    that number, counted from one, and selects nothing when it is 0 or
    beyond the end of the menu: of the services, of the seven dates
    offered at the time of the reply, and of the free slots. *)
Theorem numeric_reply_selects_menu_entry (input : string) (services : list Service)
    (availableSlots : list Z) (now : Z) :
  all_digits input = true ->
  (1 <= parseInt input ->
   select_service input services = services !! Z.to_nat (parseInt input - 1)
   /\ select_date input now = offered_dates now !! Z.to_nat (parseInt input - 1)
   /\ select_time input availableSlots
      = hh_mm <$> availableSlots !! Z.to_nat (parseInt input - 1))
  /\ (parseInt input < 1 ->
      select_service input services = None
      /\ select_date input now = None
      /\ select_time input availableSlots = None).
Proof.
  intros Hd. unfold select_service, select_date, select_time. rewrite Hd.
  set (k := parseInt input). split.
  - intros Hk.
    assert (H0 : (0 <=? k - 1) = true) by (apply Z.leb_le; lia). rewrite H0. simpl andb.
    split; [|split].
    + destruct (k - 1 <? Z.of_nat (length services)) eqn:E; [reflexivity|].
      apply Z.ltb_ge in E. symmetry. apply lookup_ge_None. lia.
    + rewrite offered_dates_lookup.
      destruct (k - 1 <? 7) eqn:E.
      * apply Z.ltb_lt in E.
        assert ((Z.to_nat (k - 1) <? 7)%nat = true) as -> by (apply Nat.ltb_lt; lia).
        rewrite Z2Nat.id by lia. reflexivity.
      * apply Z.ltb_ge in E.
        assert ((Z.to_nat (k - 1) <? 7)%nat = false) as -> by (apply Nat.ltb_ge; lia).
        reflexivity.
    + destruct (k - 1 <? Z.of_nat (length availableSlots)) eqn:E; [reflexivity|].
      apply Z.ltb_ge in E.
      rewrite (proj2 (lookup_ge_None availableSlots (Z.to_nat (k - 1)))) by lia.
      reflexivity.
  - intros Hk.
    assert (H0 : (0 <=? k - 1) = false) by (apply Z.leb_gt; lia). rewrite H0.
    repeat split.
Qed.

End Menus.

Section MenusExamples.
Import JS BookingValidator Data World Adapter BookingStateManager BookingService.
#[local] Existing Instance week_calendar.

Lemma turn_leaves_other_conversations_witness :
  booking_conversations
    (exec (handleBookingMessage phone_adapter "Jane Doe" 60000) returning_customer)
  !! 0%nat
  = Some (mkBC 0 "bot-1" "biz-1" "15550001" (initial_data "15550001") IDLE true 1800000).
Proof.
  apply (turn_leaves_other_conversations phone_adapter "Jane Doe" 60000 returning_customer
           0%nat); reflexivity.
Defined.



Lemma numeric_reply_selects_menu_entry_witness :
  select_service "2"
    [mkService "svc-1" "biz-1" "Haircut" (JNum 50000) (JNum 30) true 0;
     mkService "svc-2" "biz-1" "Shave" (JNum 20000) (JNum 30) true 1]
  = Some (mkService "svc-2" "biz-1" "Shave" (JNum 20000) (JNum 30) true 1)
  /\ select_date "2" 0 = Some "2025-10-13"
  /\ select_time "2" [36000; 37800] = Some 37800
  /\ select_service "0"
       [mkService "svc-1" "biz-1" "Haircut" (JNum 50000) (JNum 30) true 0] = None.
Proof.
  destruct (numeric_reply_selects_menu_entry "2"
              [mkService "svc-1" "biz-1" "Haircut" (JNum 50000) (JNum 30) true 0;
               mkService "svc-2" "biz-1" "Shave" (JNum 20000) (JNum 30) true 1]
              [36000; 37800] 0 eq_refl) as [Hin _].
  destruct (Hin ltac:(vm_compute; discriminate)) as (Hs & Hd & Ht).
  destruct (numeric_reply_selects_menu_entry "0"
              [mkService "svc-1" "biz-1" "Haircut" (JNum 50000) (JNum 30) true 0]
              [] 0 eq_refl) as [_ Hout].
  destruct (Hout ltac:(vm_compute; reflexivity)) as (Hz & _).
  split; [exact Hs|]. split; [exact Hd|]. split; [exact Ht | exact Hz].
Defined.

End MenusExamples.
